(** * Weather backend: statistical processor and sample-window assembler

    A shallow embedding of [services/processor.js] (class [Processor]) and of
    the window loop of [services/dataFetcher.js] (class [DataFetcher]),
    followed by the properties of the specification that concern them; then
    the code around them: the two fetching methods of [DataFetcher], the
    cache service, the file name of the export, the handlers of the
    controller that call the services, and the error handler, with the
    properties that this code shows.

    Numbers.  A JavaScript number is modelled by [JS.num]: the three
    non-finite values of IEEE 754 and the finite values, the latter in exact
    rational arithmetic.  Rounding error, overflow to an infinity and the
    sign of zero are therefore outside the model (zero behaves as [+0]);
    everything that the code does with [NaN], with the infinities and with a
    division by zero is inside it.  Every arithmetic result is reduced to
    lowest terms, so that results can be compared with [=].

    Values.  An array element or an object field that may be absent is a
    [JS.val]: [null], [undefined] or a number, with the coercions of the
    language written out ([ToNumber], the relational operators, [isNaN]).

    Host functions.  What the language leaves to the engine and exact
    rationals cannot express ([Math.sqrt], [Math.sin], [Math.random], the
    digits of a non-integer number, the local calendar) is a field of the
    record [JS.Host]; every definition that needs one takes the host as an
    argument and every theorem holds for all hosts.

    The process.  The environment variables and the inherited property
    names are fields of [Node.Env].  The library [node-cache] is a
    parameter: a record of its operations over a store, of which nothing is
    assumed unless a theorem says so.  The clock is a parameter of the
    request.  The file system and the database are outside the model: the
    export is taken to be written, and the save of a query to the
    database, whose errors the controller catches, is left out. *)

From Stdlib Require Import ZArith NArith QArith Qabs Qround Qreduction.
From Stdlib Require Import List String Ascii Bool Arith Lia Lqa.
From Stdlib Require Import Sorted Permutation.
Import ListNotations.

(* ================================================================== *)
(** * Part I.  The embedding                                            *)
(* ================================================================== *)

Module JS.

(** ** Numbers *)

Inductive num : Type :=
| NaN
| PInf
| NInf
| Fin (q : Q).

(** A finite result, in lowest terms. *)
Definition fin (q : Q) : num := Fin (Qred q).

Definition ofZ (z : Z) : num := Fin (inject_Z z).
Definition ofNat (n : nat) : num := ofZ (Z.of_nat n).

Definition Qsign (q : Q) : comparison := (Qnum q ?= 0)%Z.

Definition signed_inf (c : comparison) : num :=
  match c with Gt => PInf | Lt => NInf | Eq => NaN end.

Definition neg (x : num) : num :=
  match x with
  | NaN => NaN
  | PInf => NInf
  | NInf => PInf
  | Fin q => fin (- q)
  end.

Definition add (x y : num) : num :=
  match x, y with
  | NaN, _ | _, NaN => NaN
  | PInf, NInf | NInf, PInf => NaN
  | PInf, _ | _, PInf => PInf
  | NInf, _ | _, NInf => NInf
  | Fin a, Fin b => fin (a + b)
  end.

Definition sub (x y : num) : num := add x (neg y).

Definition mul (x y : num) : num :=
  match x, y with
  | NaN, _ | _, NaN => NaN
  | Fin a, Fin b => fin (a * b)
  | Fin a, PInf | PInf, Fin a => signed_inf (Qsign a)
  | Fin a, NInf | NInf, Fin a => signed_inf (CompOpp (Qsign a))
  | PInf, PInf | NInf, NInf => PInf
  | PInf, NInf | NInf, PInf => NInf
  end.

(** Division.  A finite dividend over zero gives an infinity of the
    dividend's sign, and [0 / 0] gives [NaN]. *)
Definition div (x y : num) : num :=
  match x, y with
  | NaN, _ | _, NaN => NaN
  | Fin a, Fin b => if Qeq_bool b 0 then signed_inf (Qsign a) else fin (a / b)
  | Fin _, PInf | Fin _, NInf => Fin 0
  | PInf, Fin b => match Qsign b with Lt => NInf | _ => PInf end
  | NInf, Fin b => match Qsign b with Lt => PInf | _ => NInf end
  | _, _ => NaN
  end.

(** The relational operators on numbers: any comparison with [NaN] is
    false. *)
Definition lt (x y : num) : bool :=
  match x, y with
  | NaN, _ | _, NaN => false
  | _, NInf => false
  | NInf, _ => true
  | PInf, _ => false
  | _, PInf => true
  | Fin a, Fin b => match Qcompare a b with Lt => true | _ => false end
  end.

Definition gt (x y : num) : bool := lt y x.

Definition le (x y : num) : bool :=
  match x, y with
  | NaN, _ | _, NaN => false
  | _, _ => negb (lt y x)
  end.

Definition ge (x y : num) : bool := le y x.

(** [x === y] on numbers. *)
Definition eqb (x y : num) : bool :=
  match x, y with
  | PInf, PInf | NInf, NInf => true
  | Fin a, Fin b => Qeq_bool a b
  | _, _ => false
  end.

Definition Math_floor (x : num) : num :=
  match x with Fin q => ofZ (Qfloor q) | _ => x end.

Definition Math_ceil (x : num) : num :=
  match x with Fin q => ofZ (Qceiling q) | _ => x end.

Definition Math_abs (x : num) : num :=
  match x with NInf => PInf | Fin q => fin (Qabs q) | _ => x end.

Definition is_finite (x : num) : bool :=
  match x with Fin _ => true | _ => false end.

(** ** Values *)

Inductive val : Type :=
| Null
| Undefined
| Num (x : num).

Definition ToNumber (v : val) : num :=
  match v with
  | Null => Fin 0
  | Undefined => NaN
  | Num x => x
  end.

(** The global [isNaN]. *)
Definition isNaN (v : val) : bool :=
  match ToNumber v with NaN => true | _ => false end.

(** [ToBoolean], as [||] and [?:] apply it. *)
Definition truthy (v : val) : bool :=
  match v with
  | Num (Fin q) => negb (Qeq_bool q 0)
  | Num NaN => false
  | Num _ => true
  | _ => false
  end.

(** [v !== null] and [v !== undefined]. *)
Definition is_null (v : val) : bool :=
  match v with Null => true | _ => false end.

Definition is_undefined (v : val) : bool :=
  match v with Undefined => true | _ => false end.

(** [arr[i]] for a number [i]: [undefined] outside the array and for an
    index that is not a non-negative integer. *)
Definition index (arr : list val) (i : num) : val :=
  match i with
  | Fin q =>
      if Qeq_bool q (inject_Z (Qfloor q)) && (0 <=? Qfloor q)%Z
      then nth (Z.to_nat (Qfloor q)) arr Undefined
      else Undefined
  | _ => Undefined
  end.

(** [Math.min(...xs)] and [Math.max(...xs)]: [NaN] as soon as one argument
    is [NaN], the neutral infinity for no argument. *)
Definition min2 (x y : num) : num :=
  match x, y with
  | NaN, _ | _, NaN => NaN
  | _, _ => if lt y x then y else x
  end.

Definition max2 (x y : num) : num :=
  match x, y with
  | NaN, _ | _, NaN => NaN
  | _, _ => if lt x y then y else x
  end.

Definition Math_min (xs : list val) : num :=
  fold_left (fun m v => min2 m (ToNumber v)) xs PInf.

Definition Math_max (xs : list val) : num :=
  fold_left (fun m v => max2 m (ToNumber v)) xs NInf.

(** ** The host *)

Record Host : Type := {
  (** [Math.sqrt], [Math.sin] and [Math.PI]. *)
  Math_sqrt : num -> num;
  Math_sin : num -> num;
  Math_PI : num;
  (** The [n]-th number that [Math.random()] returns. *)
  Math_random : nat -> num;
  (** [Number::toString] where the digits depend on the binary
      representation: a finite number that is not an integer, or one of
      magnitude [1e21] and above. *)
  Number_toString : num -> string;
  (** [new Date(year, 0, 1)], [setDate(day)], [toISOString()] and the part
      before ['T'], for a year and a day of the year. *)
  Date_isoDay : num -> num -> string
}.


(** ** Strings of digits *)

Local Open Scope string_scope.

Definition Qltb (a b : Q) : bool :=
  match Qcompare a b with Lt => true | _ => false end.

Definition is_integer (q : Q) : bool := Qeq_bool q (inject_Z (Qfloor q)).

Definition digit_char (d : N) : ascii := ascii_of_N (48 + d).

Definition digit_of (c : ascii) : option N :=
  let k := N_of_ascii c in
  if ((48 <=? k) && (k <=? 57))%N then Some (k - 48)%N else None.

Fixpoint digits_aux (fuel : nat) (n : N) (acc : string) : string :=
  match fuel with
  | O => acc
  | S fuel' =>
      let acc' := String (digit_char (n mod 10)) acc in
      if (n / 10 =? 0)%N then acc' else digits_aux fuel' (n / 10) acc'
  end.

(** The decimal digits of a natural number, without leading zeros. *)
Definition decimal (n : N) : string :=
  digits_aux (S (N.to_nat (N.log2 n))) n "".

(** The first [n] characters of a string, and the others. *)
Fixpoint take (n : nat) (s : string) : string :=
  match n, s with
  | S k, String c r => String c (take k r)
  | _, _ => ""
  end.

Fixpoint drop (n : nat) (s : string) : string :=
  match n, s with
  | S k, String c r => drop k r
  | _, _ => s
  end.

Fixpoint zeros (n : nat) : string :=
  match n with
  | O => ""
  | S k => String "0" (zeros k)
  end.

(** [ToString] of a number.  Integers below [1e21] are written with all
    their digits; the host writes the other finite numbers. *)
Definition ToString (H : Host) (x : num) : string :=
  match x with
  | NaN => "NaN"
  | PInf => "Infinity"
  | NInf => "-Infinity"
  | Fin q =>
      if is_integer q && Qltb (Qabs q) (inject_Z (10 ^ 21))
      then (if Qltb q 0 then "-" else "") ++ decimal (Z.to_N (Z.abs (Qfloor q)))
      else Number_toString H x
  end.

(** [x.toFixed(f)], for [f] between 0 and 100.  The integer [n] for which
    [n / 10^f] is nearest to [|x|] is taken, the larger one on a tie. *)
Definition toFixed (H : Host) (x : num) (f : nat) : string :=
  match x with
  | Fin q =>
      let s := if Qltb q 0 then "-" else "" in
      let a := Qabs q in
      if Qle_bool (inject_Z (10 ^ 21)) a then s ++ ToString H (Fin a)
      else
        let n := Qfloor (a * inject_Z (10 ^ Z.of_nat f) + (1 # 2)) in
        let m := decimal (Z.to_N n) in
        let m :=
          match f with
          | O => m
          | _ =>
              let m := if (String.length m <=? f)%nat
                       then zeros (f + 1 - String.length m) ++ m else m in
              let k := String.length m in
              take (k - f) m ++ "." ++ drop (k - f) m
          end in
        s ++ m
  | _ => ToString H x
  end.

(** ** Reading numbers *)

Definition is_ws (c : ascii) : bool :=
  let k := N_of_ascii c in
  (((9 <=? k) && (k <=? 13)) || (k =? 32))%N.

Fixpoint skip_ws (s : string) : string :=
  match s with
  | String c r => if is_ws c then skip_ws r else s
  | EmptyString => s
  end.

Fixpoint all_ws (s : string) : bool :=
  match s with
  | String c r => is_ws c && all_ws r
  | EmptyString => true
  end.

Fixpoint drop_prefix (p s : string) : option string :=
  match p, s with
  | EmptyString, _ => Some s
  | String a p', String b s' => if Ascii.eqb a b then drop_prefix p' s' else None
  | String _ _, EmptyString => None
  end.

Fixpoint scan_digits (s : string) (acc : N) (cnt : nat) : N * nat * string :=
  match s with
  | String c r =>
      match digit_of c with
      | Some d => scan_digits r (acc * 10 + d) (S cnt)
      | None => (acc, cnt, s)
      end
  | EmptyString => (acc, cnt, s)
  end.

Definition parse_sign (s : string) : bool * string :=
  match s with
  | String c r =>
      if Ascii.eqb c "-" then (true, r)
      else if Ascii.eqb c "+" then (false, r)
      else (false, s)
  | EmptyString => (false, s)
  end.

(** An exponent part, when one follows; otherwise nothing is consumed. *)
Definition parse_exponent (s : string) : Z * string :=
  match s with
  | String c r =>
      if Ascii.eqb c "e" || Ascii.eqb c "E" then
        let (sg, r1) := parse_sign r in
        match scan_digits r1 0 0 with
        | (_, O, _) => (0%Z, s)
        | (e, _, r2) => ((if sg then - Z.of_N e else Z.of_N e)%Z, r2)
        end
      else (0%Z, s)
  | EmptyString => (0%Z, s)
  end.

Definition Qpow10 (e : Z) : Q := inject_Z 10 ^ e.

(** The longest prefix that is an unsigned [StrDecimalLiteral], with its
    value and what follows it. *)
Definition parse_unsigned (s : string) : option (num * string) :=
  match drop_prefix "Infinity" s with
  | Some r => Some (PInf, r)
  | None =>
      let '(ip, n1, r1) := scan_digits s 0 0 in
      let dot := match r1 with
                 | String c r2 => if Ascii.eqb c "." then Some r2 else None
                 | EmptyString => None
                 end in
      match dot with
      | Some r2 =>
          let '(fp, n2, r3) := scan_digits r2 0 0 in
          if ((n1 =? 0) && (n2 =? 0))%nat then None
          else
            let (e, r4) := parse_exponent r3 in
            Some (fin (inject_Z (Z.of_N (ip * 10 ^ N.of_nat n2 + fp))
                       / inject_Z (10 ^ Z.of_nat n2) * Qpow10 e), r4)
      | None =>
          if (n1 =? 0)%nat then None
          else
            let (e, r4) := parse_exponent r1 in
            Some (fin (inject_Z (Z.of_N ip) * Qpow10 e), r4)
      end
  end.

Definition parse_signed (s : string) : option (num * string) :=
  let (sg, r) := parse_sign s in
  match parse_unsigned r with
  | Some (x, r') => Some (if sg then neg x else x, r')
  | None => None
  end.

(** [parseFloat]. *)
Definition parseFloat (s : string) : num :=
  match parse_signed (skip_ws s) with
  | Some (x, _) => x
  | None => NaN
  end.

(** [ToNumber] of a string, for decimal literals (the [0x], [0o] and [0b]
    forms, which no function below produces, read as [NaN]). *)
Definition StringToNumber (s : string) : num :=
  let t := skip_ws s in
  match t with
  | EmptyString => Fin 0
  | _ =>
      match parse_signed t with
      | Some (x, r) => if all_ws r then x else NaN
      | None => NaN
      end
  end.

Definition hex_digit_of (c : ascii) : option N :=
  let k := N_of_ascii c in
  if ((48 <=? k) && (k <=? 57))%N then Some (k - 48)%N
  else if ((97 <=? k) && (k <=? 102))%N then Some (k - 87)%N
  else if ((65 <=? k) && (k <=? 70))%N then Some (k - 55)%N
  else None.

Fixpoint scan_hex (s : string) (acc : N) (cnt : nat) : N * nat :=
  match s with
  | String c r =>
      match hex_digit_of c with
      | Some d => scan_hex r (acc * 16 + d) (S cnt)
      | None => (acc, cnt)
      end
  | EmptyString => (acc, cnt)
  end.

(** [parseInt] with no radix. *)
Definition parseInt (s : string) : num :=
  let (sg, r) := parse_sign (skip_ws s) in
  let hex := match drop_prefix "0x" r with
             | Some r' => Some r'
             | None => drop_prefix "0X" r
             end in
  let (n, cnt) := match hex with
                  | Some r' => scan_hex r' 0 0
                  | None => let '(n, cnt, _) := scan_digits r 0 0 in (n, cnt)
                  end in
  match cnt with
  | O => NaN
  | _ => ofZ (if sg then - Z.of_N n else Z.of_N n)
  end.

(** [s.split(c)[0]]: the part of [s] before the first [c]. *)
Fixpoint before (c : ascii) (s : string) : string :=
  match s with
  | String a r => if Ascii.eqb a c then "" else String a (before c r)
  | EmptyString => ""
  end.


(** ** Faults *)

Inductive error : Type :=
| TypeError (msg : string).

(** The completion of a call: a value, or a thrown error. *)
Inductive completion (A : Type) : Type :=
| Normal (a : A)
| Throw (e : error).

Arguments Normal {A} a.
Arguments Throw {A} e.

Definition bind {A B : Type} (c : completion A) (k : A -> completion B)
  : completion B :=
  match c with
  | Normal a => k a
  | Throw e => Throw e
  end.

(** [v.toFixed(f)] on a field that may be absent: a property read on
    [undefined] or [null] throws. *)
Definition call_toFixed (H : Host) (v : val) (f : nat) : completion string :=
  match v with
  | Num x => Normal (toFixed H x f)
  | Undefined =>
      Throw (TypeError "Cannot read properties of undefined (reading 'toFixed')")
  | Null =>
      Throw (TypeError "Cannot read properties of null (reading 'toFixed')")
  end.

(** [`${v}`]. *)
Definition template (H : Host) (v : val) : string :=
  match v with
  | Null => "null"
  | Undefined => "undefined"
  | Num x => ToString H x
  end.

(** ** Loops and arrays *)

(** The values of [i] in [for (let i = lo; i <= hi; i++)]. *)
Definition range (lo hi : Z) : list Z :=
  map (fun k => (lo + Z.of_nat k)%Z) (seq 0 (Z.to_nat (hi + 1 - lo))).

(** [arr[i]++] on an array of counters.  Inside the array the element is
    incremented; just past the end the array grows by one element, which
    is [undefined + 1]; further out the gap reads as [undefined].  An index
    that is not a non-negative integer names an ordinary property and
    leaves the elements alone. *)
Definition increment (arr : list val) (i : num) : list val :=
  match i with
  | Fin q =>
      if is_integer q && (0 <=? Qfloor q)%Z then
        let k := Z.to_nat (Qfloor q) in
        if (k <? List.length arr)%nat
        then (firstn k arr
              ++ Num (add (ToNumber (nth k arr Undefined)) (Fin 1))
              :: skipn (S k) arr)%list
        else (arr ++ repeat Undefined (k - List.length arr)
              ++ [Num (add (ToNumber Undefined) (Fin 1))])%list
      else arr
  | _ => arr
  end.

(** [Array.prototype.sort] with a comparator, as a stable insertion sort:
    [x] goes before the first element that the comparator puts after it. *)
Fixpoint insert_by {A : Type} (after : A -> A -> bool) (x : A) (l : list A)
  : list A :=
  match l with
  | [] => [x]
  | y :: l' => if after y x then x :: l else y :: insert_by after x l'
  end.

Definition sort_by {A : Type} (after : A -> A -> bool) (l : list A) : list A :=
  fold_left (fun acc x => insert_by after x acc) l [].

(** ** Objects used as maps *)

(** The own properties of an object, in creation order. *)
Definition object (A : Type) : Type := list (string * A).

Fixpoint get {A : Type} (o : object A) (k : string) : option A :=
  match o with
  | [] => None
  | (k', a) :: o' => if String.eqb k' k then Some a else get o' k
  end.

Fixpoint set {A : Type} (o : object A) (k : string) (a : A) : object A :=
  match o with
  | [] => [(k, a)]
  | (k', a') :: o' =>
      if String.eqb k' k then (k, a) :: o' else (k', a') :: set o' k a
  end.

(** The array index that a key denotes, if it is one: the canonical
    decimal string of an integer below [2^32 - 1]. *)
Definition array_index (k : string) : option N :=
  match scan_digits k 0 0 with
  | (n, S _, EmptyString) =>
      if String.eqb (decimal n) k && (n <? 4294967295)%N then Some n else None
  | _ => None
  end.

(** [Object.keys]: the array indices in ascending order, then the other
    keys in creation order. *)
Definition Object_keys {A : Type} (o : object A) : list string :=
  let ks := map fst o in
  let idx := filter (fun k => match array_index k with Some _ => true | None => false end) ks in
  let others := filter (fun k => match array_index k with Some _ => false | None => true end) ks in
  let num_after (a b : string) :=
    match array_index a, array_index b with
    | Some x, Some y => (y <? x)%N
    | _, _ => false
    end in
  (sort_by num_after idx ++ others)%list.

(** [Array.prototype.sort] with no comparator, on strings: by code unit. *)
Definition sort_strings (l : list string) : list string :=
  sort_by (fun a b => String.ltb b a) l.

End JS.

Import JS.
Local Open Scope string_scope.

(** ** Samples *)

(** One point of a time series: [{date, value, year, dayOfYear}].  The
    date is always present; the other fields may be [null] or
    [undefined]. *)
Record Sample : Type := {
  date : string;
  value : val;
  year : val;
  dayOfYear : val
}.

(* ------------------------------------------------------------------ *)
(** ** [class Processor]                                                *)
(* ------------------------------------------------------------------ *)

Module Processor.

(** [{bins, counts, binWidth}]; the empty histogram has no [binWidth]. *)
Record Histogram : Type := {
  bins : list num;
  counts : list val;
  binWidth : val
}.

Record Exceedance : Type := {
  ex_threshold : val;
  ex_probability : num;
  ex_count : nat;
  ex_percentage : string
}.

Record Percentiles : Type := {
  p10 : val; p25 : val; p50 : val; p75 : val;
  p90 : val; p95 : val; p99 : val
}.

(** The object that [computeStats] returns.  A field that the object does
    not have reads as [undefined] (numbers) or is [None] (nested objects
    and the [error] text).  The fields [count], [mean] and [year] occur in
    several objects of the source, and [mean] and [median] are methods as
    well: fields carry the prefix of their record ([s_], [ex_], [ym_]). *)
Record Stats : Type := {
  s_error : option string;
  s_count : nat;
  s_mean : val;
  s_median : val;
  s_std : val;
  s_min : val;
  s_max : val;
  s_percentiles : option Percentiles;
  s_exceedance : option Exceedance;
  s_distribution : option Histogram
}.

Record YearMean : Type := {
  ym_year : num;
  ym_mean : num;
  ym_count : nat
}.

Record Trend : Type := {
  slope : string;
  direction : string;
  changePerDecade : string
}.

Record TrendResult : Type := {
  yearlyMeans : list YearMean;
  trend : Trend
}.

Record Quality : Type := {
  total : nat;
  valid : nat;
  missing : Z;
  missingPercent : string;
  quality : string;
  warning : option string
}.

Section Methods.

Variable H : Host.

(** [values.reduce((sum, v) => sum + v, 0) / values.length] *)
Definition mean (values : list val) : num :=
  div (fold_left (fun sum v => add sum (ToNumber v)) values (Fin 0))
      (ofNat (List.length values)).

Definition median (sortedValues : list val) : val :=
  let mid := (Z.of_nat (List.length sortedValues) / 2)%Z in
  if (Z.of_nat (List.length sortedValues) mod 2 =? 0)%Z then
    Num (div (add (ToNumber (index sortedValues (ofZ (mid - 1))))
                  (ToNumber (index sortedValues (ofZ mid))))
             (Fin 2))
  else index sortedValues (ofZ mid).

(** [Math.pow(x, 2)] *)
Definition square (x : num) : num := mul x x.

Definition standardDeviation (values : list val) : num :=
  let avg := mean values in
  let squareDiffs := map (fun v => Num (square (sub (ToNumber v) avg))) values in
  let avgSquareDiff := mean squareDiffs in
  Math_sqrt H avgSquareDiff.

Definition percentile (sortedValues : list val) (p : num) : val :=
  match sortedValues with
  | [] => Null
  | _ =>
      let index_ := mul (div p (Fin 100))
                        (ofZ (Z.of_nat (List.length sortedValues) - 1)) in
      let lower := Math_floor index_ in
      let upper := Math_ceil index_ in
      let weight := sub index_ lower in
      if eqb lower upper then index sortedValues lower
      else Num (add (mul (ToNumber (index sortedValues lower))
                         (sub (Fin 1) weight))
                    (mul (ToNumber (index sortedValues upper)) weight))
  end.

(** The bin that one value is counted in: the quotient, floored, then the
    two clamps of the source in their order. *)
Definition binIndexOf (min binWidth : num) (numBins : nat) (v : val) : num :=
  let binIndex := Math_floor (div (sub (ToNumber v) min) binWidth) in
  let binIndex := if ge binIndex (ofNat numBins)
                  then ofZ (Z.of_nat numBins - 1) else binIndex in
  let binIndex := if lt binIndex (Fin 0) then Fin 0 else binIndex in
  binIndex.

(** [createHistogram(values, numBins)], for a number of bins that is a
    natural number (the only call passes 20). *)
Definition createHistogram (values : list val) (numBins : nat) : Histogram :=
  match values with
  | [] => {| bins := []; counts := []; binWidth := Undefined |}
  | _ =>
      let min := Math_min values in
      let max := Math_max values in
      let binWidth_ := div (sub max min) (ofNat numBins) in
      let bins_ := map (fun i => add min (mul (ofZ i) binWidth_))
                       (range 0 (Z.of_nat numBins)) in
      let counts_ :=
        fold_left (fun counts v => increment counts (binIndexOf min binWidth_ numBins v))
                  values (repeat (Num (Fin 0)) numBins) in
      {| bins := map (fun b => parseFloat (toFixed H b 2)) bins_;
         counts := counts_;
         binWidth := Num (parseFloat (toFixed H binWidth_ 2)) |}
  end.

(** [v !== null && v !== undefined && !isNaN(v)] *)
Definition isValid (v : val) : bool :=
  negb (is_null v) && negb (is_undefined v) && negb (isNaN v).

(** [[...values].sort((a, b) => a - b)] *)
Definition sortAscending (values : list val) : list val :=
  sort_by (fun a b => gt (sub (ToNumber a) (ToNumber b)) (Fin 0)) values.

Definition noData : Stats :=
  {| s_error := Some "No valid data points";
     s_count := 0;
     s_mean := Undefined; s_median := Undefined; s_std := Undefined;
     s_min := Undefined; s_max := Undefined;
     s_percentiles := None; s_exceedance := None; s_distribution := None |}.

(** [computeStats(dataPoints, threshold = null)]: an [undefined] argument
    takes the default. *)
Definition computeStats (dataPoints : list Sample) (threshold : val) : Stats :=
  let threshold := match threshold with Undefined => Null | t => t end in
  let values := filter isValid (map value dataPoints) in
  match values with
  | [] => noData
  | _ =>
      let sorted := sortAscending values in
      let n := List.length values in
      {| s_error := None;
         s_count := n;
         s_mean := Num (mean values);
         s_median := median sorted;
         s_std := Num (standardDeviation values);
         s_min := index sorted (Fin 0);
         s_max := index sorted (ofZ (Z.of_nat (List.length sorted) - 1));
         s_percentiles :=
           Some {| p10 := percentile sorted (Fin 10);
                   p25 := percentile sorted (Fin 25);
                   p50 := percentile sorted (Fin 50);
                   p75 := percentile sorted (Fin 75);
                   p90 := percentile sorted (Fin 90);
                   p95 := percentile sorted (Fin 95);
                   p99 := percentile sorted (Fin 99) |};
         s_exceedance :=
           if negb (is_null threshold) then
             let exceedCount :=
               List.length
                 (filter (fun v => gt (ToNumber v) (ToNumber threshold)) values) in
             Some {| ex_threshold := threshold;
                     ex_probability := div (ofNat exceedCount) (ofNat n);
                     ex_count := exceedCount;
                     ex_percentage :=
                       toFixed H (mul (div (ofNat exceedCount) (ofNat n)) (Fin 100)) 1 |}
           else None;
         s_distribution := Some (createHistogram values 20) |}
  end.

Definition linearRegression (data : list YearMean) : num :=
  let n := List.length data in
  if (n <? 2)%nat then Fin 0
  else
    let sumX := fold_left (fun sum d => add sum (ym_year d)) data (Fin 0) in
    let sumY := fold_left (fun sum d => add sum (ym_mean d)) data (Fin 0) in
    let sumXY := fold_left (fun sum d => add sum (mul (ym_year d) (ym_mean d))) data (Fin 0) in
    let sumX2 := fold_left (fun sum d => add sum (mul (ym_year d) (ym_year d))) data (Fin 0) in
    div (sub (mul (ofNat n) sumXY) (mul sumX sumY))
        (sub (mul (ofNat n) sumX2) (mul sumX sumX)).

(** [point.year || parseInt(point.date.split('-')[0])], as the property
    key it is used for. *)
Definition yearKey (point : Sample) : string :=
  ToString H (if truthy (year point) then ToNumber (year point)
              else parseInt (before "-" (date point))).

(** The body of the [forEach] of [analyzeTrend]: the value of the point is
    pushed on the array of its year, whatever the value is. *)
Definition groupPoint (yearlyMeans : object (list val)) (point : Sample)
  : object (list val) :=
  let k := yearKey point in
  let arr := match get yearlyMeans k with
             | Some arr => arr
             | None => []
             end in
  set yearlyMeans k (arr ++ [value point])%list.

Definition analyzeTrend (dataPoints : list Sample) : TrendResult :=
  let yearlyMeans_ := fold_left groupPoint dataPoints [] in
  let trendData :=
    map (fun k =>
           let arr := match get yearlyMeans_ k with
                      | Some arr => arr
                      | None => []
                      end in
           {| ym_year := parseInt k;
              ym_mean := mean arr;
              ym_count := List.length arr |})
        (sort_strings (Object_keys yearlyMeans_)) in
  let slope_ := linearRegression trendData in
  {| yearlyMeans := trendData;
     trend :=
       {| slope := toFixed H slope_ 4;
          direction := if gt slope_ (Fin 0) then "increasing"
                       else if lt slope_ (Fin 0) then "decreasing"
                       else "stable";
          changePerDecade := toFixed H (mul slope_ (Fin 10)) 2 |} |}.

Definition generateSummary (stats : Stats) (variable : string) (threshold : val)
  : completion string :=
  match s_exceedance stats with
  | Some e =>
      let prob := ex_percentage e in
      let summary :=
        "There is a " ++ prob ++ "% chance that " ++ variable
        ++ " will exceed " ++ template H threshold
        ++ " based on historical data ("
        ++ decimal (N.of_nat (s_count stats)) ++ " observations)." in
      Normal
        (summary ++
         (if lt (StringToNumber prob) (Fin 10) then " This is a rare occurrence."
          else if lt (StringToNumber prob) (Fin 30) then " This happens occasionally."
          else if lt (StringToNumber prob) (Fin 60) then " This is fairly common."
          else " This is very likely."))
  | None =>
      bind (call_toFixed H (s_mean stats) 1) (fun mean_ =>
      bind (call_toFixed H (s_median stats) 1) (fun median_ =>
      bind (call_toFixed H (s_min stats) 1) (fun min_ =>
      bind (call_toFixed H (s_max stats) 1) (fun max_ =>
      Normal ("Historical " ++ variable ++ ": mean=" ++ mean_
              ++ ", median=" ++ median_
              ++ ", range=[" ++ min_ ++ ", " ++ max_ ++ "]")))))
  end.

Definition assessDataQuality (dataPoints : list Sample) : Quality :=
  let total_ := List.length dataPoints in
  let valid_ := List.length (filter (fun d => isValid (value d)) dataPoints) in
  let missing_ := (Z.of_nat total_ - Z.of_nat valid_)%Z in
  let missingPercent_ :=
    toFixed H (mul (div (ofZ missing_) (ofNat total_)) (Fin 100)) 1 in
  {| total := total_;
     valid := valid_;
     missing := missing_;
     missingPercent := missingPercent_;
     quality := if lt (StringToNumber missingPercent_) (Fin 10) then "good"
                else if lt (StringToNumber missingPercent_) (Fin 30) then "fair"
                else "poor";
     warning := if gt (StringToNumber missingPercent_) (Fin 30)
                then Some "High percentage of missing data may affect reliability"
                else None |}.

End Methods.

End Processor.

(* ------------------------------------------------------------------ *)
(** ** The process and the configuration                                *)
(* ------------------------------------------------------------------ *)

Module Node.

(** An [Error] object as the services raise them: its [name] and its
    [message]; it has no [statusCode], [code], [errors], [isAxiosError] or
    [response]. *)
Record Error : Type := {
  e_name : string;
  e_message : string
}.

(** A fault of the language, as the object that is thrown. *)
Definition ofError (e : error) : Error :=
  match e with
  | TypeError msg => {| e_name := "TypeError"; e_message := msg |}
  end.

(** A settled promise. *)
Inductive promise (A : Type) : Type :=
| Resolved (a : A)
| Rejected (e : Error).

Arguments Resolved {A} a.
Arguments Rejected {A} e.

(** [process.env], and what the engine provides beyond the functions of
    [Host]. *)
Record Env : Type := {
  (** [process.env.USE_MOCK_DATA] and [process.env.NODE_ENV]; [None] when
      the variable is not set. *)
  USE_MOCK_DATA : option string;
  NODE_ENV : option string;
  (** The property names that every object inherits from
      [Object.prototype] ("constructor", "toString", ...). *)
  inherited : string -> bool;
  (** [err.stack]. *)
  stack : Error -> string
}.

(** What [o[k]] finds on an object literal [o]. *)
Inductive lookup (A : Type) : Type :=
| Own (a : A)
| Inherited
| Absent.

Arguments Own {A} a.
Arguments Inherited {A}.
Arguments Absent {A}.

Definition property {A : Type} (E : Env) (o : object A) (k : string) : lookup A :=
  match get o k with
  | Some a => Own a
  | None => if inherited E k then Inherited else Absent
  end.

(** [s.includes(t)]. *)
Fixpoint includes (s t : string) : bool :=
  match drop_prefix t s with
  | Some _ => true
  | None =>
      match s with
      | String _ r => includes r t
      | EmptyString => false
      end
  end.

End Node.

(** [config/nasa.js]: the table [variables]. *)
Module Config.

Record VarConfig : Type := {
  code : string;
  units : string;
  displayUnits : string;
  description : string;
  conversion : num -> num
}.

Definition variables : object VarConfig :=
  [ ("temperature",
     {| code := "t2m"; units := "K"; displayUnits := "°C";
        description := "2-meter air temperature";
        conversion := fun k => sub k (Fin (27315 # 100)) |});
    ("precipitation",
     {| code := "precip"; units := "mm/day"; displayUnits := "mm/day";
        description := "Daily precipitation";
        conversion := fun v => v |});
    ("windspeed",
     {| code := "wnd10m"; units := "m/s"; displayUnits := "m/s";
        description := "10-meter wind speed";
        conversion := fun v => v |});
    ("humidity",
     {| code := "rh2m"; units := "%"; displayUnits := "%";
        description := "2-meter relative humidity";
        conversion := fun v => v |});
    ("dust",
     {| code := "dust"; units := "kg/m^2"; displayUnits := "kg/m²";
        description := "Dust aerosol optical depth";
        conversion := fun v => v |}) ].

End Config.

(* ------------------------------------------------------------------ *)
(** ** [class DataFetcher]                                              *)
(* ------------------------------------------------------------------ *)

Module DataFetcher.

(** [yearRange]: [{start, end}]. *)
Record YearRange : Type := {
  start : Z;
  end_ : Z
}.

(** [config.variables[variable].conversion] of [config/nasa.js]. *)
Definition conversion (variable : string) : option (num -> num) :=
  if String.eqb variable "temperature"
  then Some (fun k => sub k (Fin (27315 # 100)))
  else if String.eqb variable "precipitation"
          || String.eqb variable "windspeed"
          || String.eqb variable "humidity"
          || String.eqb variable "dust"
  then Some (fun v => v)
  else None.

(** What the loops carry: the array [data] and the number of calls to
    [Math.random()] made so far. *)
Record State : Type := {
  data : list Sample;
  draws : nat
}.

Section Methods.

Variable H : Host.

(** The day and the year that an offset of the window stands for. *)
Definition wrapDay (year_ day : Z) : Z * Z :=
  if (day <? 1)%Z then (365 + day, year_ - 1)%Z
  else if (day >? 365)%Z then (day - 365, year_ + 1)%Z
  else (day, year_).

(** The [switch (variable)]: the mock value for a day, and the number of
    draws after it. *)
Definition mockValue (variable : string) (actualDay : Z) (k : nat) : num * nat :=
  let rnd := Math_random H in
  if String.eqb variable "temperature" then
    let seasonalTemp :=
      add (Fin 15)
          (mul (Fin 15)
               (Math_sin H
                  (div (mul (mul (sub (ofZ actualDay) (Fin 80)) (Fin 2)) (Math_PI H))
                       (Fin 365)))) in
    (add seasonalTemp (mul (sub (rnd k) (Fin (1 # 2))) (Fin 10)), S k)
  else if String.eqb variable "precipitation" then
    if lt (rnd k) (Fin (7 # 10)) then (Fin 0, S k)
    else (mul (rnd (S k)) (Fin 50), S (S k))
  else if String.eqb variable "windspeed" then
    (Math_abs (add (Fin 5) (mul (sub (rnd k) (Fin (1 # 2))) (Fin 10))), S k)
  else if String.eqb variable "humidity" then
    (add (Fin 40) (mul (rnd k) (Fin 50)), S k)
  else if String.eqb variable "dust" then
    (mul (rnd k) (Fin (1 # 2)), S k)
  else
    (mul (rnd k) (Fin 100), S k).

(** The body of the inner loop. *)
Definition step (variable : string) (year_ : Z) (st : State) (day : Z) : State :=
  let (actualDay, actualYear) := wrapDay year_ day in
  let (value0, k) := mockValue variable actualDay (draws st) in
  let value1 := match conversion variable with
                | Some f => f value0
                | None => value0
                end in
  {| data := (data st ++
              [{| date := Date_isoDay H (ofZ actualYear) (ofZ actualDay);
                  value := Num (parseFloat (toFixed H value1 2));
                  year := Num (ofZ actualYear);
                  dayOfYear := Num (ofZ actualDay) |}])%list;
     draws := k |}.

(** [generateMockData(lat, lon, variable, dayOfYear, window, yearRange)],
    for integer [dayOfYear], [window] and years. *)
Definition generateMockData (lat lon : num) (variable : string)
  (dayOfYear_ window : Z) (yearRange : YearRange) : list Sample :=
  data
    (fold_left
       (fun st year_ =>
          fold_left (step variable year_)
                    (range (dayOfYear_ - window) (dayOfYear_ + window)) st)
       (range (start yearRange) (end_ yearRange))
       {| data := []; draws := 0 |}).

End Methods.

Section Fetching.

Variable E : Node.Env.
Variable H : Host.

(** [fetchRealNASAData]: the request parameters are built, which reads
    [varConfig.code], and the mock series is returned; a fault on the way
    is rethrown as an [Error] with the message prefixed. *)
Definition fetchRealNASAData (lat lon : num) (variable : string)
  (dayOfYear_ window : Z) (yearRange : YearRange) : Node.promise (list Sample) :=
  match Node.property E Config.variables variable with
  | Node.Absent =>
      Node.Rejected
        {| Node.e_name := "Error";
           Node.e_message :=
             "Failed to fetch data from NASA: "
             ++ "Cannot read properties of undefined (reading 'code')" |}
  | _ =>
      Node.Resolved (generateMockData H lat lon variable dayOfYear_ window yearRange)
  end.

(** [fetchPointTimeSeries]: mock data unless [USE_MOCK_DATA] is the text
    'false'. *)
Definition fetchPointTimeSeries (lat lon : num) (variable : string)
  (dayOfYear_ window : Z) (yearRange : YearRange) : Node.promise (list Sample) :=
  let useMockData :=
    negb (match Node.USE_MOCK_DATA E with
          | Some s => String.eqb s "false"
          | None => false
          end) in
  if useMockData
  then Node.Resolved (generateMockData H lat lon variable dayOfYear_ window yearRange)
  else fetchRealNASAData lat lon variable dayOfYear_ window yearRange.

End Fetching.

End DataFetcher.

(* ------------------------------------------------------------------ *)
(** ** [class CacheService]                                             *)
(* ------------------------------------------------------------------ *)

(** The fields of a validated request body that the services read. *)
Record Params : Type := {
  p_lat : num;
  p_lon : num;
  p_variable : string;
  p_dayOfYear : Z;
  p_window : Z;
  p_yearRange : DataFetcher.YearRange;
  p_threshold : val;
  p_locationName : option string
}.

Module CacheService.

Section Service.

(** The library [node-cache] is taken as given: a store of values of type
    [V], with the operations of the library that the service calls. *)
Variables V store libraryStats : Type.

Record NodeCache : Type := {
  (** [cache.get(key)]: [None] is [undefined]. *)
  nc_get : store -> string -> option V;
  (** [cache.set(key, value)] and [cache.set(key, value, ttl)]. *)
  nc_set : store -> string -> V -> option num -> store * bool;
  nc_del : store -> string -> store * num;
  nc_flushAll : store -> store;
  nc_keys : store -> list string;
  nc_getStats : store -> libraryStats
}.

Variable nc : NodeCache.
Variable H : Host.

(** [this.cache] and [this.stats]. *)
Record State : Type := {
  cache : store;
  hits : nat;
  misses : nat;
  sets : nat
}.

Definition generateKey (params : Params) : string :=
  "query:" ++ ToString H (p_lat params)
  ++ ":" ++ ToString H (p_lon params)
  ++ ":" ++ p_variable params
  ++ ":" ++ ToString H (ofZ (p_dayOfYear params))
  ++ ":" ++ ToString H (ofZ (p_window params))
  ++ ":" ++ ToString H (ofZ (DataFetcher.start (p_yearRange params)))
  ++ ":" ++ ToString H (ofZ (DataFetcher.end_ (p_yearRange params))).

(** [get(key)]: the value, or [None] for [null]. *)
Definition get (st : State) (key : string) : State * option V :=
  match nc_get nc (cache st) key with
  | Some value =>
      ({| cache := cache st; hits := S (hits st);
          misses := misses st; sets := sets st |}, Some value)
  | None =>
      ({| cache := cache st; hits := hits st;
          misses := S (misses st); sets := sets st |}, None)
  end.

(** [set(key, value, ttl = null)] *)
Definition set (st : State) (key : string) (value : V) (ttl : val) : State * bool :=
  let ttl := match ttl with Undefined => Null | t => t end in
  let (store', success) :=
    if truthy ttl then nc_set nc (cache st) key value (Some (ToNumber ttl))
    else nc_set nc (cache st) key value None in
  ({| cache := store'; hits := hits st; misses := misses st;
      sets := if success then S (sets st) else sets st |}, success).

Definition delete (st : State) (key : string) : State * num :=
  let (store', n) := nc_del nc (cache st) key in
  ({| cache := store'; hits := hits st; misses := misses st; sets := sets st |}, n).

Definition flush (st : State) : State :=
  {| cache := nc_flushAll nc (cache st);
     hits := hits st; misses := misses st; sets := sets st |}.

Record Stats : Type := {
  gs_keys : nat;
  gs_hits : nat;
  gs_misses : nat;
  gs_sets : nat;
  gs_hitRate : string;
  gs_memoryUsage : libraryStats
}.

Definition getStats (st : State) : Stats :=
  let keys := nc_keys nc (cache st) in
  let hitRate :=
    if (0 <? hits st + misses st)%nat
    then toFixed H (mul (div (ofNat (hits st)) (ofNat (hits st + misses st)))
                        (Fin 100)) 2
    else ToString H (Fin 0) in
  {| gs_keys := List.length keys;
     gs_hits := hits st;
     gs_misses := misses st;
     gs_sets := sets st;
     gs_hitRate := hitRate ++ "%";
     gs_memoryUsage := nc_getStats nc (cache st) |}.

End Service.

Arguments nc_get {V store libraryStats} n _ _.
Arguments nc_set {V store libraryStats} n _ _ _ _.
Arguments nc_del {V store libraryStats} n _ _.
Arguments nc_flushAll {V store libraryStats} n _.
Arguments nc_keys {V store libraryStats} n _.
Arguments nc_getStats {V store libraryStats} n _.
Arguments cache {store} s.
Arguments hits {store} s.
Arguments misses {store} s.
Arguments sets {store} s.
Arguments get {V store libraryStats} nc st key.
Arguments set {V store libraryStats} nc st key value ttl.
Arguments delete {V store libraryStats} nc st key.
Arguments flush {V store libraryStats} nc st.
Arguments getStats {V store libraryStats} nc H st.
Arguments gs_keys {libraryStats} s.
Arguments gs_hits {libraryStats} s.
Arguments gs_misses {libraryStats} s.
Arguments gs_sets {libraryStats} s.
Arguments gs_hitRate {libraryStats} s.
Arguments gs_memoryUsage {libraryStats} s.

End CacheService.

(* ------------------------------------------------------------------ *)
(** ** [class CSVWriter]                                                *)
(* ------------------------------------------------------------------ *)

Module CSVWriter.

(** The name of the file that [generateCSV] writes and returns, for the
    variable of the metadata and the value of [Date.now()].  Writing the
    file belongs to the file system and is outside the model. *)
Definition generateCSV (H : Host) (variable : string) (timestamp : Z) : string :=
  "weather_data_" ++ variable ++ "_" ++ ToString H (ofZ timestamp) ++ ".csv".

Definition getPublicURL (filename : string) : string :=
  "/api/v1/weather/download/" ++ filename.

End CSVWriter.

(* ------------------------------------------------------------------ *)
(** ** [class WeatherController] and the error handler                  *)
(* ------------------------------------------------------------------ *)

Module WeatherController.

(** [meta] *)
Record Meta : Type := {
  m_variable : string;
  (** [varConfig.displayUnits]; [None] is [undefined]. *)
  m_units : option string;
  m_lat : num;
  m_lon : num;
  m_locationName : string;
  m_dayOfYear : Z;
  m_window : Z;
  m_yearRange : DataFetcher.YearRange;
  m_dataSource : string;
  m_queryDate : string;
  m_quality : Processor.Quality
}.

(** The values of the fields of a response body. *)
Inductive json : Type :=
| JBool (b : bool)
| JNumber (x : num)
| JString (s : string)
| JMeta (m : Meta)
| JStats (s : Processor.Stats)
| JTrend (t : Processor.TrendResult)
| JDistribution (d : option Processor.Histogram)
| JSeries (l : list Sample)
| JError (e : Node.Error).

(** What a handler does with the request: it sends a body with a status,
    starts a download, or passes an error on. *)
Inductive outcome : Type :=
| Sent (status : Z) (body : object json)
| Download (filename : string)
| Next (e : Node.Error).

(** [{...base, ...o}]: the own properties of [o], in order, over [base]. *)
Definition spread {A : Type} (base o : object A) : object A :=
  fold_left (fun acc kv => set acc (fst kv) (snd kv)) o base.

(** What the clock shows during a request: [new Date().toISOString()] in
    [query] and [Date.now()] in [generateCSV]. *)
Record Moment : Type := {
  queryDate : string;
  timestamp : Z
}.

Section Handlers.

Variable E : Node.Env.
Variable H : Host.
Variables store libraryStats : Type.
Variable nc : CacheService.NodeCache (object json) store libraryStats.

Definition CacheState : Type := CacheService.State store.

(** [query(req, res, next)] on the validated data of the request, for an
    integer [dayOfYear] and an export that the file system accepts.  The
    optional save to the database comes after the result is built and
    cached, and its errors are caught: it changes neither the response nor
    the cache, and the database is outside the model. *)
Definition query (st : CacheState) (now : Moment) (params : Params)
  : CacheState * outcome :=
  let cacheKey := CacheService.generateKey H params in
  let (st1, cachedResult) := CacheService.get nc st cacheKey in
  match cachedResult with
  | Some cachedResult =>
      (st1, Sent 200 (spread [("success", JBool true); ("cached", JBool true)]
                             cachedResult))
  | None =>
      match DataFetcher.fetchPointTimeSeries E H
              (p_lat params) (p_lon params) (p_variable params)
              (p_dayOfYear params) (p_window params) (p_yearRange params) with
      | Node.Rejected e => (st1, Next e)
      | Node.Resolved [] =>
          (st1, Sent 404
                  [("success", JBool false);
                   ("message",
                    JString "No data available for the specified location and time period")])
      | Node.Resolved timeseries =>
          let stats := Processor.computeStats H timeseries (p_threshold params) in
          let quality := Processor.assessDataQuality H timeseries in
          let trend := Processor.analyzeTrend H timeseries in
          match Processor.generateSummary H stats (p_variable params)
                  (p_threshold params) with
          | Throw e => (st1, Next (Node.ofError e))
          | Normal summary =>
              match Node.property E Config.variables (p_variable params) with
              | Node.Absent =>
                  (st1, Next (Node.ofError
                                (TypeError
                                   "Cannot read properties of undefined (reading 'displayUnits')")))
              | varConfig =>
                  let meta :=
                    {| m_variable := p_variable params;
                       m_units := match varConfig with
                                  | Node.Own c => Some (Config.displayUnits c)
                                  | _ => None
                                  end;
                       m_lat := p_lat params;
                       m_lon := p_lon params;
                       m_locationName :=
                         match p_locationName params with
                         | Some (String c r) => String c r
                         | _ => ToString H (p_lat params) ++ ", "
                                ++ ToString H (p_lon params)
                         end;
                       m_dayOfYear := p_dayOfYear params;
                       m_window := p_window params;
                       m_yearRange := p_yearRange params;
                       m_dataSource := "NASA GES DISC / Giovanni";
                       m_queryDate := queryDate now;
                       m_quality := quality |} in
                  let csvFilename :=
                    CSVWriter.generateCSV H (m_variable meta) (timestamp now) in
                  let downloadUrl := CSVWriter.getPublicURL csvFilename in
                  let result :=
                    [ ("success", JBool true);
                      ("meta", JMeta meta);
                      ("stats", JStats stats);
                      ("trend", JTrend trend);
                      ("summary", JString summary);
                      ("distribution", JDistribution (Processor.s_distribution stats));
                      ("timeseries", JSeries (firstn 100 timeseries));
                      ("downloadUrl", JString downloadUrl);
                      ("cached", JBool false) ] in
                  let (st2, _) := CacheService.set nc st1 cacheKey result Undefined in
                  (st2, Sent 200 result)
              end
          end
      end
  end.

(** [downloadCSV(req, res, next)], for the file name of the route and the
    answer of [fs.existsSync] for the path of that name in the directory
    of the exports. *)
Definition downloadCSV (filename : string) (existsSync : bool) : outcome :=
  if Node.includes filename ".." || Node.includes filename "/"
     || Node.includes filename "\"
  then Sent 400 [("success", JBool false); ("message", JString "Invalid filename")]
  else if negb existsSync
  then Sent 404 [("success", JBool false);
                 ("message", JString "File not found or expired")]
  else Download filename.

(** The numbers of [getHistory]: [limit], [page], [skip] and, for the
    count of the documents, [pages].  A query parameter is a text or is
    absent. *)
Record Pagination : Type := {
  pg_page : num;
  pg_limit : num;
  pg_skip : num;
  pg_pages : num
}.

Definition queryNumber (param : option string) (default : num) : num :=
  let n := match param with
           | Some s => parseInt s
           | None => NaN
           end in
  if truthy (Num n) then n else default.

Definition pagination (limit page : option string) (total : nat) : Pagination :=
  let limit := queryNumber limit (Fin 20) in
  let page := queryNumber page (Fin 1) in
  {| pg_page := page;
     pg_limit := limit;
     pg_skip := mul (sub page (Fin 1)) limit;
     pg_pages := Math_ceil (div (ofNat total) limit) |}.

(** [errorHandler(err, req, res, next)], for an error with a name and a
    message only.  An error named 'ValidationError' has no [errors] to
    list, and the handler throws. *)
Definition errorHandler (err : Node.Error) : completion outcome :=
  let statusCode := 500%Z in
  let message := match Node.e_message err with
                 | EmptyString => "Internal Server Error"
                 | m => m
                 end in
  if String.eqb (Node.e_name err) "ValidationError"
  then Throw (TypeError "Cannot convert undefined or null to object")
  else
    let (statusCode, message) :=
      if String.eqb (Node.e_name err) "JsonWebTokenError"
      then (401%Z, "Invalid token") else (statusCode, message) in
    let (statusCode, message) :=
      if String.eqb (Node.e_name err) "TokenExpiredError"
      then (401%Z, "Token expired") else (statusCode, message) in
    Normal
      (Sent statusCode
         (spread [("success", JBool false); ("message", JString message)]
                 (if match Node.NODE_ENV E with
                     | Some s => String.eqb s "development"
                     | None => false
                     end
                  then [("stack", JString (Node.stack E err)); ("error", JError err)]
                  else []))).

End Handlers.

End WeatherController.

(* ------------------------------------------------------------------ *)
(** ** Vocabulary of the specification                                  *)
(* ------------------------------------------------------------------ *)

Import Processor.

(** The valid values of a sample sequence, as [computeStats] and
    [assessDataQuality] select them. *)
Definition validValues (pts : list Sample) : list val :=
  filter isValid (map value pts).

(** A present, finite numeric value. *)
Definition isFiniteValue (v : val) : bool :=
  match v with Num (Fin _) => true | _ => false end.

Definition finiteCount (vs : list val) : nat :=
  List.length (filter isFiniteValue vs).

(** The sum of an array of counters. *)
Definition sumCounts (cs : list val) : num :=
  fold_left (fun s c => add s (ToNumber c)) cs (Fin 0).

(** The number of values strictly greater than a threshold. *)
Definition countAbove (t : num) (vs : list val) : nat :=
  List.length (filter (fun v => gt (ToNumber v) t) vs).

(** The nearest integer, the larger one on a tie. *)
Definition roundHalfUp (q : Q) : Z := Qfloor (q + (1 # 2)).

(** A non-negative quantity in tenths, rounded: what one decimal place
    shows. *)
Definition tenths (q : Q) : Z := roundHalfUp (q * inject_Z 10).

(** A string of decimal digits, and the number it writes after the
    digits already read. *)
Fixpoint all_digits (s : string) : bool :=
  match s with
  | String c r =>
      match digit_of c with Some _ => all_digits r | None => false end
  | EmptyString => true
  end.

Fixpoint dval (s : string) (acc : N) : N :=
  match s with
  | String c r =>
      match digit_of c with Some d => dval r (acc * 10 + d) | None => acc end
  | EmptyString => acc
  end.

(** A string that does not go on with a digit. *)
Definition stops (r : string) : Prop :=
  match r with
  | String c _ => digit_of c = None
  | EmptyString => True
  end.

(** Ascending order on values that are numbers: the second is not below
    the first. *)
Definition ascending (a b : val) : Prop := lt (ToNumber b) (ToNumber a) = false.

(** Exact sums, for the least-squares line. *)
Definition Qsum (l : list Q) : Q := fold_right Qplus 0 l.

(** The rational that a finite number is. *)
Definition qof (x : num) : Q :=
  match x with Fin q => q | _ => 0 end.

(** [n * sum of squares - square of the sum]: the denominator of the
    slope, and the sum of the squared distances to one number. *)
Definition spread (xs : list Q) : Q :=
  inject_Z (Z.of_nat (List.length xs)) * Qsum (map (fun x => x * x) xs)
  - Qsum xs * Qsum xs.

Definition deviation (x : Q) (xs : list Q) : Q :=
  Qsum (map (fun y => (y - x) * (y - x)) xs).

(** A yearly mean that is finite and lies on the line [alpha + c * year]. *)
Definition onLine (alpha c : Q) (d : YearMean) : Prop :=
  exists x m, ym_year d = Fin x /\ ym_mean d = Fin m /\ m == alpha + c * x.

(** The sample that an offset of the window stands for, as the
    specification words it. *)
Definition windowSample (y offset : Z) : Z * Z :=
  if (offset <? 1)%Z then (y - 1, 365 + offset)%Z
  else if (365 <? offset)%Z then (y + 1, offset - 365)%Z
  else (y, offset).

(** The year and the day of a generated sample. *)
Definition yearAndDay (s : Sample) : val * val := (year s, dayOfYear s).

(** The year and the day that the specification expects for an offset. *)
Definition expected (p : Z * Z) : val * val :=
  let (y, d) := windowSample (fst p) (snd p) in (Num (ofZ y), Num (ofZ d)).

(** The value at a fractional position [x] of an array, by linear
    interpolation between the elements at the two neighbouring integer
    positions. *)
Definition interpolate (ss : list Q) (x : Q) : Q :=
  nth (Z.to_nat (Qfloor x)) ss 0 * (1 - (x - inject_Z (Qfloor x)))
  + nth (Z.to_nat (Qceiling x)) ss 0 * (x - inject_Z (Qfloor x)).

(** The position of the [p]-th percentile in an array of [n] elements. *)
Definition position (p : Q) (n : nat) : Q :=
  p / 100 * inject_Z (Z.of_nat n - 1).

(** The values of the samples whose year key is [k], in their order. *)
Definition valuesOfYear (H : Host) (k : string) (pts : list Sample) : list val :=
  map value (filter (fun p => String.eqb (yearKey H p) k) pts).

(** A number rounded to [f] decimal places, a tie away from zero: the
    number that the text of [toFixed(f)] denotes. *)
Definition roundTo (f : nat) (q : Q) : Q :=
  (if Qltb q 0 then - (1) else 1)
  * (inject_Z (roundHalfUp (Qabs q * inject_Z (10 ^ Z.of_nat f)))
     / inject_Z (10 ^ Z.of_nat f)).

(** A host as an engine provides it: [Math.random()] returns a number in
    [0, 1), [Math.sin] of a finite number lies in [-1, 1] and [Math.PI] is
    finite. *)
Definition conforming (H : Host) : Prop :=
  (forall n, exists r, Math_random H n = Fin r /\ 0 <= r /\ r < 1)
  /\ (forall q, exists s, Math_sin H (Fin q) = Fin s /\ - (1) <= s /\ s <= 1)
  /\ exists pi, Math_PI H = Fin pi.

(** The interval that the mock values of a variable fall in. *)
Definition mockRange (variable : string) : Q * Q :=
  if String.eqb variable "temperature" then (- (27815 # 100), - (23815 # 100))
  else if String.eqb variable "precipitation" then (0, 50)
  else if String.eqb variable "windspeed" then (0, 10)
  else if String.eqb variable "humidity" then (40, 90)
  else if String.eqb variable "dust" then (0, 1 # 2)
  else (0, 100).

(** The variables that the validation of a request accepts
    ([middleware/validator.js]). *)
Definition supported (variable : string) : Prop :=
  In variable ["temperature"; "precipitation"; "windspeed"; "humidity"; "dust"].

(** A request body that passed validation, as far as the services read
    it: a supported variable, a day of the year from 1 to 366, a window of
    0 to 30 days and years from 1980 to 2023. *)
Definition validated (params : Params) : Prop :=
  supported (p_variable params)
  /\ (1 <= p_dayOfYear params <= 366)%Z
  /\ (0 <= p_window params <= 30)%Z
  /\ (1980 <= DataFetcher.start (p_yearRange params) <= 2023)%Z
  /\ (1980 <= DataFetcher.end_ (p_yearRange params) <= 2023)%Z.

(** A call on the cache service, the state after a call, and the number
    of lookups and of stores in a sequence of calls. *)
Inductive call (V : Type) : Type :=
| CGet (key : string)
| CSet (key : string) (value : V) (ttl : val)
| CDelete (key : string)
| CFlush.

Arguments CGet {V} key.
Arguments CSet {V} key value ttl.
Arguments CDelete {V} key.
Arguments CFlush {V}.

Definition perform {V store libraryStats : Type}
  (nc : CacheService.NodeCache V store libraryStats)
  (st : CacheService.State store) (c : call V) : CacheService.State store :=
  match c with
  | CGet key => fst (CacheService.get nc st key)
  | CSet key value ttl => fst (CacheService.set nc st key value ttl)
  | CDelete key => fst (CacheService.delete nc st key)
  | CFlush => CacheService.flush nc st
  end.

Definition lookups {V : Type} (cs : list (call V)) : nat :=
  List.length (filter (fun c => match c with CGet _ => true | _ => false end) cs).

Definition stores {V : Type} (cs : list (call V)) : nat :=
  List.length (filter (fun c => match c with CSet _ _ _ => true | _ => false end) cs).

(** A store for the examples: the pairs of keys and values, the last one
    set first, with no expiry. *)
Definition exampleCache (V : Type)
  : CacheService.NodeCache V (object V) nat :=
  {| CacheService.nc_get := fun s k => get s k;
     CacheService.nc_set := fun s k v _ => (set s k v, true);
     CacheService.nc_del := fun s k =>
       (filter (fun kv => negb (String.eqb (fst kv) k)) s,
        match get s k with Some _ => Fin 1 | None => Fin 0 end);
     CacheService.nc_flushAll := fun _ => [];
     CacheService.nc_keys := fun s => map fst s;
     CacheService.nc_getStats := fun s => List.length s |}.

Definition emptyCache (V : Type) : CacheService.State (object V) :=
  {| CacheService.cache := []; CacheService.hits := 0;
     CacheService.misses := 0; CacheService.sets := 0 |}.

(** A request and a moment for the examples. *)
Definition exampleParams (first last : Z) (threshold : val) : Params :=
  {| p_lat := Fin 10; p_lon := Fin 20; p_variable := "humidity";
     p_dayOfYear := 1; p_window := 0;
     p_yearRange := {| DataFetcher.start := first; DataFetcher.end_ := last |};
     p_threshold := threshold; p_locationName := None |}.

Definition exampleMoment : WeatherController.Moment :=
  {| WeatherController.queryDate := "2024-01-01T00:00:00.000Z";
     WeatherController.timestamp := 1704067200000 |}.

(** The state of the cache service after a lookup that missed, and
    after one that hit. *)
Definition missed {store : Type} (st : CacheService.State store)
  : CacheService.State store :=
  {| CacheService.cache := CacheService.cache st;
     CacheService.hits := CacheService.hits st;
     CacheService.misses := S (CacheService.misses st);
     CacheService.sets := CacheService.sets st |}.

Definition hit {store : Type} (st : CacheService.State store)
  : CacheService.State store :=
  {| CacheService.cache := CacheService.cache st;
     CacheService.hits := S (CacheService.hits st);
     CacheService.misses := CacheService.misses st;
     CacheService.sets := CacheService.sets st |}.

(** Two requests that differ at most in the threshold and in the name of
    the location. *)
Definition sameSeries (p q : Params) : Prop :=
  p_lat p = p_lat q /\ p_lon p = p_lon q /\ p_variable p = p_variable q
  /\ p_dayOfYear p = p_dayOfYear q /\ p_window p = p_window q
  /\ p_yearRange p = p_yearRange q.

(** A sample with a year and a value, for the examples. *)
Definition sampleOf (y : Z) (v : val) : Sample :=
  {| date := ""; value := v; year := Num (ofZ y); dayOfYear := Num (Fin 1) |}.

(** A host for the closed examples.  Its functions are placeholders: no
    statement below depends on what they return. *)
Definition exampleEnv : Node.Env :=
  {| Node.USE_MOCK_DATA := Some "false";
     Node.NODE_ENV := None;
     Node.inherited := fun _ => false;
     Node.stack := fun _ => "" |}.

Definition exampleHost : Host :=
  {| Math_sqrt := fun x => x;
     Math_sin := fun _ => Fin 0;
     Math_PI := Fin (355 # 113);
     Math_random := fun _ => Fin (1 # 2);
     Number_toString := fun _ => "";
     Date_isoDay := fun _ _ => "" |}.

(* ================================================================== *)
(** * Part II.  Properties                                              *)
(* ================================================================== *)

(** ** Arithmetic of the number model *)

Lemma Qred_zero (q : Q) : q == 0 -> Qred q = 0.
Proof.
  intro E. now rewrite (Qred_complete _ _ E).
Qed.

Lemma lt_irrefl (x : num) : lt x x = false.
Proof.
  destruct x as [| | |q]; simpl; trivial.
  now rewrite (proj1 (Qeq_alt q q) (Qeq_refl q)).
Qed.

Lemma sub_self_fin (q : Q) : sub (Fin q) (Fin q) = Fin 0.
Proof.
  unfold sub, neg, add, fin. apply f_equal, Qred_zero.
  rewrite Qred_correct. ring.
Qed.

Lemma div_zero_zero : div (Fin 0) (Fin 0) = NaN.
Proof. reflexivity. Qed.

Lemma div_zero_ofNat (n : nat) :
  div (Fin 0) (ofNat n) = match n with O => NaN | S _ => Fin 0 end.
Proof.
  destruct n as [|n]; [reflexivity|].
  unfold div, ofNat, ofZ.
  assert (N0 : Qeq_bool (inject_Z (Z.of_nat (S n))) 0 = false).
  { destruct (Qeq_bool _ _) eqn:E; [|reflexivity].
    apply Qeq_bool_eq in E. unfold Qeq in E. simpl in E. lia. }
  rewrite N0. unfold fin. apply f_equal, Qred_zero.
  unfold Qdiv. ring.
Qed.

(** ** The histogram of identical values *)

Lemma min2_fin_self (q : Q) : min2 (Fin q) (Fin q) = Fin q.
Proof. unfold min2. now rewrite lt_irrefl. Qed.

Lemma max2_fin_self (q : Q) : max2 (Fin q) (Fin q) = Fin q.
Proof. unfold max2. now rewrite lt_irrefl. Qed.

Lemma Math_min_repeat (q : Q) (n : nat) :
  Math_min (repeat (Num (Fin q)) (S n)) = Fin q.
Proof.
  unfold Math_min. cbn [repeat fold_left ToNumber].
  change (min2 PInf (Fin q)) with (Fin q).
  induction n as [|n IH]; cbn [repeat fold_left ToNumber]; [reflexivity|].
  now rewrite min2_fin_self.
Qed.

Lemma Math_max_repeat (q : Q) (n : nat) :
  Math_max (repeat (Num (Fin q)) (S n)) = Fin q.
Proof.
  unfold Math_max. cbn [repeat fold_left ToNumber].
  change (max2 NInf (Fin q)) with (Fin q).
  induction n as [|n IH]; cbn [repeat fold_left ToNumber]; [reflexivity|].
  now rewrite max2_fin_self.
Qed.

Lemma binIndexOf_degenerate (q : Q) (numBins : nat) :
  binIndexOf (Fin q) (div (Fin 0) (ofNat numBins)) numBins (Num (Fin q)) = NaN.
Proof.
  unfold binIndexOf. simpl ToNumber. rewrite sub_self_fin, div_zero_ofNat.
  destruct numBins; reflexivity.
Qed.

Lemma fold_increment_NaN (f : val -> num) (vs : list val) (cs : list val) :
  (forall v, In v vs -> f v = NaN) ->
  fold_left (fun counts v => increment counts (f v)) vs cs = cs.
Proof.
  induction vs as [|v vs IH]; intro Hf; simpl; [reflexivity|].
  rewrite (Hf v (or_introl eq_refl)). simpl. apply IH.
  intros w Hw. apply Hf. now right.
Qed.

Lemma createHistogram_degenerate (H : Host) (q : Q) (n numBins : nat) :
  counts (createHistogram H (repeat (Num (Fin q)) (S n)) numBins)
  = repeat (Num (Fin 0)) numBins.
Proof.
  unfold createHistogram.
  change (repeat (Num (Fin q)) (S n))
    with (Num (Fin q) :: repeat (Num (Fin q)) n) at 1.
  cbv beta iota. unfold counts.
  rewrite Math_min_repeat, Math_max_repeat, sub_self_fin.
  apply fold_increment_NaN.
  intros v Hv. apply repeat_spec in Hv. subst v.
  apply binIndexOf_degenerate.
Qed.

(** C1 (the code departs from the claim).  When all values are identical
    the bin width is 0 and the bin index of every value is
    [Math.floor(0 / 0)]: no fault is raised, but the index is [NaN], which
    passes both clamps unchanged, and [counts[NaN]++] touches no element of
    the array.  All 20 counters are still 0 when the histogram is returned:
    bin 0 does not hold the values, and no bin is populated. *)
Theorem createHistogram_identical_values_lost :
  forall (H : Host) (q : Q) (n : nat),
    let h := createHistogram H (repeat (Num (Fin q)) (S n)) 20 in
    counts h = repeat (Num (Fin 0)) 20 /\
    nth 0 (counts h) Undefined <> Num (ofNat (S n)).
Proof.
  intros H q n h. subst h. rewrite createHistogram_degenerate. split.
  - reflexivity.
  - cbn [repeat nth]. unfold ofNat, ofZ. intro E.
    injection E as E. lia.
Qed.

Lemma finiteCount_repeat (q : Q) (n : nat) :
  finiteCount (repeat (Num (Fin q)) n) = n.
Proof.
  unfold finiteCount. induction n as [|n IH]; simpl; [reflexivity|].
  now rewrite IH.
Qed.

(** C2 (the code departs from the claim, by the defect of C1).  For
    identical values, [5, 5, 5, 5] among them, the counts of the histogram
    sum to 0, whereas the number of finite values is the number of values. *)
Theorem createHistogram_counts_sum_degenerate :
  forall (H : Host) (q : Q) (n : nat),
    let V := repeat (Num (Fin q)) (S n) in
    sumCounts (counts (createHistogram H V 20)) = Fin 0 /\
    finiteCount V = S n.
Proof.
  intros H q n V. subst V. rewrite createHistogram_degenerate. split.
  - reflexivity.
  - apply finiteCount_repeat.
Qed.

(** The test case of the specification, [V = [5, 5, 5, 5]]. *)
Example createHistogram_5555 :
  counts (createHistogram exampleHost
            [Num (Fin 5); Num (Fin 5); Num (Fin 5); Num (Fin 5)] 20)
  = repeat (Num (Fin 0)) 20.
Proof. reflexivity. Qed.

(** ** No valid value *)

Lemma computeStats_noData (H : Host) (pts : list Sample) (threshold : val) :
  validValues pts = [] -> computeStats H pts threshold = noData.
Proof.
  unfold validValues, computeStats. now intros ->.
Qed.

(** C3 (the code departs from the claim).  When no sample has a valid
    value, [computeStats] returns the object [{error, count: 0}], with no
    numeric field; [generateSummary] applied to it takes the branch without
    exceedance, reads [stats.mean], which is [undefined], and throws a
    [TypeError] on [toFixed] instead of returning a sentence. *)
Theorem generateSummary_no_data_throws :
  forall (H : Host) (pts : list Sample) (threshold : val)
         (variable : string) (t : val),
    validValues pts = [] ->
    let stats := computeStats H pts threshold in
    s_count stats = 0%nat /\
    s_mean stats = Undefined /\ s_median stats = Undefined /\
    s_std stats = Undefined /\ s_min stats = Undefined /\
    s_max stats = Undefined /\ s_percentiles stats = None /\
    s_exceedance stats = None /\ s_distribution stats = None /\
    generateSummary H stats variable t
    = Throw (TypeError "Cannot read properties of undefined (reading 'toFixed')").
Proof.
  intros H pts threshold variable t E stats. subst stats.
  rewrite (computeStats_noData H pts threshold E).
  repeat split; reflexivity.
Qed.

Lemma generateSummary_no_data_throws_witness :
  validValues [sampleOf 2000 Null; sampleOf 2001 Undefined; sampleOf 2001 (Num NaN)] = []
  /\ generateSummary exampleHost
       (computeStats exampleHost
          [sampleOf 2000 Null; sampleOf 2001 Undefined; sampleOf 2001 (Num NaN)]
          (Num (Fin 30)))
       "temperature" (Num (Fin 30))
     = Throw (TypeError "Cannot read properties of undefined (reading 'toFixed')").
Proof.
  split; [reflexivity|].
  apply (generateSummary_no_data_throws exampleHost
           [sampleOf 2000 Null; sampleOf 2001 Undefined; sampleOf 2001 (Num NaN)]
           (Num (Fin 30)) "temperature" (Num (Fin 30)) eq_refl).
Defined.

(** ** Yearly means *)

(** C4 (the code departs from the claim).  [analyzeTrend] pushes the value
    of every sample on the array of its year and averages the whole array:
    a [null] value is averaged in as 0 and counted, and an [undefined] value
    turns the mean of its year into [NaN].  For the year 2000 with the
    values 10 and [null] the mean is 5 with count 2, not 10 with count 1. *)
Theorem analyzeTrend_averages_missing_values :
  forall (H : Host),
    yearlyMeans (analyzeTrend H [sampleOf 2000 (Num (Fin 10)); sampleOf 2000 Null])
    = [{| ym_year := Fin 2000; ym_mean := Fin 5; ym_count := 2 |}]
    /\
    yearlyMeans (analyzeTrend H [sampleOf 2000 (Num (Fin 10)); sampleOf 2000 Undefined])
    = [{| ym_year := Fin 2000; ym_mean := NaN; ym_count := 2 |}].
Proof.
  intro H. split; reflexivity.
Qed.

(** ** The empty sample sequence *)

(** C10.  On the empty sequence [assessDataQuality] returns total 0, valid
    0, missing 0, no warning and the tier 'poor': the missing percentage is
    [0 / 0 * 100], which is [NaN] and is rendered "NaN"; read back as a
    number it is below neither 10 nor 30 and not above 30. *)
Theorem assessDataQuality_empty :
  forall (H : Host),
    assessDataQuality H []
    = {| total := 0; valid := 0; missing := 0; missingPercent := "NaN";
         quality := "poor"; warning := None |}
    /\ mul (div (ofZ 0) (ofNat 0)) (Fin 100) = NaN
    /\ lt (StringToNumber "NaN") (Fin 10) = false
    /\ lt (StringToNumber "NaN") (Fin 30) = false
    /\ gt (StringToNumber "NaN") (Fin 30) = false.
Proof.
  intro H. repeat split; reflexivity.
Qed.

(** ** The 50th percentile and the median *)

Lemma Qfloor_Qred (q : Q) : Qfloor (Qred q) = Qfloor q.
Proof. apply Qfloor_comp, Qred_correct. Qed.

Lemma Qceiling_Qred (q : Q) : Qceiling (Qred q) = Qceiling q.
Proof. apply Qceiling_comp, Qred_correct. Qed.

Lemma Qfloor_half (z : Z) : Qfloor ((1 # 2) * inject_Z z) = (z / 2)%Z.
Proof.
  unfold Qfloor, Qmult, inject_Z. cbn [Qnum Qden].
  now rewrite Z.mul_1_l.
Qed.

Lemma Qceiling_half (z : Z) : Qceiling ((1 # 2) * inject_Z z) = (- (- z / 2))%Z.
Proof.
  unfold Qceiling, Qfloor, Qopp, Qmult, inject_Z. cbn [Qnum Qden].
  now rewrite Z.mul_1_l.
Qed.

(** The fractional index of the 50th percentile among [z + 1] values. *)
Lemma index_50 (z : Z) :
  mul (div (Fin 50) (Fin 100)) (ofZ z) = fin ((1 # 2) * inject_Z z).
Proof. reflexivity. Qed.

Lemma eqb_ofZ (a b : Z) : eqb (ofZ a) (ofZ b) = (a =? b)%Z.
Proof.
  unfold eqb, ofZ, Qeq_bool, inject_Z. cbn [Qnum Qden].
  now rewrite !Z.mul_1_r.
Qed.

Lemma weight_half (k : Z) :
  sub (fin ((1 # 2) * inject_Z (2 * k + 1))) (ofZ k) = Fin (1 # 2).
Proof.
  unfold sub, neg, add, ofZ, fin.
  apply f_equal. change (1 # 2) with (Qred (1 # 2)) at 2.
  apply Qred_complete. rewrite !Qred_correct.
  unfold Qeq, Qplus, Qmult, Qopp, inject_Z. cbn [Qnum Qden]. lia.
Qed.

(** Interpolating half-way between two numbers is averaging them, on all
    numbers of the model. *)
Lemma interpolate_half (a b : num) :
  add (mul a (Fin (1 # 2))) (mul b (Fin (1 # 2))) = div (add a b) (Fin 2).
Proof.
  destruct a as [| | |p], b as [| | |q]; try reflexivity.
  unfold add, mul, div, fin. change (Qeq_bool 2 0) with false. cbv iota.
  apply f_equal, Qred_complete. rewrite !Qred_correct. field.
Qed.



Example median_1248 :
  median [Num (Fin 1); Num (Fin 2); Num (Fin 4); Num (Fin 8)] = Num (Fin 3).
Proof. reflexivity. Qed.

(** ** The window of the assembler *)

Lemma range_spec (lo hi z : Z) : In z (range lo hi) <-> (lo <= z <= hi)%Z.
Proof.
  unfold range. rewrite in_map_iff. split.
  - intros [k [<- Hk]]. apply in_seq in Hk. lia.
  - intros Hz. exists (Z.to_nat (z - lo)). split; [lia|].
    apply in_seq. lia.
Qed.

Lemma range_NoDup (lo hi : Z) : NoDup (range lo hi).
Proof.
  unfold range. apply NoDup_map_NoDup_ForallPairs.
  - intros a b _ _ E. lia.
  - apply seq_NoDup.
Qed.

Lemma list_prod_NoDup {A B : Type} (l1 : list A) (l2 : list B) :
  NoDup l1 -> NoDup l2 -> NoDup (list_prod l1 l2).
Proof.
  intros N1 N2. induction N1 as [|x l1 Hx N1 IH]; cbn [list_prod].
  - constructor.
  - apply NoDup_app.
    + apply NoDup_map_NoDup_ForallPairs; [|exact N2].
      intros a b _ _ E. now injection E.
    + exact IH.
    + intros [a b] Ha Hb. apply in_map_iff in Ha as [b' [E _]].
      injection E as <- _. apply in_prod_iff in Hb as [Hb _]. contradiction.
Qed.

Lemma wrapDay_windowSample (y o : Z) :
  DataFetcher.wrapDay y o = (snd (windowSample y o), fst (windowSample y o)).
Proof.
  unfold DataFetcher.wrapDay, windowSample.
  destruct (o <? 1)%Z; [reflexivity|].
  rewrite Z.gtb_ltb. now destruct (365 <? o)%Z.
Qed.

Lemma step_yearAndDay (H : Host) (variable : string) (y : Z)
  (st : DataFetcher.State) (o : Z) :
  map yearAndDay (DataFetcher.data (DataFetcher.step H variable y st o))
  = (map yearAndDay (DataFetcher.data st) ++ [expected (y, o)])%list.
Proof.
  unfold DataFetcher.step, expected. rewrite wrapDay_windowSample.
  cbn [fst snd].
  destruct (windowSample y o) as [y' d']. cbn [fst snd].
  destruct (DataFetcher.mockValue H variable d' (DataFetcher.draws st)) as [v k].
  cbn [DataFetcher.data]. now rewrite map_app.
Qed.

Lemma inner_loop_yearAndDay (H : Host) (variable : string) (y : Z)
  (os : list Z) (st : DataFetcher.State) :
  map yearAndDay
      (DataFetcher.data (fold_left (DataFetcher.step H variable y) os st))
  = (map yearAndDay (DataFetcher.data st)
     ++ map (fun o => expected (y, o)) os)%list.
Proof.
  revert st. induction os as [|o os IH]; intro st; cbn [fold_left map].
  - now rewrite app_nil_r.
  - rewrite IH, step_yearAndDay, <- app_assoc. reflexivity.
Qed.

Lemma outer_loop_yearAndDay (H : Host) (variable : string)
  (ys os : list Z) (st : DataFetcher.State) :
  map yearAndDay
      (DataFetcher.data
         (fold_left (fun st y => fold_left (DataFetcher.step H variable y) os st)
                    ys st))
  = (map yearAndDay (DataFetcher.data st)
     ++ map expected (list_prod ys os))%list.
Proof.
  revert st. induction ys as [|y ys IH]; intro st; cbn [fold_left list_prod].
  - now rewrite app_nil_r.
  - rewrite IH, inner_loop_yearAndDay, map_app, map_map, <- app_assoc.
    reflexivity.
Qed.

Lemma expected_day1_window3 (ys : list Z) :
  map expected (list_prod ys (range (1 - 3) (1 + 3)))
  = flat_map
      (fun y =>
         [ (Num (ofZ (y - 1)), Num (ofZ 363));
           (Num (ofZ (y - 1)), Num (ofZ 364));
           (Num (ofZ (y - 1)), Num (ofZ 365));
           (Num (ofZ y), Num (ofZ 1));
           (Num (ofZ y), Num (ofZ 2));
           (Num (ofZ y), Num (ofZ 3));
           (Num (ofZ y), Num (ofZ 4)) ])
      ys.
Proof.
  change (range (1 - 3) (1 + 3)) with [-2; -1; 0; 1; 2; 3; 4]%Z.
  induction ys as [|y ys IH]; [reflexivity|].
  cbn [list_prod flat_map map app]. rewrite IH. reflexivity.
Qed.

(** C8.  The samples of [generateMockData] are, in order, one for each
    pair of a year of the inclusive year range and an offset of the
    inclusive interval [[targetDay - windowDays, targetDay + windowDays]],
    each pair occurring once; the sample of a pair carries day
    [365 + offset] of [year - 1] when [offset < 1], day [offset - 365] of
    [year + 1] when [offset > 365], and day [offset] of [year] otherwise.
    With [targetDay = 1] and [windowDays = 3] every year of the range
    contributes days 363, 364 and 365 of the year before and days 1 to 4
    of the year itself. *)
Theorem generateMockData_window :
  forall (H : Host) (lat lon : num) (variable : string)
         (targetDay windowDays : Z) (yearRange : DataFetcher.YearRange),
    let years := range (DataFetcher.start yearRange) (DataFetcher.end_ yearRange) in
    let offsets := range (targetDay - windowDays) (targetDay + windowDays) in
    (forall y o : Z,
        In (y, o) (list_prod years offsets) <->
        (DataFetcher.start yearRange <= y <= DataFetcher.end_ yearRange)%Z /\
        (targetDay - windowDays <= o <= targetDay + windowDays)%Z)
    /\ NoDup (list_prod years offsets)
    /\ map yearAndDay
           (DataFetcher.generateMockData H lat lon variable
              targetDay windowDays yearRange)
       = map expected (list_prod years offsets)
    /\ map yearAndDay
           (DataFetcher.generateMockData H lat lon variable 1 3 yearRange)
       = flat_map
           (fun y =>
              [ (Num (ofZ (y - 1)), Num (ofZ 363));
                (Num (ofZ (y - 1)), Num (ofZ 364));
                (Num (ofZ (y - 1)), Num (ofZ 365));
                (Num (ofZ y), Num (ofZ 1));
                (Num (ofZ y), Num (ofZ 2));
                (Num (ofZ y), Num (ofZ 3));
                (Num (ofZ y), Num (ofZ 4)) ])
           years.
Proof.
  intros H lat lon variable targetDay windowDays yearRange years offsets.
  split; [|split; [|split]].
  - intros y o. rewrite in_prod_iff. subst years offsets.
    now rewrite !range_spec.
  - apply list_prod_NoDup; apply range_NoDup.
  - unfold DataFetcher.generateMockData.
    now rewrite outer_loop_yearAndDay.
  - unfold DataFetcher.generateMockData.
    rewrite outer_loop_yearAndDay. cbn [DataFetcher.data map app].
    apply expected_day1_window3.
Qed.

(** One year, [targetDay = 1], [windowDays = 3]. *)
Example generateMockData_2000 :
  map yearAndDay
      (DataFetcher.generateMockData exampleHost (Fin 0) (Fin 0) "humidity" 1 3
         {| DataFetcher.start := 2000; DataFetcher.end_ := 2000 |})
  = [ (Num (Fin 1999), Num (Fin 363)); (Num (Fin 1999), Num (Fin 364));
      (Num (Fin 1999), Num (Fin 365)); (Num (Fin 2000), Num (Fin 1));
      (Num (Fin 2000), Num (Fin 2)); (Num (Fin 2000), Num (Fin 3));
      (Num (Fin 2000), Num (Fin 4)) ].
Proof. reflexivity. Qed.

(** ** Digits written and read back *)

Lemma append_nil_r (s : string) : s ++ "" = s.
Proof. induction s as [|c s IH]; simpl; [reflexivity | now rewrite IH]. Qed.

Lemma append_assoc (s1 s2 s3 : string) : (s1 ++ s2) ++ s3 = s1 ++ (s2 ++ s3).
Proof. induction s1 as [|c s IH]; simpl; [reflexivity | now rewrite IH]. Qed.

Lemma length_append (s1 s2 : string) :
  String.length (s1 ++ s2) = (String.length s1 + String.length s2)%nat.
Proof. induction s1 as [|c s IH]; simpl; [reflexivity | now rewrite IH]. Qed.

Lemma take_drop (n : nat) (s : string) : take n s ++ drop n s = s.
Proof.
  revert s. induction n as [|n IH]; intros [|c s]; simpl; try reflexivity.
  now rewrite IH.
Qed.

Lemma length_take (n : nat) (s : string) :
  (n <= String.length s)%nat -> String.length (take n s) = n.
Proof.
  revert s. induction n as [|n IH]; intros [|c s] Hn; simpl in *; try lia.
  rewrite IH; lia.
Qed.

Lemma all_digits_app (s1 s2 : string) :
  all_digits (s1 ++ s2) = all_digits s1 && all_digits s2.
Proof.
  induction s1 as [|c s IH]; simpl; [reflexivity|].
  now destruct (digit_of c).
Qed.

Lemma all_digits_zeros (k : nat) : all_digits (zeros k) = true.
Proof. induction k; simpl; trivial. Qed.

Lemma length_zeros (k : nat) : String.length (zeros k) = k.
Proof. induction k; simpl; congruence. Qed.

Lemma digit_of_digit_char (d : N) :
  (d < 10)%N -> digit_of (digit_char d) = Some d.
Proof.
  intro Hd.
  assert (C : (d = 0 \/ d = 1 \/ d = 2 \/ d = 3 \/ d = 4 \/ d = 5 \/ d = 6
               \/ d = 7 \/ d = 8 \/ d = 9)%N) by lia.
  repeat (destruct C as [-> | C]; [reflexivity|]). now subst d.
Qed.

Lemma digit_of_bound (c : ascii) (d : N) : digit_of c = Some d -> (d < 10)%N.
Proof.
  unfold digit_of.
  destruct ((48 <=? N_of_ascii c) && (N_of_ascii c <=? 57))%N eqn:E; [|discriminate].
  intro D. injection D as <-.
  apply andb_prop in E as [E1 E2].
  apply N.leb_le in E1, E2. lia.
Qed.

(** What the first character of a number can be mistaken for. *)
Lemma digit_is_plain (c : ascii) (d : N) :
  digit_of c = Some d ->
  is_ws c = false /\ Ascii.eqb c "-" = false /\ Ascii.eqb c "+" = false
  /\ Ascii.eqb "I" c = false.
Proof.
  destruct c as [[|] [|] [|] [|] [|] [|] [|] [|]]; intro D;
    try discriminate D; repeat split; reflexivity.
Qed.

Lemma dval_app (s1 s2 : string) (acc : N) :
  all_digits s1 = true -> dval (s1 ++ s2) acc = dval s2 (dval s1 acc).
Proof.
  revert acc. induction s1 as [|c s IH]; intros acc D; simpl in *; [reflexivity|].
  destruct (digit_of c); [now apply IH | discriminate].
Qed.

Lemma dval_shift (s : string) (acc : N) :
  all_digits s = true ->
  dval s acc = (acc * 10 ^ N.of_nat (String.length s) + dval s 0)%N.
Proof.
  revert acc. induction s as [|c s IH]; intros acc D; simpl in D.
  - simpl. lia.
  - destruct (digit_of c) as [d|] eqn:E; [|discriminate].
    cbn [dval String.length]. rewrite E.
    rewrite (IH (acc * 10 + d)%N D), (IH (0 * 10 + d)%N D).
    rewrite Nat2N.inj_succ, N.pow_succ_r'. lia.
Qed.

Lemma dval_zeros (k : nat) (s : string) : dval (zeros k ++ s) 0 = dval s 0.
Proof.
  induction k as [|k IH]; simpl; [reflexivity | exact IH].
Qed.

Lemma scan_digits_app (s r : string) (acc : N) (cnt : nat) :
  all_digits s = true -> stops r ->
  scan_digits (s ++ r) acc cnt = (dval s acc, (cnt + String.length s)%nat, r).
Proof.
  revert acc cnt. induction s as [|c s IH]; intros acc cnt D R; simpl in *.
  - rewrite Nat.add_0_r. destruct r as [|c r]; [reflexivity|].
    unfold stops in R. cbn [scan_digits]. now rewrite R.
  - destruct (digit_of c); [|discriminate].
    rewrite (IH _ _ D R). f_equal. f_equal. lia.
Qed.

Lemma digits_aux_S (fuel : nat) (n : N) (acc : string) :
  digits_aux (S fuel) n acc
  = if (n / 10 =? 0)%N then String (digit_char (n mod 10)) acc
    else digits_aux fuel (n / 10) (String (digit_char (n mod 10)) acc).
Proof. reflexivity. Qed.

Lemma digits_aux_spec (fuel : nat) (n : N) (acc : string) :
  (n < 2 ^ N.of_nat (S fuel))%N ->
  exists s, digits_aux (S fuel) n acc = s ++ acc
            /\ all_digits s = true /\ dval s 0 = n /\ s <> "".
Proof.
  revert n acc. induction fuel as [|fuel IH]; intros n acc Hn.
  - assert (Z0 : (n / 10 = 0)%N) by (apply N.div_small; simpl in Hn; lia).
    rewrite digits_aux_S, Z0. cbn [N.eqb].
    exists (String (digit_char (n mod 10)) ""). simpl.
    assert (M : (n mod 10 = n)%N) by (apply N.mod_small; simpl in Hn; lia).
    rewrite M, digit_of_digit_char by (simpl in Hn; lia).
    repeat split; try lia; discriminate.
  - rewrite digits_aux_S.
    assert (B : (n mod 10 < 10)%N) by (apply N.mod_lt; lia).
    destruct (n / 10 =? 0)%N eqn:E.
    + apply N.eqb_eq in E.
      exists (String (digit_char (n mod 10)) ""). simpl.
      rewrite digit_of_digit_char by exact B.
      repeat split; try discriminate.
      rewrite (N.div_mod n 10) at 2 by lia. lia.
    + assert (Hq : (n / 10 < 2 ^ N.of_nat (S fuel))%N).
      { rewrite Nat2N.inj_succ, N.pow_succ_r' in Hn.
        apply N.Div0.div_lt_upper_bound. lia. }
      destruct (IH (n / 10)%N (String (digit_char (n mod 10)) acc) Hq)
        as [s [E1 [D [V NE]]]].
      exists (s ++ String (digit_char (n mod 10)) "").
      rewrite E1, append_assoc. simpl. repeat split.
      * rewrite all_digits_app, D. simpl.
        now rewrite digit_of_digit_char by exact B.
      * rewrite dval_app by exact D. simpl.
        rewrite digit_of_digit_char by exact B. rewrite V.
        rewrite (N.div_mod n 10) at 3 by lia. lia.
      * destruct s; [contradiction | discriminate].
Qed.

Lemma decimal_spec (n : N) :
  all_digits (decimal n) = true /\ dval (decimal n) 0 = n /\ decimal n <> "".
Proof.
  unfold decimal.
  destruct (digits_aux_spec (N.to_nat (N.log2 n)) n "") as [s [E [D [V NE]]]].
  - rewrite Nat2N.inj_succ, N2Nat.id.
    destruct n as [|p]; [reflexivity|].
    apply N.log2_spec. lia.
  - rewrite E, append_nil_r. auto.
Qed.

(** Reading a number written as digits, a point and digits. *)
Lemma StringToNumber_point (a b : string) :
  all_digits a = true -> all_digits b = true -> a <> "" ->
  StringToNumber (a ++ "." ++ b)
  = fin (inject_Z (Z.of_N (dval (a ++ b) 0))
         / inject_Z (10 ^ Z.of_nat (String.length b)) * Qpow10 0).
Proof.
  intros Da Db NE.
  destruct a as [|c a']; [contradiction|]. clear NE.
  assert (Dc : exists d, digit_of c = Some d).
  { simpl in Da. destruct (digit_of c) as [d|]; [now exists d | discriminate]. }
  destruct Dc as [d Dc].
  destruct (digit_is_plain c d Dc) as [W [M [P I]]].
  assert (S1 : scan_digits (String c a' ++ "." ++ b) 0 0
               = (dval (String c a') 0, (0 + String.length (String c a'))%nat,
                  "." ++ b)).
  { apply scan_digits_app; [exact Da | reflexivity]. }
  assert (S2 : scan_digits b 0 0 = (dval b 0, (0 + String.length b)%nat, "")).
  { rewrite <- (append_nil_r b) at 1. apply scan_digits_app; [exact Db | exact Logic.I]. }
  unfold StringToNumber.
  change (skip_ws (String c a' ++ "." ++ b))
    with (if is_ws c then skip_ws (a' ++ "." ++ b) else String c a' ++ "." ++ b).
  rewrite W.
  change (String c a' ++ "." ++ b) with (String c (a' ++ "." ++ b)) at 1.
  cbv iota.
  unfold parse_signed.
  change (parse_sign (String c a' ++ "." ++ b))
    with (if Ascii.eqb c "-" then (true, a' ++ "." ++ b)
          else if Ascii.eqb c "+" then (false, a' ++ "." ++ b)
          else (false, String c a' ++ "." ++ b)).
  rewrite M, P. cbv iota beta.
  unfold parse_unsigned.
  change (drop_prefix "Infinity" (String c a' ++ "." ++ b))
    with (if Ascii.eqb "I" c then drop_prefix "nfinity" (a' ++ "." ++ b) else None).
  rewrite I. cbv iota. rewrite S1. cbv iota beta.
  change ("." ++ b) with (String "."%char b). cbv iota beta.
  change (Ascii.eqb "." ".") with true. cbv iota.
  rewrite S2. cbv iota beta.
  cbn [Nat.add String.length Nat.eqb andb].
  change (parse_exponent "") with (0%Z, ""). cbv iota beta.
  cbn [all_ws].
  now rewrite (dval_app (String c a') b 0 Da),
              (dval_shift b (dval (String c a') 0) Db).
Qed.

Lemma length_drop (n : nat) (s : string) :
  String.length (drop n s) = (String.length s - n)%nat.
Proof.
  revert s. induction n as [|n IH]; intros [|c s]; simpl; try reflexivity.
  apply IH.
Qed.

Lemma pad_spec (m0 : string) (f : nat) :
  all_digits m0 = true ->
  let m := if (String.length m0 <=? f)%nat
           then zeros (f + 1 - String.length m0) ++ m0 else m0 in
  all_digits m = true /\ dval m 0 = dval m0 0 /\ (f < String.length m)%nat.
Proof.
  intros D m. subst m. destruct (String.length m0 <=? f)%nat eqn:E.
  - apply Nat.leb_le in E.
    rewrite all_digits_app, all_digits_zeros, D, dval_zeros, length_append,
      length_zeros.
    repeat split. lia.
  - apply Nat.leb_gt in E. auto.
Qed.

Lemma Qltb_nonneg (q : Q) : 0 <= q -> Qltb q 0 = false.
Proof.
  intro P. unfold Qltb. destruct (Qcompare q 0) eqn:E; try reflexivity.
  apply Qlt_alt in E. exfalso. exact (Qlt_not_le _ _ E P).
Qed.

Lemma roundHalfUp_nonneg (q : Q) : 0 <= q -> (0 <= roundHalfUp q)%Z.
Proof.
  intro P. unfold roundHalfUp.
  change 0%Z with (Qfloor 0). apply Qfloor_resp_le.
  apply Qle_trans with q; [exact P|].
  rewrite <- (Qplus_0_r q) at 1. apply Qplus_le_r. discriminate.
Qed.

(** The digits that [toFixed] writes for a non-negative number below
    [1e21] and at least one decimal place. *)
Lemma toFixed_nonneg (H : Host) (q : Q) (f : nat) :
  0 <= q -> q < inject_Z (10 ^ 21) ->
  exists a b,
    toFixed H (Fin q) (S f) = a ++ "." ++ b
    /\ all_digits a = true /\ all_digits b = true /\ a <> ""
    /\ String.length b = S f
    /\ dval (a ++ b) 0
       = Z.to_N (roundHalfUp (q * inject_Z (10 ^ Z.of_nat (S f)))).
Proof.
  intros P B. unfold toFixed.
  rewrite (Qltb_nonneg q P).
  assert (A : Qabs q == q) by now apply Qabs_pos.
  assert (L : Qle_bool (inject_Z (10 ^ 21)) (Qabs q) = false).
  { destruct (Qle_bool _ _) eqn:E; [|reflexivity].
    apply Qle_bool_iff in E. rewrite A in E.
    exfalso. exact (Qlt_not_le _ _ B E). }
  rewrite L.
  assert (N : Qfloor (Qabs q * inject_Z (10 ^ Z.of_nat (S f)) + (1 # 2))
              = roundHalfUp (q * inject_Z (10 ^ Z.of_nat (S f)))).
  { unfold roundHalfUp. apply Qfloor_comp. now rewrite A. }
  rewrite N. clear N L.
  set (n := Z.to_N (roundHalfUp (q * inject_Z (10 ^ Z.of_nat (S f))))).
  destruct (decimal_spec n) as [D [V _]].
  destruct (pad_spec (decimal n) (S f) D) as [Dm [Vm Lm]].
  set (m := if (String.length (decimal n) <=? S f)%nat
            then zeros (S f + 1 - String.length (decimal n)) ++ decimal n
            else decimal n) in *.
  exists (take (String.length m - S f) m), (drop (String.length m - S f) m).
  assert (TD := take_drop (String.length m - S f) m).
  assert (Dab : all_digits (take (String.length m - S f) m) = true
                /\ all_digits (drop (String.length m - S f) m) = true).
  { apply andb_prop. now rewrite <- all_digits_app, TD. }
  destruct Dab as [Da Db].
  repeat split; trivial.
  - intro E.
    assert (Lt := length_take (String.length m - S f) m ltac:(lia)).
    rewrite E in Lt. simpl in Lt. lia.
  - rewrite length_drop. lia.
  - rewrite TD, Vm. exact V.
Qed.

Lemma fin_times_one (x : Q) : fin (x * Qpow10 0) = fin x.
Proof.
  unfold fin. apply f_equal, Qred_complete.
  change (Qpow10 0) with 1. ring.
Qed.

(** Read back as a number, the text that [toFixed] writes is the number
    rounded to the decimal places asked for. *)
Lemma StringToNumber_toFixed (H : Host) (q : Q) (f : nat) :
  0 <= q -> q < inject_Z (10 ^ 21) ->
  StringToNumber (toFixed H (Fin q) (S f))
  = fin (inject_Z (roundHalfUp (q * inject_Z (10 ^ Z.of_nat (S f))))
         / inject_Z (10 ^ Z.of_nat (S f))).
Proof.
  intros P B.
  destruct (toFixed_nonneg H q f P B) as [a [b [E [Da [Db [NE [Lb V]]]]]]].
  rewrite E, (StringToNumber_point a b Da Db NE), fin_times_one, V, Lb.
  rewrite Z2N.id; [reflexivity|].
  apply roundHalfUp_nonneg.
  apply Qmult_le_0_compat; [exact P|].
  change 0 with (inject_Z 0). rewrite <- Zle_Qle.
  apply Z.pow_nonneg. lia.
Qed.

(** ** Percentages *)

Lemma div_ofZ (k n : Z) :
  (0 < n)%Z -> div (ofZ k) (ofZ n) = fin (inject_Z k / inject_Z n).
Proof.
  intro Hn. unfold div, ofZ.
  destruct (Qeq_bool (inject_Z n) 0) eqn:E; [|reflexivity].
  apply Qeq_bool_eq in E. unfold Qeq in E. simpl in E. lia.
Qed.

Lemma ratio_bounds (k n : Z) :
  (0 <= k <= n)%Z -> (0 < n)%Z ->
  0 <= inject_Z (100 * k) / inject_Z n
  /\ inject_Z (100 * k) / inject_Z n <= inject_Z 100.
Proof.
  intros Hk Hn.
  assert (Pn : 0 < inject_Z n) by (change 0 with (inject_Z 0); now rewrite <- Zlt_Qlt).
  split.
  - apply Qle_shift_div_l; [exact Pn|].
    rewrite Qmult_0_l. change 0 with (inject_Z 0). rewrite <- Zle_Qle. lia.
  - apply Qle_shift_div_r; [exact Pn|].
    rewrite <- inject_Z_mult, <- Zle_Qle. nia.
Qed.

(** The percentage of [k] out of [n], rendered to one decimal place and
    read back, is the exact percentage rounded to tenths. *)
Lemma percent_text (H : Host) (k n : Z) :
  (0 <= k <= n)%Z -> (0 < n)%Z ->
  StringToNumber (toFixed H (mul (div (ofZ k) (ofZ n)) (Fin 100)) 1)
  = fin (inject_Z (tenths (inject_Z (100 * k) / inject_Z n)) / inject_Z 10).
Proof.
  intros Hk Hn. rewrite (div_ofZ k n Hn).
  destruct (ratio_bounds k n Hk Hn) as [P B].
  assert (E : Qred (Qred (inject_Z k / inject_Z n) * 100)
              == inject_Z (100 * k) / inject_Z n).
  { rewrite !Qred_correct, inject_Z_mult. unfold Qdiv.
    change (inject_Z 100) with 100. ring. }
  change (mul (fin (inject_Z k / inject_Z n)) (Fin 100))
    with (Fin (Qred (Qred (inject_Z k / inject_Z n) * 100))).
  rewrite StringToNumber_toFixed.
  - change (inject_Z (10 ^ Z.of_nat 1)) with (inject_Z 10).
    unfold tenths, roundHalfUp. do 3 f_equal. apply Qfloor_comp.
    now rewrite E.
  - now rewrite E.
  - rewrite E. apply Qle_lt_trans with (inject_Z 100); [exact B|].
    rewrite <- Zlt_Qlt. reflexivity.
Qed.

Lemma lt_tenths (r k : Z) :
  lt (fin (inject_Z r / inject_Z 10)) (Fin (inject_Z k)) = (r <? 10 * k)%Z.
Proof.
  unfold lt, fin.
  rewrite Qred_correct.
  unfold Qcompare, Qdiv, Qmult, Qinv, inject_Z. cbn [Qnum Qden Pos.mul].
  rewrite !Z.mul_1_r, (Z.mul_comm k). unfold Z.ltb.
  change (Z.pos 10) with 10%Z.
  now destruct (r ?= 10 * k)%Z.
Qed.

Lemma gt_tenths (r k : Z) :
  gt (fin (inject_Z r / inject_Z 10)) (Fin (inject_Z k)) = (10 * k <? r)%Z.
Proof.
  unfold gt, lt, fin.
  rewrite Qred_correct.
  unfold Qcompare, Qdiv, Qmult, Qinv, inject_Z. cbn [Qnum Qden Pos.mul].
  rewrite !Z.mul_1_r, (Z.mul_comm k). unfold Z.ltb.
  change (Z.pos 10) with 10%Z.
  now destruct (10 * k ?= r)%Z.
Qed.

(** ** Data quality *)

Lemma isValid_iff (v : val) :
  isValid v = true <-> exists x, v = Num x /\ x <> NaN.
Proof.
  split.
  - destruct v as [| |[| | |q]]; try discriminate; intros _;
      eexists; (split; [reflexivity | discriminate]).
  - intros [x [-> Hx]]. destruct x; [contradiction | reflexivity..].
Qed.

Lemma length_filter_map {A B : Type} (f : A -> B) (p : B -> bool) (l : list A) :
  List.length (filter (fun a => p (f a)) l) = List.length (filter p (map f l)).
Proof.
  induction l as [|a l IH]; simpl; [reflexivity|].
  destruct (p (f a)); simpl; now rewrite IH.
Qed.

Lemma length_filter_le {A : Type} (p : A -> bool) (l : list A) :
  (List.length (filter p l) <= List.length l)%nat.
Proof.
  induction l as [|a l IH]; simpl; [lia|].
  destruct (p a); simpl; lia.
Qed.




Example assessDataQuality_one_of_three :
  assessDataQuality exampleHost
    [sampleOf 2000 (Num (Fin 21)); sampleOf 2000 Null; sampleOf 2001 (Num PInf)]
  = {| total := 3; valid := 2; missing := 1; missingPercent := "33.3";
       quality := "poor";
       warning := Some "High percentage of missing data may affect reliability" |}.
Proof. reflexivity. Qed.

(** ** Exceedance *)

(** The exceedance record of [computeStats] for any threshold other than
    [null] and [undefined], when there is a valid value. *)
Lemma computeStats_exceedance (H : Host) (pts : list Sample) (t : num) :
  validValues pts <> [] ->
  s_exceedance (computeStats H pts (Num t))
  = Some {| ex_threshold := Num t;
            ex_probability :=
              div (ofNat (countAbove t (validValues pts)))
                  (ofNat (List.length (validValues pts)));
            ex_count := countAbove t (validValues pts);
            ex_percentage :=
              toFixed H
                (mul (div (ofNat (countAbove t (validValues pts)))
                          (ofNat (List.length (validValues pts))))
                     (Fin 100)) 1 |}.
Proof.
  intro NE. unfold computeStats. fold (validValues pts).
  destruct (validValues pts) as [|v vs]; [contradiction | reflexivity].
Qed.

Lemma computeStats_count (H : Host) (pts : list Sample) (t : val) :
  s_count (computeStats H pts t) = List.length (validValues pts).
Proof.
  unfold computeStats. fold (validValues pts).
  now destruct (validValues pts).
Qed.



(** C6, as stated, fails: with the threshold [NaN] the exceedance record
    is present. *)
Lemma computeStats_NaN_threshold_not_skipped :
  s_exceedance (computeStats exampleHost [sampleOf 2000 (Num (Fin 5))] (Num NaN))
  = Some {| ex_threshold := Num NaN; ex_probability := Fin 0;
            ex_count := 0; ex_percentage := "0.0" |}
  /\ s_exceedance (computeStats exampleHost [sampleOf 2000 (Num (Fin 5))] (Num NaN))
     <> None.
Proof.
  split; [reflexivity | discriminate].
Qed.

Lemma countAbove_NaN (vs : list val) : countAbove NaN vs = 0%nat.
Proof.
  unfold countAbove. induction vs as [|v vs IH]; [reflexivity|].
  cbn [filter]. unfold gt at 1, lt at 1. exact IH.
Qed.

Lemma countAbove_PInf (vs : list val) : countAbove PInf vs = 0%nat.
Proof.
  unfold countAbove. induction vs as [|v vs IH]; [reflexivity|].
  cbn [filter]. unfold gt at 1, lt at 1.
  now destruct (ToNumber v).
Qed.

(** C6 (amended).  The only guard on the exceedance computation is
    [threshold !== null].  With at least one valid value and a threshold
    that is a number but not a finite one, no fault is raised and the
    exceedance record is present, computed as for any other threshold;
    for [NaN] and for [+Infinity] no value exceeds the threshold, so the
    count is 0, the probability 0 and the percentage "0.0". *)
Theorem computeStats_exceedance_not_finite :
  forall (H : Host) (pts : list Sample) (t : num),
    is_finite t = false ->
    validValues pts <> [] ->
    exists e,
      s_exceedance (computeStats H pts (Num t)) = Some e
      /\ ex_threshold e = Num t
      /\ ex_count e = countAbove t (validValues pts)
      /\ (t <> NInf ->
          ex_count e = 0%nat /\ ex_probability e = Fin 0
          /\ ex_percentage e = "0.0").
Proof.
  intros H pts t NF NE.
  eexists. split; [apply computeStats_exceedance; exact NE|].
  cbn [ex_threshold ex_count ex_probability ex_percentage].
  split; [reflexivity|]. split; [reflexivity|].
  intro NN.
  assert (Z0 : countAbove t (validValues pts) = 0%nat).
  { destruct t as [| | |q]; [apply countAbove_NaN | apply countAbove_PInf
                            | contradiction | discriminate]. }
  rewrite Z0.
  assert (D : div (ofNat 0) (ofNat (List.length (validValues pts))) = Fin 0).
  { change (ofNat 0) with (Fin 0). rewrite div_zero_ofNat.
    destruct (validValues pts); [contradiction | reflexivity]. }
  rewrite D. repeat split.
Qed.

Lemma computeStats_exceedance_not_finite_witness :
  is_finite PInf = false
  /\ validValues [sampleOf 2000 (Num (Fin 5)); sampleOf 2001 (Num PInf)] <> []
  /\ exists e,
       s_exceedance
         (computeStats exampleHost
            [sampleOf 2000 (Num (Fin 5)); sampleOf 2001 (Num PInf)] (Num PInf))
       = Some e
       /\ ex_count e = 0%nat.
Proof.
  split; [reflexivity|]. split; [discriminate|].
  destruct (computeStats_exceedance_not_finite exampleHost
              [sampleOf 2000 (Num (Fin 5)); sampleOf 2001 (Num PInf)] PInf
              eq_refl ltac:(discriminate))
    as [e [E [_ [_ Z0]]]].
  exists e. split; [exact E|].
  apply Z0. discriminate.
Defined.

(** ** The histogram of values that are not all equal *)

Lemma Qred_inject_Z (z : Z) : Qred (inject_Z z) = inject_Z z.
Proof.
  unfold Qred, inject_Z.
  assert (G := Z.ggcd_gcd z 1). assert (C := Z.ggcd_correct_divisors z 1).
  destruct (Z.ggcd z 1) as [g [aa bb]]. cbn [fst snd] in *.
  destruct C as [C1 C2].
  assert (G1 : g = 1%Z) by (rewrite G; apply Z.gcd_1_r).
  rewrite G1, Z.mul_1_l in C1, C2. subst aa bb. reflexivity.
Qed.

Lemma add_ofZ (a b : Z) : add (ofZ a) (ofZ b) = ofZ (a + b).
Proof.
  unfold add, ofZ, fin. f_equal.
  rewrite <- (Qred_inject_Z (a + b)). apply Qred_complete.
  now rewrite inject_Z_plus.
Qed.

Lemma lt_ofZ (a b : Z) : lt (ofZ a) (ofZ b) = (a <? b)%Z.
Proof.
  unfold lt, ofZ, Qcompare, inject_Z. cbn [Qnum Qden].
  rewrite !Z.mul_1_r. unfold Z.ltb. now destruct (a ?= b)%Z.
Qed.

Lemma is_integer_inject_Z (z : Z) : is_integer (inject_Z z) = true.
Proof.
  unfold is_integer. rewrite Qfloor_Z. apply Qeq_bool_iff. reflexivity.
Qed.

Lemma fold_min_finite (qs : list Q) (a0 : Q) :
  exists a,
    fold_left (fun m v => min2 m (ToNumber v)) (map (fun q => Num (Fin q)) qs) (Fin a0)
    = Fin a.
Proof.
  revert a0. induction qs as [|q qs IH]; intro a0; cbn [map fold_left ToNumber].
  - now exists a0.
  - unfold min2 at 2. destruct (lt (Fin q) (Fin a0)); apply IH.
Qed.

Lemma fold_max_finite (qs : list Q) (b0 : Q) :
  exists b,
    fold_left (fun m v => max2 m (ToNumber v)) (map (fun q => Num (Fin q)) qs) (Fin b0)
    = Fin b.
Proof.
  revert b0. induction qs as [|q qs IH]; intro b0; cbn [map fold_left ToNumber].
  - now exists b0.
  - unfold max2 at 2. destruct (lt (Fin b0) (Fin q)); apply IH.
Qed.

(** The bin of a finite value, for a finite minimum and a positive finite
    width, is one of the [numBins] bins. *)
Lemma binIndexOf_in_range (a w q : Q) (numBins : nat) :
  (0 < numBins)%nat -> 0 < w -> a <= q ->
  exists i, binIndexOf (Fin a) (Fin w) numBins (Num (Fin q)) = ofZ i
            /\ (0 <= i < Z.of_nat numBins)%Z.
Proof.
  intros Hn Hw Hq. unfold binIndexOf. cbn [ToNumber].
  unfold sub, neg, add, div, fin.
  assert (W : Qeq_bool w 0 = false).
  { destruct (Qeq_bool w 0) eqn:E; [|reflexivity].
    apply Qeq_bool_eq in E. rewrite E in Hw. discriminate Hw. }
  rewrite W. cbn [Math_floor].
  set (z := Qfloor (Qred (Qred (q + Qred (- a)) / w))).
  assert (Hz : (0 <= z)%Z).
  { subst z. rewrite Qfloor_Qred. change 0%Z with (Qfloor 0).
    apply Qfloor_resp_le. apply Qle_shift_div_l; [exact Hw|].
    rewrite Qmult_0_l, !Qred_correct.
    rewrite <- (Qplus_opp_r a). apply Qplus_le_l. exact Hq. }
  unfold ge, le, ofNat. cbn [ofZ].
  change (Fin (inject_Z z)) with (ofZ z).
  change (Fin (inject_Z (Z.of_nat numBins))) with (ofZ (Z.of_nat numBins)).
  rewrite lt_ofZ.
  destruct (z <? Z.of_nat numBins)%Z eqn:E; cbn [negb].
  - apply Z.ltb_lt in E. exists z. change (Fin 0) with (ofZ 0).
    rewrite lt_ofZ. replace (z <? 0)%Z with false by (symmetry; apply Z.ltb_ge; lia).
    split; [reflexivity | lia].
  - exists (Z.of_nat numBins - 1)%Z. change (Fin 0) with (ofZ 0).
    rewrite lt_ofZ.
    replace (Z.of_nat numBins - 1 <? 0)%Z with false by (symmetry; apply Z.ltb_ge; lia).
    split; [reflexivity | lia].
Qed.

Lemma lt_Fin (a b : Q) : lt (Fin a) (Fin b) = true <-> a < b.
Proof.
  unfold lt. rewrite Qlt_alt. destruct (Qcompare a b); split; congruence.
Qed.

Lemma fold_min_lower (qs : list Q) (a0 a : Q) :
  fold_left (fun m v => min2 m (ToNumber v)) (map (fun q => Num (Fin q)) qs) (Fin a0)
  = Fin a ->
  a <= a0 /\ forall q, In q qs -> a <= q.
Proof.
  revert a0. induction qs as [|q qs IH]; intros a0; cbn [map fold_left ToNumber].
  - intro E. injection E as <-. split; [apply Qle_refl | contradiction].
  - unfold min2 at 2. destruct (lt (Fin q) (Fin a0)) eqn:L; intro E.
    + apply lt_Fin in L. destruct (IH q E) as [B1 B2]. split.
      * apply Qle_trans with q; [exact B1 | now apply Qlt_le_weak].
      * intros q' [<- | I]; [exact B1 | now apply B2].
    + assert (NL : a0 <= q).
      { apply Qnot_lt_le. intro C. apply lt_Fin in C. congruence. }
      destruct (IH a0 E) as [B1 B2]. split; [exact B1|].
      intros q' [<- | I]; [now apply Qle_trans with a0 | now apply B2].
Qed.

(** Incrementing one counter of an array of integer counters. *)
Lemma increment_counter (zs : list Z) (i : Z) :
  (0 <= i < Z.of_nat (List.length zs))%Z ->
  exists zs',
    increment (map (fun c => Num (ofZ c)) zs) (ofZ i) = map (fun c => Num (ofZ c)) zs'
    /\ List.length zs' = List.length zs
    /\ fold_right Z.add 0%Z zs' = (fold_right Z.add 0%Z zs + 1)%Z.
Proof.
  intro Hi. unfold increment, ofZ at 1.
  rewrite is_integer_inject_Z, Qfloor_Z.
  replace (0 <=? i)%Z with true by (symmetry; apply Z.leb_le; lia).
  rewrite length_map.
  replace (Z.to_nat i <? List.length zs)%nat with true
    by (symmetry; apply Nat.ltb_lt; lia).
  cbn [andb].
  assert (Hk : (Z.to_nat i < List.length zs)%nat) by lia.
  generalize (Z.to_nat i) Hk. clear Hi Hk i.
  induction zs as [|z zs IH]; intros k Hk; [simpl in Hk; lia|].
  destruct k as [|k].
  - exists ((z + 1)%Z :: zs). cbn [map firstn skipn nth app ToNumber List.length fold_right].
    change (Fin 1) with (ofZ 1). rewrite add_ofZ.
    repeat split. lia.
  - destruct (IH k ltac:(simpl in Hk; lia)) as [zs' [E [L S]]].
    exists (z :: zs'). cbn [map firstn skipn nth app List.length fold_right].
    rewrite <- E. repeat split; [now rewrite L | lia].
Qed.

Lemma sumCounts_counters (zs : list Z) :
  sumCounts (map (fun c => Num (ofZ c)) zs) = ofZ (fold_right Z.add 0%Z zs).
Proof.
  unfold sumCounts. change (Fin 0) with (ofZ 0).
  assert (G : forall acc,
             fold_left (fun s c => add s (ToNumber c))
                       (map (fun c => Num (ofZ c)) zs) (ofZ acc)
             = ofZ (acc + fold_right Z.add 0%Z zs)).
  { induction zs as [|z zs IH]; intro acc; cbn [map fold_left fold_right ToNumber].
    - now rewrite Z.add_0_r.
    - rewrite add_ofZ, IH. f_equal. lia. }
  apply G.
Qed.

Lemma count_loop (a w : Q) (numBins : nat) (qs : list Q) (zs : list Z) :
  (0 < numBins)%nat -> 0 < w -> (forall q, In q qs -> a <= q) ->
  List.length zs = numBins ->
  exists zs',
    fold_left (fun counts v => increment counts (binIndexOf (Fin a) (Fin w) numBins v))
              (map (fun q => Num (Fin q)) qs) (map (fun c => Num (ofZ c)) zs)
    = map (fun c => Num (ofZ c)) zs'
    /\ List.length zs' = numBins
    /\ fold_right Z.add 0%Z zs'
       = (fold_right Z.add 0%Z zs + Z.of_nat (List.length qs))%Z.
Proof.
  intros Hn Hw. revert zs.
  induction qs as [|q qs IH]; intros zs Hq Hl; cbn [map fold_left List.length].
  - exists zs. repeat split; [exact Hl | lia].
  - destruct (binIndexOf_in_range a w q numBins Hn Hw (Hq q (or_introl eq_refl)))
      as [i [-> Hi]].
    destruct (increment_counter zs i ltac:(lia)) as [zs1 [-> [L1 S1]]].
    destruct (IH zs1 (fun q' I => Hq q' (or_intror I)) ltac:(lia))
      as [zs' [E [L S]]].
    exists zs'. repeat split; [exact E | exact L | lia].
Qed.

Lemma binWidth_positive (a b : Q) (numBins : nat) :
  (0 < numBins)%nat -> a < b ->
  exists w, div (sub (Fin b) (Fin a)) (ofNat numBins) = Fin w /\ 0 < w.
Proof.
  intros Hn Hab. unfold sub, neg, add, ofNat.
  unfold fin, div, ofZ.
  assert (P : 0 < inject_Z (Z.of_nat numBins)).
  { change 0 with (inject_Z 0). rewrite <- Zlt_Qlt. lia. }
  destruct (Qeq_bool (inject_Z (Z.of_nat numBins)) 0) eqn:E.
  - apply Qeq_bool_eq in E. rewrite E in P. discriminate P.
  - eexists. split; [reflexivity|].
    rewrite Qred_correct. apply Qlt_shift_div_l; [exact P|].
    rewrite Qmult_0_l, !Qred_correct.
    rewrite <- (Qplus_opp_r a). apply Qplus_lt_l. exact Hab.
Qed.



(** ** Further properties of the assembler and of the trend *)

Lemma length_range (lo hi : Z) :
  List.length (range lo hi) = Z.to_nat (hi + 1 - lo).
Proof. unfold range. now rewrite length_map, length_seq. Qed.

(** X2.  The number of generated samples is the number of years times
    the number of offsets; a window of 0 days gives one sample for each year,
    and equal start and end years give the samples of one window. *)
Theorem generateMockData_length :
  forall (H : Host) (lat lon : num) (variable : string)
         (targetDay windowDays : Z) (yearRange : DataFetcher.YearRange),
    List.length (DataFetcher.generateMockData H lat lon variable
                   targetDay windowDays yearRange)
    = (Z.to_nat (DataFetcher.end_ yearRange + 1 - DataFetcher.start yearRange)
       * Z.to_nat (2 * windowDays + 1))%nat
    /\ List.length (DataFetcher.generateMockData H lat lon variable
                      targetDay 0 yearRange)
       = Z.to_nat (DataFetcher.end_ yearRange + 1 - DataFetcher.start yearRange)
    /\ List.length (DataFetcher.generateMockData H lat lon variable
                      targetDay windowDays
                      {| DataFetcher.start := DataFetcher.start yearRange;
                         DataFetcher.end_ := DataFetcher.start yearRange |})
       = Z.to_nat (2 * windowDays + 1).
Proof.
  intros H lat lon variable targetDay windowDays yearRange.
  assert (G : forall w yr,
             List.length (DataFetcher.generateMockData H lat lon variable
                            targetDay w yr)
             = (Z.to_nat (DataFetcher.end_ yr + 1 - DataFetcher.start yr)
                * Z.to_nat (2 * w + 1))%nat).
  { intros w yr.
    rewrite <- (length_map yearAndDay).
    unfold DataFetcher.generateMockData.
    rewrite outer_loop_yearAndDay. cbn [DataFetcher.data map app].
    rewrite length_map, length_prod, !length_range.
    f_equal. f_equal. lia. }
  split; [apply G|]. split.
  - rewrite G. change (Z.to_nat (2 * 0 + 1)) with 1%nat. lia.
  - rewrite G. cbn [DataFetcher.start DataFetcher.end_].
    replace (DataFetcher.start yearRange + 1 - DataFetcher.start yearRange)%Z
      with 1%Z by lia.
    change (Z.to_nat 1) with 1%nat. lia.
Qed.

(** Fewer than two entries: the slope is 0, rendered "0.0000", the
    direction is 'stable' and the change per decade is "0.00". *)
Lemma analyzeTrend_insufficient_years :
  forall (H : Host) (pts : list Sample),
    (List.length (yearlyMeans (analyzeTrend H pts)) < 2)%nat ->
    trend (analyzeTrend H pts)
    = {| slope := "0.0000"; direction := "stable"; changePerDecade := "0.00" |}.
Proof.
  intros H pts L. unfold analyzeTrend in *. cbn [yearlyMeans trend] in *.
  unfold linearRegression.
  apply Nat.ltb_lt in L. rewrite L. reflexivity.
Qed.

(** A histogram of at least one value has [numBins + 1] edges. *)
Lemma createHistogram_edges :
  forall (H : Host) (v : val) (vs : list val) (numBins : nat),
    List.length (bins (createHistogram H (v :: vs) numBins)) = S numBins.
Proof.
  intros H v vs numBins. unfold createHistogram. cbn [bins].
  rewrite !length_map, length_range. lia.
Qed.

(** ** The summary of a sequence with a valid value *)

Lemma insert_by_Forall {A : Type} (P : A -> Prop) (after : A -> A -> bool)
  (x : A) (l : list A) :
  P x -> Forall P l -> Forall P (insert_by after x l).
Proof.
  intros Px Pl. induction Pl as [|y l Py Pl IH]; cbn [insert_by].
  - now constructor.
  - destruct (after y x); repeat constructor; assumption.
Qed.

Lemma insert_by_length {A : Type} (after : A -> A -> bool) (x : A) (l : list A) :
  List.length (insert_by after x l) = S (List.length l).
Proof.
  induction l as [|y l IH]; cbn [insert_by List.length]; [reflexivity|].
  destruct (after y x); cbn [List.length]; now rewrite ?IH.
Qed.

Lemma sort_by_Forall {A : Type} (P : A -> Prop) (after : A -> A -> bool)
  (l : list A) :
  Forall P l -> Forall P (sort_by after l).
Proof.
  unfold sort_by. generalize (Forall_nil P). generalize (@nil A) as acc.
  induction l as [|x l IH]; intros acc Pa Pl; cbn [fold_left]; [exact Pa|].
  inversion Pl as [|x' l' Px Pl']; subst.
  apply IH; [now apply insert_by_Forall | exact Pl'].
Qed.

Lemma sort_by_length {A : Type} (after : A -> A -> bool) (l : list A) :
  List.length (sort_by after l) = List.length l.
Proof.
  unfold sort_by.
  assert (G : forall acc,
             List.length (fold_left (fun acc x => insert_by after x acc) l acc)
             = (List.length l + List.length acc)%nat).
  { induction l as [|x l IH]; intro acc; cbn [fold_left List.length]; [reflexivity|].
    rewrite IH, insert_by_length. lia. }
  rewrite G. cbn [List.length]. lia.
Qed.

Lemma index_in_range (l : list val) (i : Z) :
  (0 <= i < Z.of_nat (List.length l))%Z ->
  Forall (fun v => isValid v = true) l ->
  exists x, index l (ofZ i) = Num x.
Proof.
  intros Hi F. unfold index, ofZ.
  fold (is_integer (inject_Z i)). rewrite is_integer_inject_Z, Qfloor_Z.
  replace (0 <=? i)%Z with true by (symmetry; apply Z.leb_le; lia).
  cbn [andb].
  assert (I : In (nth (Z.to_nat i) l Undefined) l) by (apply nth_In; lia).
  rewrite Forall_forall in F. apply F, isValid_iff in I.
  destruct I as [x [-> _]]. now exists x.
Qed.

Lemma median_is_number (l : list val) :
  l <> [] -> Forall (fun v => isValid v = true) l ->
  exists x, median l = Num x.
Proof.
  intros NE F. unfold median.
  assert (L : (0 < Z.of_nat (List.length l))%Z)
    by (destruct l; [contradiction | simpl; lia]).
  destruct (Z.of_nat (List.length l) mod 2 =? 0)%Z; [eexists; reflexivity|].
  apply index_in_range; [|exact F].
  Z.to_euclidean_division_equations. lia.
Qed.

(** The summary of statistics that have a valid value does not throw. *)
Lemma summary_returns :
  forall (H : Host) (pts : list Sample) (threshold : val)
         (variable : string) (t : val),
    validValues pts <> [] ->
    exists sentence,
      generateSummary H (computeStats H pts threshold) variable t
      = Normal sentence.
Proof.
  intros H pts threshold variable t NE.
  unfold computeStats. fold (validValues pts).
  assert (F : Forall (fun v => isValid v = true) (validValues pts)).
  { apply Forall_forall. intros v I. unfold validValues in I.
    now apply filter_In in I. }
  destruct (validValues pts) as [|v vs] eqn:E; [contradiction|].
  set (sorted := sortAscending (v :: vs)).
  assert (Fs : Forall (fun v => isValid v = true) sorted)
    by (apply sort_by_Forall; exact F).
  assert (Ls : List.length sorted = S (List.length vs))
    by (unfold sorted, sortAscending; now rewrite sort_by_length).
  assert (Ns : sorted <> []) by (intro Z0; rewrite Z0 in Ls; discriminate).
  destruct (median_is_number sorted Ns Fs) as [md Emd].
  destruct (index_in_range sorted 0 ltac:(lia) Fs) as [mn Emn].
  destruct (index_in_range sorted (Z.of_nat (List.length sorted) - 1)
              ltac:(lia) Fs) as [mx Emx].
  unfold generateSummary. cbn [s_exceedance].
  destruct (negb (is_null match threshold with Undefined => Null | _ => threshold end)).
  - eexists. reflexivity.
  - cbn [s_mean s_median s_min s_max].
    change (Fin 0) with (ofZ 0). rewrite Emd, Emn, Emx.
    eexists. reflexivity.
Qed.

(** X5.  With at least one valid value [generateSummary] applied to the
    result of [computeStats] returns a sentence: it does not throw, with or
    without a threshold. *)
Theorem generateSummary_returns :
  forall (H : Host) (pts : list Sample) (threshold : val)
         (variable : string) (t : val),
    validValues pts <> [] ->
    exists sentence,
      generateSummary H (computeStats H pts threshold) variable t
      = Normal sentence.
Proof.
  exact summary_returns.
Qed.

Lemma generateSummary_returns_witness :
  validValues [sampleOf 2000 (Num (Fin 3)); sampleOf 2000 (Num (Fin 4))] <> []
  /\ exists sentence,
       generateSummary exampleHost
         (computeStats exampleHost
            [sampleOf 2000 (Num (Fin 3)); sampleOf 2000 (Num (Fin 4))] Null)
         "temperature" Null
       = Normal sentence.
Proof.
  split; [discriminate|].
  apply (generateSummary_returns exampleHost
           [sampleOf 2000 (Num (Fin 3)); sampleOf 2000 (Num (Fin 4))]
           Null "temperature" Null).
  discriminate.
Defined.

Example generateSummary_3_4 :
  generateSummary exampleHost
    (computeStats exampleHost
       [sampleOf 2000 (Num (Fin 3)); sampleOf 2000 (Num (Fin 4))] (Num (Fin 3)))
    "temperature" (Num (Fin 3))
  = Normal "There is a 50.0% chance that temperature will exceed 3 based on historical data (2 observations). This is fairly common.".
Proof. reflexivity. Qed.

(** ** The sorted copy *)

(** On numbers other than [NaN] the comparator [(a, b) => a - b] is
    positive exactly when [a] is above [b]. *)
Lemma Qcompare_difference (a b : Q) : Qcompare 0 (b + - a) = Qcompare a b.
Proof.
  destruct a as [an ad], b as [bn bd].
  unfold Qcompare, Qplus, Qopp. cbn [Qnum Qden].
  destruct (Z.compare_spec (0 * Z.pos (bd * ad))
                           ((bn * Z.pos ad + - an * Z.pos bd) * 1));
    destruct (Z.compare_spec (an * Z.pos bd) (bn * Z.pos ad));
    try reflexivity; exfalso; lia.
Qed.

Lemma comparator_positive (x y : num) :
  x <> NaN -> y <> NaN -> gt (sub y x) (Fin 0) = lt x y.
Proof.
  intros Hx Hy.
  destruct x as [| | |a], y as [| | |b]; try contradiction; try reflexivity.
  unfold gt, sub, neg, add, fin, lt.
  now rewrite !Qred_correct, Qcompare_difference.
Qed.

Lemma lt_asym (x y : num) : lt x y = true -> lt y x = false.
Proof.
  destruct x as [| | |a], y as [| | |b]; try reflexivity; try discriminate.
  intro L. apply lt_Fin in L.
  destruct (lt (Fin b) (Fin a)) eqn:E; [|reflexivity].
  apply lt_Fin in E. exfalso.
  exact (Qlt_irrefl a (Qlt_trans _ _ _ L E)).
Qed.

Lemma isValid_number (v : val) : isValid v = true -> ToNumber v <> NaN.
Proof.
  intro V. apply isValid_iff in V. destruct V as [x [-> Hx]]. exact Hx.
Qed.

Lemma insert_ascending (x : val) (l : list val) :
  isValid x = true -> Forall (fun v => isValid v = true) l ->
  Sorted ascending l ->
  Sorted ascending
    (insert_by (fun a b => gt (sub (ToNumber a) (ToNumber b)) (Fin 0)) x l).
Proof.
  intros Vx Vl Sl.
  induction l as [|y l IH]; cbn [insert_by].
  - repeat constructor.
  - inversion Vl as [|y' l' Vy Vl']; subst.
    inversion Sl as [|y' l' Sl' Hd]; subst.
    rewrite (comparator_positive (ToNumber x) (ToNumber y)
               (isValid_number x Vx) (isValid_number y Vy)).
    destruct (lt (ToNumber x) (ToNumber y)) eqn:L.
    + constructor; [exact Sl|]. constructor. unfold ascending.
      now apply lt_asym.
    + constructor; [now apply IH|].
      destruct l as [|z l]; cbn [insert_by].
      * constructor. exact L.
      * inversion Hd as [|z' l' Hyz]; subst.
        destruct (gt (sub (ToNumber z) (ToNumber x)) (Fin 0));
          constructor; assumption.
Qed.

Lemma insert_permutation {A : Type} (after : A -> A -> bool) (x : A) (l : list A) :
  Permutation (insert_by after x l) (x :: l).
Proof.
  induction l as [|y l IH]; cbn [insert_by]; [apply Permutation_refl|].
  destruct (after y x); [apply Permutation_refl|].
  apply Permutation_trans with (y :: x :: l); [now constructor | constructor].
Qed.

(** X6.  The sorted copy that [computeStats] takes its order statistics
    from is a rearrangement of the valid values in ascending order. *)
Theorem sortAscending_sorted :
  forall (values : list val),
    Forall (fun v => isValid v = true) values ->
    Sorted ascending (sortAscending values)
    /\ Permutation (sortAscending values) values.
Proof.
  intros values V. unfold sortAscending, sort_by.
  assert (G : forall acc,
             Forall (fun v => isValid v = true) acc -> Sorted ascending acc ->
             let r := fold_left
                        (fun acc x =>
                           insert_by (fun a b => gt (sub (ToNumber a) (ToNumber b)) (Fin 0))
                                     x acc) values acc in
             Sorted ascending r /\ Permutation r (values ++ acc)).
  { induction V as [|x l Vx Vl IH]; intros acc Va Sa; cbn [fold_left app].
    - split; [exact Sa | apply Permutation_refl].
    - destruct (IH (insert_by (fun a b => gt (sub (ToNumber a) (ToNumber b)) (Fin 0)) x acc))
        as [S1 P1].
      + apply insert_by_Forall; assumption.
      + apply insert_ascending; assumption.
      + split; [exact S1|].
        apply Permutation_trans with (1 := P1).
        apply Permutation_trans with (l ++ x :: acc)%list.
        * apply Permutation_app_head, insert_permutation.
        * apply Permutation_sym, Permutation_middle. }
  destruct (G [] (Forall_nil _) (Sorted_nil _)) as [S0 P0].
  split; [exact S0|]. now rewrite app_nil_r in P0.
Qed.

Lemma sortAscending_sorted_witness :
  Forall (fun v => isValid v = true) [Num (Fin 3); Num PInf; Num (Fin (-2)); Num (Fin 3)]
  /\ Sorted ascending
       (sortAscending [Num (Fin 3); Num PInf; Num (Fin (-2)); Num (Fin 3)]).
Proof.
  split; [repeat constructor|].
  exact (proj1 (sortAscending_sorted
                  [Num (Fin 3); Num PInf; Num (Fin (-2)); Num (Fin 3)]
                  ltac:(repeat constructor))).
Defined.

Example sortAscending_mixed :
  sortAscending [Num (Fin 3); Num PInf; Num (Fin (-2)); Num (Fin 3)]
  = [Num (Fin (-2)); Num (Fin 3); Num (Fin 3); Num PInf].
Proof. reflexivity. Qed.

(** ** The least-squares slope *)

Lemma deviation_nonneg (x : Q) (xs : list Q) : 0 <= deviation x xs.
Proof.
  unfold deviation. induction xs as [|y xs IH]; cbn [map Qsum fold_right].
  - apply Qle_refl.
  - fold (Qsum (map (fun y => (y - x) * (y - x)) xs)).
    rewrite <- (Qplus_0_r 0). apply Qplus_le_compat; [|exact IH].
    destruct (Qlt_le_dec (y - x) 0) as [N | P].
    + setoid_replace ((y - x) * (y - x)) with ((- (y - x)) * (- (y - x))) by ring.
      apply Qmult_le_0_compat; apply Qlt_le_weak;
        setoid_replace 0 with (- 0) by ring; now apply Qopp_lt_compat.
    + now apply Qmult_le_0_compat.
Qed.

Lemma square_pos (d : Q) : ~ d == 0 -> 0 < d * d.
Proof.
  intro NZ. destruct (Q_dec d 0) as [[N | P] | E]; [| |contradiction].
  - setoid_replace (d * d) with ((- d) * (- d)) by ring.
    assert (0 < - d) by (setoid_replace 0 with (- 0) by ring; now apply Qopp_lt_compat).
    rewrite <- (Qmult_0_l (- d)). now apply Qmult_lt_compat_r.
  - rewrite <- (Qmult_0_l d). now apply Qmult_lt_compat_r.
Qed.

Lemma Qpos_add_l (a b : Q) : 0 < a -> 0 <= b -> 0 < a + b.
Proof.
  intros Pa Pb. rewrite <- (Qplus_0_r 0). now apply Qplus_lt_le_compat.
Qed.

Lemma Qpos_add_r (a b : Q) : 0 <= a -> 0 < b -> 0 < a + b.
Proof.
  intros Pa Pb. rewrite Qplus_comm. now apply Qpos_add_l.
Qed.

Lemma deviation_pos (x : Q) (xs : list Q) :
  (exists y, In y xs /\ ~ y == x) -> 0 < deviation x xs.
Proof.
  unfold deviation. induction xs as [|z xs IH]; intros [y [I NE]]; [contradiction|].
  cbn [map Qsum fold_right].
  fold (Qsum (map (fun y => (y - x) * (y - x)) xs)).
  fold (deviation x xs).
  destruct I as [<- | I].
  - apply Qpos_add_l; [|apply deviation_nonneg].
    apply square_pos. intro E. apply NE.
    setoid_replace z with ((z - x) + x) by ring. rewrite E. ring.
  - apply Qpos_add_r; [|apply IH; now exists y].
    destruct (Qeq_dec (z - x) 0) as [E | NE'].
    + rewrite E. rewrite Qmult_0_l. apply Qle_refl.
    + apply Qlt_le_weak. now apply square_pos.
Qed.

Lemma deviation_expand (x : Q) (xs : list Q) :
  deviation x xs
  == Qsum (map (fun y => y * y) xs) - (2 # 1) * x * Qsum xs
     + inject_Z (Z.of_nat (List.length xs)) * x * x.
Proof.
  unfold deviation. induction xs as [|y xs IH].
  - cbn. ring.
  - cbn [map Qsum fold_right List.length].
    fold (Qsum (map (fun y => (y - x) * (y - x)) xs)).
    fold (Qsum (map (fun y => y * y) xs)). fold (Qsum xs).
    rewrite IH, Nat2Z.inj_succ. unfold Z.succ. rewrite inject_Z_plus.
    change (inject_Z 1) with 1. ring.
Qed.

Lemma spread_cons (x : Q) (xs : list Q) :
  spread (x :: xs) == spread xs + deviation x xs.
Proof.
  rewrite deviation_expand. unfold spread.
  cbn [map Qsum fold_right List.length].
  fold (Qsum (map (fun y => y * y) xs)). fold (Qsum xs).
  rewrite Nat2Z.inj_succ. unfold Z.succ. rewrite inject_Z_plus.
  change (inject_Z 1) with 1. ring.
Qed.

Lemma spread_nonneg (xs : list Q) : 0 <= spread xs.
Proof.
  induction xs as [|x xs IH].
  - unfold spread. cbn. discriminate.
  - rewrite spread_cons, <- (Qplus_0_r 0).
    apply Qplus_le_compat; [exact IH | apply deviation_nonneg].
Qed.

(** The denominator of the slope is positive as soon as two of the years
    differ. *)
Lemma spread_pos (xs : list Q) :
  (exists x1 x2, In x1 xs /\ In x2 xs /\ ~ x1 == x2) -> 0 < spread xs.
Proof.
  induction xs as [|x xs IH]; intros [x1 [x2 [I1 [I2 NE]]]]; [contradiction|].
  rewrite spread_cons.
  destruct I1 as [<- | I1], I2 as [<- | I2].
  - exfalso. apply NE. reflexivity.
  - apply Qpos_add_r; [apply spread_nonneg|].
    apply deviation_pos. exists x2. split; [exact I2|].
    intro E. apply NE. now symmetry.
  - apply Qpos_add_r; [apply spread_nonneg|].
    apply deviation_pos. now exists x1.
  - apply Qpos_add_l; [|apply deviation_nonneg].
    apply IH. now exists x1, x2.
Qed.

Lemma fold_add_finite {A : Type} (h : A -> num) (k : A -> Q) (l : list A) (a : Q) :
  (forall d, In d l -> exists q, h d = Fin q /\ q == k d) ->
  exists q, fold_left (fun s d => add s (h d)) l (Fin a) = Fin q
            /\ q == a + Qsum (map k l).
Proof.
  revert a. induction l as [|d l IH]; intros a Hh; cbn [fold_left map Qsum fold_right].
  - exists a. split; [reflexivity | ring].
  - fold (Qsum (map k l)).
    destruct (Hh d (or_introl eq_refl)) as [q0 [E0 Q0]]. rewrite E0.
    destruct (IH (Qred (a + q0)) (fun d' I => Hh d' (or_intror I))) as [q [E Q1]].
    exists q. split; [exact E|].
    rewrite Q1, Qred_correct, Q0. ring.
Qed.

Lemma sums_on_line (alpha c : Q) (data : list YearMean) :
  Forall (onLine alpha c) data ->
  Qsum (map (fun d => qof (ym_mean d)) data)
  == inject_Z (Z.of_nat (List.length data)) * alpha
     + c * Qsum (map (fun d => qof (ym_year d)) data)
  /\ Qsum (map (fun d => qof (ym_year d) * qof (ym_mean d)) data)
     == alpha * Qsum (map (fun d => qof (ym_year d)) data)
        + c * Qsum (map (fun d => qof (ym_year d) * qof (ym_year d)) data).
Proof.
  induction 1 as [|d data [x [m [Ex [Em L]]]] F [IH1 IH2]].
  - split; cbn; ring.
  - cbn [map Qsum fold_right List.length].
    fold (Qsum (map (fun d => qof (ym_mean d)) data)).
    fold (Qsum (map (fun d => qof (ym_year d)) data)).
    fold (Qsum (map (fun d => qof (ym_year d) * qof (ym_mean d)) data)).
    fold (Qsum (map (fun d => qof (ym_year d) * qof (ym_year d)) data)).
    rewrite IH1, IH2, Ex, Em, Nat2Z.inj_succ. unfold Z.succ.
    rewrite inject_Z_plus. change (inject_Z 1) with 1. cbn [qof].
    rewrite L. split; ring.
Qed.

(** When every yearly mean lies on a line of slope [c] and two of the
    years differ, the least-squares slope is [c] itself. *)
Lemma linearRegression_exact_fit :
  forall (alpha c : Q) (data : list YearMean),
    Forall (onLine alpha c) data ->
    (exists d1 d2, In d1 data /\ In d2 data
                   /\ ~ qof (ym_year d1) == qof (ym_year d2)) ->
    linearRegression data = fin c.
Proof.
  intros alpha c data F [d1 [d2 [I1 [I2 NE]]]].
  assert (Fx : forall d, In d data -> exists x m,
                 ym_year d = Fin x /\ ym_mean d = Fin m /\ m == alpha + c * x)
    by (apply Forall_forall; exact F).
  set (X := fun d => qof (ym_year d)). set (M := fun d => qof (ym_mean d)).
  destruct (fold_add_finite ym_year X data 0) as [sx [Ex Qx]].
  { intros d I. destruct (Fx d I) as [x [m [E1 [E2 _]]]].
    exists x. split; [exact E1|]. unfold X. now rewrite E1. }
  destruct (fold_add_finite ym_mean M data 0) as [sy [Ey Qy]].
  { intros d I. destruct (Fx d I) as [x [m [E1 [E2 _]]]].
    exists m. split; [exact E2|]. unfold M. now rewrite E2. }
  destruct (fold_add_finite (fun d => mul (ym_year d) (ym_mean d))
              (fun d => X d * M d) data 0) as [sxy [Exy Qxy]].
  { intros d I. destruct (Fx d I) as [x [m [E1 [E2 _]]]].
    exists (Qred (x * m)). unfold X, M. rewrite E1, E2.
    split; [reflexivity | apply Qred_correct]. }
  destruct (fold_add_finite (fun d => mul (ym_year d) (ym_year d))
              (fun d => X d * X d) data 0) as [sxx [Exx Qxx]].
  { intros d I. destruct (Fx d I) as [x [m [E1 [E2 _]]]].
    exists (Qred (x * x)). unfold X. rewrite E1.
    split; [reflexivity | apply Qred_correct]. }
  destruct (sums_on_line alpha c data F) as [Sy Sxy].
  change (Qsum (map M data)
          == inject_Z (Z.of_nat (List.length data)) * alpha
             + c * Qsum (map X data)) in Sy.
  change (Qsum (map (fun d => X d * M d) data)
          == alpha * Qsum (map X data)
             + c * Qsum (map (fun d => X d * X d) data)) in Sxy.
  assert (P : 0 < spread (map X data)).
  { apply spread_pos. exists (X d1), (X d2).
    split; [now apply in_map|]. split; [now apply in_map | exact NE]. }
  unfold spread in P. rewrite length_map, map_map in P.
  assert (L2 : (List.length data <? 2)%nat = false).
  { apply Nat.ltb_ge. destruct data as [|a [|b l]]; simpl; try lia.
    - contradiction.
    - destruct I1 as [<- | []], I2 as [<- | []]. exfalso. apply NE. reflexivity. }
  unfold linearRegression. rewrite L2.
  change (Fin 0) with (Fin (0 : Q)). rewrite Ex, Ey, Exy, Exx.
  set (n := inject_Z (Z.of_nat (List.length data))) in *.
  unfold ofNat, ofZ, mul, sub, neg, add, fin. fold n.
  set (D := Qred (Qred (n * sxx) + Qred (- Qred (sx * sx)))).
  set (N := Qred (Qred (n * sxy) + Qred (- Qred (sx * sy)))).
  assert (QD : D == n * Qsum (map (fun d => X d * X d) data)
                    - Qsum (map X data) * Qsum (map X data)).
  { unfold D. rewrite !Qred_correct, Qxx, Qx. ring. }
  assert (QN : N == c * D).
  { rewrite QD. unfold N. rewrite !Qred_correct, Qxy, Qx, Qy, Sy, Sxy. ring. }
  assert (DP : 0 < D) by now rewrite QD.
  unfold div.
  destruct (Qeq_bool D 0) eqn:E0.
  - apply Qeq_bool_eq in E0. rewrite E0 in DP. discriminate DP.
  - unfold fin. apply f_equal, Qred_complete. rewrite QN. field.
    intro Z0. rewrite Z0 in DP. discriminate DP.
Qed.



(** ** A constant series *)

Lemma Qsum_constant (r : Q) (n : nat) :
  Qsum (map (fun _ : val => r) (repeat (Num (Fin r)) n))
  == inject_Z (Z.of_nat n) * r.
Proof.
  induction n as [|n IH].
  - cbn. ring.
  - cbn [repeat map Qsum fold_right].
    fold (Qsum (map (fun _ : val => r) (repeat (Num (Fin r)) n))).
    rewrite IH, Nat2Z.inj_succ. unfold Z.succ. rewrite inject_Z_plus.
    change (inject_Z 1) with 1. ring.
Qed.

Lemma mean_constant (r : Q) (n : nat) :
  mean (repeat (Num (Fin r)) (S n)) = fin r.
Proof.
  unfold mean.
  destruct (fold_add_finite ToNumber (fun _ => r) (repeat (Num (Fin r)) (S n)) 0)
    as [s [E Q0]].
  { intros d I. apply repeat_spec in I. subst d. exists r. split; reflexivity. }
  rewrite E, repeat_length. unfold ofNat.
  unfold div, ofZ.
  assert (P : 0 < inject_Z (Z.of_nat (S n))).
  { change 0 with (inject_Z 0). rewrite <- Zlt_Qlt. lia. }
  destruct (Qeq_bool (inject_Z (Z.of_nat (S n))) 0) eqn:E0.
  - apply Qeq_bool_eq in E0. rewrite E0 in P. discriminate P.
  - unfold fin. apply f_equal, Qred_complete.
    rewrite Q0, Qsum_constant. field.
    intro Z0. rewrite Z0 in P. discriminate P.
Qed.

Lemma Qred_idem (q : Q) : Qred (Qred q) = Qred q.
Proof. apply Qred_complete, Qred_correct. Qed.

Lemma sortAscending_constant (r : Q) (n : nat) :
  sortAscending (repeat (Num (Fin r)) n) = repeat (Num (Fin r)) n.
Proof.
  unfold sortAscending, sort_by.
  set (after := fun a b => gt (sub (ToNumber a) (ToNumber b)) (Fin 0)).
  assert (I : forall k, insert_by after (Num (Fin r)) (repeat (Num (Fin r)) k)
                        = repeat (Num (Fin r)) (S k)).
  { induction k as [|k IH]; [reflexivity|].
    cbn [repeat insert_by]. unfold after at 1. cbn [ToNumber].
    rewrite sub_self_fin. change (gt (Fin 0) (Fin 0)) with false. cbv iota.
    now rewrite IH. }
  assert (G : forall j,
             fold_left (fun acc x => insert_by after x acc)
                       (repeat (Num (Fin r)) n) (repeat (Num (Fin r)) j)
             = repeat (Num (Fin r)) (n + j)).
  { induction n as [|n IH]; intro j; cbn [repeat fold_left]; [reflexivity|].
    rewrite I, IH. f_equal. lia. }
  specialize (G 0%nat). rewrite Nat.add_0_r in G. exact G.
Qed.

Lemma index_constant (v : val) (n : nat) (i : Z) :
  (0 <= i <= Z.of_nat n)%Z -> index (repeat v (S n)) (ofZ i) = v.
Proof.
  intro Hi. unfold index, ofZ.
  fold (is_integer (inject_Z i)). rewrite is_integer_inject_Z, Qfloor_Z.
  replace (0 <=? i)%Z with true by (symmetry; apply Z.leb_le; lia).
  cbn [andb].
  apply (repeat_spec (S n) v). apply nth_In. rewrite repeat_length. lia.
Qed.

Lemma median_constant (r : Q) (n : nat) :
  median (repeat (Num (Fin r)) (S n)) = Num (fin r) \/
  median (repeat (Num (Fin r)) (S n)) = Num (Fin r).
Proof.
  unfold median. rewrite repeat_length.
  destruct (Z.of_nat (S n) mod 2 =? 0)%Z eqn:E.
  - left. apply Z.eqb_eq in E.
    rewrite !index_constant by (Z.to_euclidean_division_equations; lia).
    cbn [ToNumber]. unfold add, div, fin.
    change (Qeq_bool 2 0) with false. cbv iota.
    do 2 apply f_equal. apply Qred_complete. rewrite Qred_correct. field.
  - right. apply index_constant. Z.to_euclidean_division_equations. lia.
Qed.

Lemma standardDeviation_constant (H : Host) (r : Q) (n : nat) :
  Qred r = r ->
  standardDeviation H (repeat (Num (Fin r)) (S n)) = Math_sqrt H (Fin 0).
Proof.
  intro C. unfold standardDeviation.
  rewrite mean_constant. unfold fin. rewrite C.
  rewrite map_repeat. cbn [ToNumber]. rewrite sub_self_fin.
  change (square (Fin 0)) with (Fin 0).
  now rewrite mean_constant.
Qed.

Lemma countAbove_constant (t r : Q) (n : nat) :
  t < r -> countAbove (Fin t) (repeat (Num (Fin r)) n) = n.
Proof.
  intro L. unfold countAbove.
  induction n as [|n IH]; [reflexivity|].
  cbn [repeat filter ToNumber]. unfold gt at 1.
  rewrite (proj2 (lt_Fin t r) L). cbn [List.length]. now rewrite IH.
Qed.

Lemma constant_values (pts : list Sample) (v : val) :
  Forall (fun p => value p = v) pts ->
  map value pts = repeat v (List.length pts).
Proof.
  induction 1 as [|p pts E F IH]; [reflexivity|].
  cbn [map List.length repeat]. now rewrite E, IH.
Qed.

Lemma filter_isValid_constant (r : Q) (n : nat) :
  filter isValid (repeat (Num (Fin r)) n) = repeat (Num (Fin r)) n.
Proof.
  induction n as [|n IH]; [reflexivity|].
  cbn [repeat filter]. change (isValid (Num (Fin r))) with true.
  cbv iota. now rewrite IH.
Qed.

(** What [computeStats] returns when there is a valid value and a
    threshold that is a number. *)
Lemma computeStats_values (H : Host) (pts : list Sample) (t : num) :
  validValues pts <> [] ->
  computeStats H pts (Num t)
  = let values := validValues pts in
    let sorted := sortAscending values in
    {| s_error := None;
       s_count := List.length values;
       s_mean := Num (mean values);
       s_median := median sorted;
       s_std := Num (standardDeviation H values);
       s_min := index sorted (Fin 0);
       s_max := index sorted (ofZ (Z.of_nat (List.length sorted) - 1));
       s_percentiles :=
         Some {| p10 := percentile sorted (Fin 10);
                 p25 := percentile sorted (Fin 25);
                 p50 := percentile sorted (Fin 50);
                 p75 := percentile sorted (Fin 75);
                 p90 := percentile sorted (Fin 90);
                 p95 := percentile sorted (Fin 95);
                 p99 := percentile sorted (Fin 99) |};
       s_exceedance :=
         Some {| ex_threshold := Num t;
                 ex_probability :=
                   div (ofNat (countAbove t values)) (ofNat (List.length values));
                 ex_count := countAbove t values;
                 ex_percentage :=
                   toFixed H
                     (mul (div (ofNat (countAbove t values))
                               (ofNat (List.length values)))
                          (Fin 100)) 1 |};
       s_distribution := Some (createHistogram H values 20) |}.
Proof.
  intro NE. unfold computeStats. fold (validValues pts).
  destruct (validValues pts); [contradiction | reflexivity].
Qed.



(* ================================================================== *)
(** * Part III.  Further properties of the code                         *)
(* ================================================================== *)

(** ** The counters of any histogram *)

Lemma le_ofZ (a b : Z) : le (ofZ a) (ofZ b) = (a <=? b)%Z.
Proof.
  unfold le. cbn [ofZ]. change (Fin (inject_Z a)) with (ofZ a).
  change (Fin (inject_Z b)) with (ofZ b). rewrite lt_ofZ.
  rewrite Z.leb_antisym. reflexivity.
Qed.

(** Whatever the value, the minimum and the width are, the bin index that
    survives the two clamps is [NaN] or one of the [numBins] bins. *)
Lemma binIndexOf_cases (min_ bw : num) (numBins : nat) (v : val) :
  (0 < numBins)%nat ->
  binIndexOf min_ bw numBins v = NaN
  \/ exists i, binIndexOf min_ bw numBins v = ofZ i
               /\ (0 <= i < Z.of_nat numBins)%Z.
Proof.
  intro Hn. unfold binIndexOf.
  destruct (div (sub (ToNumber v) min_) bw) as [| | |q]; cbn [Math_floor].
  - left. reflexivity.
  - right. exists (Z.of_nat numBins - 1)%Z.
    change (ge PInf (ofNat numBins)) with true. cbv iota.
    change (Fin 0) with (ofZ 0). rewrite lt_ofZ.
    replace (Z.of_nat numBins - 1 <? 0)%Z with false
      by (symmetry; apply Z.ltb_ge; lia).
    split; [reflexivity | lia].
  - right. exists 0%Z. split; [reflexivity | lia].
  - right. unfold ge, ofNat. rewrite le_ofZ.
    change (Fin 0) with (ofZ 0).
    destruct (Z.of_nat numBins <=? Qfloor q)%Z eqn:E.
    + exists (Z.of_nat numBins - 1)%Z. rewrite lt_ofZ.
      replace (Z.of_nat numBins - 1 <? 0)%Z with false
        by (symmetry; apply Z.ltb_ge; lia).
      split; [reflexivity | lia].
    + apply Z.leb_gt in E. rewrite lt_ofZ.
      destruct (Qfloor q <? 0)%Z eqn:N.
      * exists 0%Z. split; [reflexivity | lia].
      * apply Z.ltb_ge in N. exists (Qfloor q). split; [reflexivity | lia].
Qed.

Lemma increment_counter_nonneg (zs : list Z) (i : Z) :
  (0 <= i < Z.of_nat (List.length zs))%Z ->
  Forall (fun c => (0 <= c)%Z) zs ->
  exists zs',
    increment (map (fun c => Num (ofZ c)) zs) (ofZ i) = map (fun c => Num (ofZ c)) zs'
    /\ List.length zs' = List.length zs
    /\ Forall (fun c => (0 <= c)%Z) zs'
    /\ fold_right Z.add 0%Z zs' = (fold_right Z.add 0%Z zs + 1)%Z.
Proof.
  intros Hi F. unfold increment, ofZ at 1.
  rewrite is_integer_inject_Z, Qfloor_Z.
  replace (0 <=? i)%Z with true by (symmetry; apply Z.leb_le; lia).
  rewrite length_map.
  replace (Z.to_nat i <? List.length zs)%nat with true
    by (symmetry; apply Nat.ltb_lt; lia).
  cbn [andb].
  assert (Hk : (Z.to_nat i < List.length zs)%nat) by lia.
  generalize (Z.to_nat i) Hk. clear Hi Hk i.
  induction F as [|z zs Pz F IH]; intros k Hk; [simpl in Hk; lia|].
  destruct k as [|k].
  - exists ((z + 1)%Z :: zs).
    cbn [map firstn skipn nth app ToNumber List.length fold_right].
    change (Fin 1) with (ofZ 1). rewrite add_ofZ.
    repeat split; [constructor; [lia | exact F] | lia].
  - destruct (IH k ltac:(simpl in Hk; lia)) as [zs' [E [L [F' S]]]].
    exists (z :: zs'). cbn [map firstn skipn nth app List.length fold_right].
    rewrite <- E. repeat split; [now rewrite L | now constructor | lia].
Qed.

Lemma counting_loop_bounded (min_ bw : num) (numBins : nat)
  (values : list val) (zs : list Z) :
  (0 < numBins)%nat -> List.length zs = numBins ->
  Forall (fun c => (0 <= c)%Z) zs ->
  exists zs',
    fold_left (fun counts v => increment counts (binIndexOf min_ bw numBins v))
              values (map (fun c => Num (ofZ c)) zs)
    = map (fun c => Num (ofZ c)) zs'
    /\ List.length zs' = numBins
    /\ Forall (fun c => (0 <= c)%Z) zs'
    /\ (fold_right Z.add 0%Z zs <= fold_right Z.add 0%Z zs'
        <= fold_right Z.add 0%Z zs + Z.of_nat (List.length values))%Z.
Proof.
  intros Hn. revert zs.
  induction values as [|v values IH]; intros zs Hl F; cbn [fold_left List.length].
  - exists zs. repeat split; try assumption; lia.
  - destruct (binIndexOf_cases min_ bw numBins v Hn) as [-> | [i [-> Hi]]].
    + cbn [increment].
      destruct (IH zs Hl F) as [zs' [E [L [F' S]]]].
      exists zs'. repeat split; try assumption; lia.
    + destruct (increment_counter_nonneg zs i ltac:(lia) F)
        as [zs1 [-> [L1 [F1 S1]]]].
      destruct (IH zs1 ltac:(lia) F1) as [zs' [E [L [F' S]]]].
      exists zs'. repeat split; try assumption; lia.
Qed.

(** X4.  Whatever the values are ([null], [NaN] and infinite ones
    included), a histogram of at least one value over [numBins >= 1] bins
    has [numBins + 1] edges and exactly [numBins] counters; every counter
    is a natural number and together they never count more than the
    number of values: a value is counted once or, when its bin index is
    [NaN], not at all. *)
Theorem createHistogram_counters :
  forall (H : Host) (v : val) (vs : list val) (numBins : nat),
    (0 < numBins)%nat ->
    let h := createHistogram H (v :: vs) numBins in
    List.length (bins h) = S numBins
    /\ exists zs,
         counts h = map (fun c => Num (ofZ c)) zs
         /\ List.length zs = numBins
         /\ Forall (fun c => (0 <= c)%Z) zs
         /\ (fold_right Z.add 0%Z zs <= Z.of_nat (List.length (v :: vs)))%Z.
Proof.
  intros H v vs numBins Hn h. subst h.
  split; [apply createHistogram_edges|].
  unfold createHistogram. cbn [counts].
  assert (R0 : repeat (Num (Fin 0)) numBins
               = map (fun c => Num (ofZ c)) (repeat 0%Z numBins))
    by (symmetry; apply map_repeat).
  rewrite R0.
  destruct (counting_loop_bounded
              (Math_min (v :: vs))
              (div (sub (Math_max (v :: vs)) (Math_min (v :: vs))) (ofNat numBins))
              numBins (v :: vs) (repeat 0%Z numBins) Hn (repeat_length _ _))
    as [zs [E [L [F S]]]].
  { clear. induction numBins; cbn [repeat]; constructor; [lia | assumption]. }
  exists zs. repeat split; try assumption.
  assert (Z0 : fold_right Z.add 0%Z (repeat 0%Z numBins) = 0%Z)
    by (clear; induction numBins; simpl; lia).
  lia.
Qed.

Lemma createHistogram_counters_witness :
  (0 < 20)%nat
  /\ List.length
       (counts (createHistogram exampleHost
                  [Num (Fin 1); Null; Num NaN; Num PInf] 20)) = 20%nat.
Proof.
  split; [lia|].
  destruct (createHistogram_counters exampleHost (Num (Fin 1))
              [Null; Num NaN; Num PInf] 20 ltac:(lia))
    as [_ [zs [E [L _]]]].
  rewrite E, length_map. exact L.
Defined.

(** ** Order statistics *)

(** The fields of [computeStats] that do not depend on the threshold. *)
Lemma computeStats_order_fields (H : Host) (pts : list Sample) (threshold : val) :
  validValues pts <> [] ->
  let sorted := sortAscending (validValues pts) in
  let stats := computeStats H pts threshold in
  s_mean stats = Num (mean (validValues pts))
  /\ s_median stats = median sorted
  /\ s_min stats = index sorted (Fin 0)
  /\ s_max stats = index sorted (ofZ (Z.of_nat (List.length sorted) - 1))
  /\ s_percentiles stats
     = Some {| p10 := percentile sorted (Fin 10);
               p25 := percentile sorted (Fin 25);
               p50 := percentile sorted (Fin 50);
               p75 := percentile sorted (Fin 75);
               p90 := percentile sorted (Fin 90);
               p95 := percentile sorted (Fin 95);
               p99 := percentile sorted (Fin 99) |}.
Proof.
  intro NE. unfold computeStats. fold (validValues pts).
  destruct (validValues pts); [contradiction|].
  cbn zeta. cbn [s_mean s_median s_min s_max s_percentiles].
  repeat split.
Qed.

Lemma validValues_valid (pts : list Sample) :
  Forall (fun v => isValid v = true) (validValues pts).
Proof.
  unfold validValues. apply Forall_forall. intros v I.
  now apply filter_In in I.
Qed.

(** The sorted copy of valid values is ascending and a rearrangement. *)
Lemma sortAscending_spec (values : list val) :
  Forall (fun v => isValid v = true) values ->
  Sorted ascending (sortAscending values)
  /\ Permutation (sortAscending values) values
  /\ Forall (fun v => isValid v = true) (sortAscending values).
Proof.
  intro V.
  assert (G : forall acc,
             Forall (fun v => isValid v = true) acc -> Sorted ascending acc ->
             let r := fold_left
                        (fun acc x =>
                           insert_by (fun a b => gt (sub (ToNumber a) (ToNumber b)) (Fin 0))
                                     x acc) values acc in
             Sorted ascending r /\ Permutation r (values ++ acc)).
  { induction V as [|x l Vx Vl IH]; intros acc Va Sa; cbn [fold_left app].
    - split; [exact Sa | apply Permutation_refl].
    - destruct (IH (insert_by (fun a b => gt (sub (ToNumber a) (ToNumber b)) (Fin 0)) x acc))
        as [S1 P1].
      + apply insert_by_Forall; assumption.
      + apply insert_ascending; assumption.
      + split; [exact S1|].
        apply Permutation_trans with (1 := P1).
        apply Permutation_trans with (l ++ x :: acc)%list.
        * apply Permutation_app_head, insert_permutation.
        * apply Permutation_sym, Permutation_middle. }
  destruct (G [] (Forall_nil _) (Sorted_nil _)) as [S0 P0].
  rewrite app_nil_r in P0.
  split; [exact S0|]. split; [exact P0|].
  unfold sortAscending. now apply sort_by_Forall.
Qed.

(** On numbers other than [NaN], "not below" is transitive. *)
Lemma not_below_trans (a b c : num) :
  a <> NaN -> b <> NaN -> c <> NaN ->
  lt b a = false -> lt c b = false -> lt c a = false.
Proof.
  intros Na Nb Nc.
  destruct a as [| | |a], b as [| | |b], c as [| | |c];
    try contradiction; try reflexivity; try discriminate.
  intros L1 L2.
  destruct (lt (Fin c) (Fin a)) eqn:E; [|reflexivity].
  apply lt_Fin in E.
  assert (A : ~ b < a) by (intro X; apply lt_Fin in X; congruence).
  assert (B : ~ c < b) by (intro X; apply lt_Fin in X; congruence).
  apply Qnot_lt_le in A. apply Qnot_lt_le in B.
  exfalso. apply (Qlt_irrefl c).
  apply Qlt_le_trans with a; [exact E|]. now apply Qle_trans with b.
Qed.

Lemma ascending_trans (a b c : val) :
  isValid a = true -> isValid b = true -> isValid c = true ->
  ascending a b -> ascending b c -> ascending a c.
Proof.
  unfold ascending. intros Va Vb Vc.
  apply not_below_trans; now apply isValid_number.
Qed.

Lemma ascending_refl (a : val) : ascending a a.
Proof. apply lt_irrefl. Qed.

(** In a sorted array of valid values, an element is not below any
    element before it. *)
Lemma sorted_head (a : val) (l : list val) :
  Forall (fun v => isValid v = true) (a :: l) ->
  Sorted ascending (a :: l) -> Forall (ascending a) l.
Proof.
  revert a. induction l as [|b l IH]; intros a V S; [constructor|].
  inversion S as [|a' l' S' Hd]; subst.
  inversion Hd as [|b' l' Hab]; subst.
  inversion V as [|a' l' Va V']; subst.
  inversion V' as [|b' l' Vb V'']; subst.
  constructor; [exact Hab|].
  specialize (IH b V' S').
  rewrite Forall_forall in *. intros x I.
  apply ascending_trans with b; auto.
Qed.

Lemma sorted_nth (l : list val) (i j : nat) :
  Forall (fun v => isValid v = true) l -> Sorted ascending l ->
  (i <= j < List.length l)%nat ->
  ascending (nth i l Undefined) (nth j l Undefined).
Proof.
  intros V S. revert i j.
  induction l as [|a l IH]; intros i j Hij; [simpl in Hij; lia|].
  pose proof (sorted_head a l V S) as Hd.
  inversion V as [|a' l' Va V']; subst.
  inversion S as [|a' l' S' _]; subst.
  destruct i as [|i], j as [|j]; cbn [nth].
  - apply ascending_refl.
  - rewrite Forall_forall in Hd. apply Hd, nth_In. simpl in Hij. lia.
  - lia.
  - apply IH; try assumption. simpl in Hij. lia.
Qed.

Lemma index_nth (l : list val) (i : Z) :
  (0 <= i)%Z -> index l (ofZ i) = nth (Z.to_nat i) l Undefined.
Proof.
  intro Hi. unfold index, ofZ.
  fold (is_integer (inject_Z i)). rewrite is_integer_inject_Z, Qfloor_Z.
  replace (0 <=? i)%Z with true by (symmetry; apply Z.leb_le; lia).
  reflexivity.
Qed.

(** X9.  With at least one valid value, [min] and [max] of the statistics
    are values of the series, and no valid value of the series is below
    [min] or above [max] (infinite values included). *)
Theorem computeStats_min_max :
  forall (H : Host) (pts : list Sample) (threshold : val),
    validValues pts <> [] ->
    let stats := computeStats H pts threshold in
    exists mn mx,
      s_min stats = Num mn /\ s_max stats = Num mx
      /\ In (Num mn) (validValues pts) /\ In (Num mx) (validValues pts)
      /\ forall v, In v (validValues pts) ->
                   lt (ToNumber v) mn = false /\ lt mx (ToNumber v) = false.
Proof.
  intros H pts threshold NE stats.
  destruct (computeStats_order_fields H pts threshold NE)
    as [_ [_ [Emin [Emax _]]]].
  fold stats in Emin, Emax.
  destruct (sortAscending_spec (validValues pts) (validValues_valid pts))
    as [S [P V]].
  set (sorted := sortAscending (validValues pts)) in *.
  assert (L : (0 < List.length sorted)%nat).
  { rewrite (Permutation_length P).
    destruct (validValues pts); [contradiction | simpl; lia]. }
  change (Fin 0) with (ofZ 0) in Emin.
  rewrite index_nth in Emin, Emax by lia.
  assert (I0 : In (nth (Z.to_nat 0) sorted Undefined) sorted) by (apply nth_In; simpl; lia).
  assert (I1 : In (nth (Z.to_nat (Z.of_nat (List.length sorted) - 1)) sorted Undefined)
                  sorted) by (apply nth_In; lia).
  rewrite Forall_forall in V.
  destruct (proj1 (isValid_iff _) (V _ I0)) as [mn [Hmn _]].
  destruct (proj1 (isValid_iff _) (V _ I1)) as [mx [Hmx _]].
  exists mn, mx. rewrite Emin, Emax.
  split; [exact Hmn|]. split; [exact Hmx|].
  split; [rewrite <- Hmn; now apply (Permutation_in _ P)|].
  split; [rewrite <- Hmx; now apply (Permutation_in _ P)|].
  intros v Iv. apply (Permutation_in _ (Permutation_sym P)) in Iv.
  destruct (In_nth _ _ Undefined Iv) as [k [Hk Ek]].
  apply Forall_forall in V.
  split.
  - pose proof (sorted_nth sorted (Z.to_nat 0) k V S ltac:(simpl; lia)) as A.
    unfold ascending in A. now rewrite Hmn, Ek in A.
  - pose proof (sorted_nth sorted k
                  (Z.to_nat (Z.of_nat (List.length sorted) - 1)) V S ltac:(lia)) as A.
    unfold ascending in A. now rewrite Hmx, Ek in A.
Qed.

Lemma computeStats_min_max_witness :
  validValues [sampleOf 2000 (Num (Fin 3)); sampleOf 2000 Null;
               sampleOf 2001 (Num NInf); sampleOf 2001 (Num (Fin 7))] <> []
  /\ exists mn mx,
       s_min (computeStats exampleHost
                [sampleOf 2000 (Num (Fin 3)); sampleOf 2000 Null;
                 sampleOf 2001 (Num NInf); sampleOf 2001 (Num (Fin 7))] Null)
       = Num mn
       /\ s_max (computeStats exampleHost
                   [sampleOf 2000 (Num (Fin 3)); sampleOf 2000 Null;
                    sampleOf 2001 (Num NInf); sampleOf 2001 (Num (Fin 7))] Null)
          = Num mx.
Proof.
  split; [discriminate|].
  destruct (computeStats_min_max exampleHost
              [sampleOf 2000 (Num (Fin 3)); sampleOf 2000 Null;
               sampleOf 2001 (Num NInf); sampleOf 2001 (Num (Fin 7))] Null
              ltac:(discriminate))
    as [mn [mx [E1 [E2 _]]]].
  exists mn, mx. split; assumption.
Defined.

(** ** Order statistics of finite values *)

Lemma finite_values (l : list val) :
  Forall (fun v => isFiniteValue v = true) l ->
  exists qs, l = map (fun q => Num (Fin q)) qs.
Proof.
  induction 1 as [|v l Fv _ [qs ->]]; [now exists []|].
  destruct v as [| |[| | |q]]; try discriminate.
  now exists (q :: qs).
Qed.

Lemma finite_values_valid (qs : list Q) :
  Forall (fun v => isValid v = true) (map (fun q => Num (Fin q)) qs).
Proof.
  apply Forall_forall. intros v I. apply in_map_iff in I.
  destruct I as [q [<- _]]. reflexivity.
Qed.

Lemma finite_values_finite (qs : list Q) :
  Forall (fun v => isFiniteValue v = true) (map (fun q => Num (Fin q)) qs).
Proof.
  apply Forall_forall. intros v I. apply in_map_iff in I.
  destruct I as [q [<- _]]. reflexivity.
Qed.

Lemma ascending_Fin (a b : Q) :
  ascending (Num (Fin a)) (Num (Fin b)) -> a <= b.
Proof.
  unfold ascending. cbn [ToNumber]. intro L.
  apply Qnot_lt_le. intro X. apply lt_Fin in X. congruence.
Qed.

Lemma nth_finite (ss : list Q) (i : nat) :
  (i < List.length ss)%nat ->
  nth i (map (fun q => Num (Fin q)) ss) Undefined = Num (Fin (nth i ss 0)).
Proof.
  intro Hi.
  rewrite (nth_indep _ Undefined (Num (Fin 0))) by now rewrite length_map.
  apply (map_nth (fun q => Num (Fin q))).
Qed.

Lemma index_finite (ss : list Q) (i : Z) :
  (0 <= i < Z.of_nat (List.length ss))%Z ->
  index (map (fun q => Num (Fin q)) ss) (ofZ i)
  = Num (Fin (nth (Z.to_nat i) ss 0)).
Proof.
  intro Hi. rewrite index_nth by lia. apply nth_finite. lia.
Qed.

(** The sorted copy of finite values, as rationals. *)
Lemma sortAscending_finite (qs : list Q) :
  exists ss,
    sortAscending (map (fun q => Num (Fin q)) qs) = map (fun q => Num (Fin q)) ss
    /\ List.length ss = List.length qs
    /\ (forall i j, (i <= j < List.length ss)%nat -> nth i ss 0 <= nth j ss 0)
    /\ (forall q, In q qs -> exists k, (k < List.length ss)%nat /\ nth k ss 0 = q).
Proof.
  destruct (sortAscending_spec _ (finite_values_valid qs)) as [S [P V]].
  assert (F : Forall (fun v => isFiniteValue v = true)
                     (sortAscending (map (fun q => Num (Fin q)) qs)))
    by (apply sort_by_Forall, finite_values_finite).
  destruct (finite_values _ F) as [ss E].
  rewrite E in *. exists ss.
  assert (L : List.length ss = List.length qs).
  { apply Permutation_length in P. now rewrite !length_map in P. }
  split; [reflexivity|]. split; [exact L|]. split.
  - intros i j Hij.
    pose proof (sorted_nth _ i j V S ltac:(rewrite length_map; lia)) as A.
    rewrite !nth_finite in A by lia. now apply ascending_Fin.
  - intros q I.
    assert (I' : In (Num (Fin q)) (map (fun q => Num (Fin q)) ss)).
    { apply (Permutation_in _ (Permutation_sym P)).
      apply in_map_iff. now exists q. }
    destruct (In_nth _ _ Undefined I') as [k [Hk Ek]].
    rewrite length_map in Hk. exists k. split; [exact Hk|].
    rewrite nth_finite in Ek by exact Hk. now inversion Ek.
Qed.

Lemma Qsum_bounds (qs : list Q) (lo hi : Q) :
  (forall q, In q qs -> lo <= q /\ q <= hi) ->
  inject_Z (Z.of_nat (List.length qs)) * lo <= Qsum qs
  /\ Qsum qs <= inject_Z (Z.of_nat (List.length qs)) * hi.
Proof.
  induction qs as [|q qs IH]; intro B.
  - cbn. change (inject_Z 0) with 0. split; lra.
  - destruct (IH (fun q' I => B q' (or_intror I))) as [A1 A2].
    destruct (B q (or_introl eq_refl)) as [B1 B2].
    cbn [List.length Qsum fold_right]. fold (Qsum qs).
    rewrite Nat2Z.inj_succ. unfold Z.succ. rewrite inject_Z_plus.
    change (inject_Z 1) with 1. split; nra.
Qed.

(** The mean of finite values is their sum over their number. *)
Lemma mean_finite (qs : list Q) :
  qs <> [] ->
  exists m, mean (map (fun q => Num (Fin q)) qs) = Fin m
            /\ m == Qsum qs / inject_Z (Z.of_nat (List.length qs)).
Proof.
  intro NE. unfold mean.
  destruct (fold_add_finite ToNumber (fun v => qof (ToNumber v))
              (map (fun q => Num (Fin q)) qs) 0) as [s [E S]].
  { intros d I. apply in_map_iff in I. destruct I as [q [<- _]].
    exists q. split; [reflexivity|]. reflexivity. }
  rewrite E, length_map. unfold ofNat, ofZ, div.
  assert (N : (0 < Z.of_nat (List.length qs))%Z)
    by (destruct qs; [contradiction | simpl; lia]).
  destruct (Qeq_bool (inject_Z (Z.of_nat (List.length qs))) 0) eqn:Z0.
  - apply Qeq_bool_eq in Z0. exfalso.
    assert (X : inject_Z 0 < inject_Z (Z.of_nat (List.length qs)))
      by now rewrite <- Zlt_Qlt.
    change (inject_Z 0) with 0 in X. lra.
  - eexists. split; [reflexivity|]. unfold fin. rewrite Qred_correct, S.
    rewrite map_map. cbn [ToNumber qof]. rewrite map_id.
    apply Qdiv_comp; [ring | reflexivity].
Qed.

Lemma median_finite (ss : list Q) :
  ss <> [] ->
  (forall i j, (i <= j < List.length ss)%nat -> nth i ss 0 <= nth j ss 0) ->
  exists md, median (map (fun q => Num (Fin q)) ss) = Num (Fin md)
             /\ nth 0 ss 0 <= md
             /\ md <= nth (List.length ss - 1) ss 0.
Proof.
  intros NE Hs. unfold median. rewrite length_map.
  assert (N : (0 < Z.of_nat (List.length ss))%Z)
    by (destruct ss; [contradiction | simpl; lia]).
  set (n := List.length ss) in *.
  destruct (Z.of_nat n mod 2 =? 0)%Z eqn:Ev.
  - apply Z.eqb_eq in Ev.
    rewrite !index_finite by (fold n; Z.to_euclidean_division_equations; lia).
    cbn [ToNumber]. unfold add, div, fin.
    change (Qeq_bool 2 0) with false. cbv iota.
    eexists. split; [reflexivity|].
    rewrite !Qred_correct.
    pose proof (Hs 0%nat (Z.to_nat (Z.of_nat n / 2 - 1))
                  ltac:(fold n; Z.to_euclidean_division_equations; lia)) as A1.
    pose proof (Hs 0%nat (Z.to_nat (Z.of_nat n / 2))
                  ltac:(fold n; Z.to_euclidean_division_equations; lia)) as A2.
    pose proof (Hs (Z.to_nat (Z.of_nat n / 2 - 1)) (n - 1)%nat
                  ltac:(fold n; Z.to_euclidean_division_equations; lia)) as A3.
    pose proof (Hs (Z.to_nat (Z.of_nat n / 2)) (n - 1)%nat
                  ltac:(fold n; Z.to_euclidean_division_equations; lia)) as A4.
    set (a := nth (Z.to_nat (Z.of_nat n / 2 - 1)) ss 0) in *.
    set (b := nth (Z.to_nat (Z.of_nat n / 2)) ss 0) in *.
    split.
    + apply Qle_shift_div_l; [reflexivity | lra].
    + apply Qle_shift_div_r; [reflexivity | lra].
  - rewrite index_finite by (fold n; Z.to_euclidean_division_equations; lia).
    eexists. split; [reflexivity|]. split; apply Hs; fold n;
      Z.to_euclidean_division_equations; lia.
Qed.

Lemma floor_ceiling_range (x : Q) (m : Z) :
  0 <= x -> x <= inject_Z m ->
  (0 <= Qfloor x <= Qceiling x)%Z /\ (Qceiling x <= m)%Z
  /\ (Qceiling x <= Qfloor x + 1)%Z.
Proof.
  intros X0 Xm.
  pose proof (Qfloor_resp_le _ _ X0) as F0. change (Qfloor 0) with 0%Z in F0.
  pose proof (Qceiling_resp_le _ _ Xm) as Cm. rewrite Qceiling_Z in Cm.
  pose proof (Qle_floor_ceiling x) as FC. rewrite <- Zle_Qle in FC.
  pose proof (Qceiling_lt x) as C1. pose proof (Qlt_floor x) as F1.
  assert (X : inject_Z (Qceiling x - 1) < inject_Z (Qfloor x + 1)) by lra.
  rewrite <- Zlt_Qlt in X. lia.
Qed.

Lemma weight_range (x : Q) :
  0 <= x - inject_Z (Qfloor x) /\ x - inject_Z (Qfloor x) <= 1.
Proof.
  pose proof (Qfloor_le x). pose proof (Qlt_floor x) as F.
  rewrite inject_Z_plus in F. change (inject_Z 1) with 1 in F. split; lra.
Qed.

(** In an ascending array the interpolated value lies between its two
    neighbours. *)
Lemma interpolate_between (ss : list Q) (x : Q) :
  (forall i j, (i <= j < List.length ss)%nat -> nth i ss 0 <= nth j ss 0) ->
  0 <= x -> x <= inject_Z (Z.of_nat (List.length ss) - 1) ->
  nth (Z.to_nat (Qfloor x)) ss 0 <= interpolate ss x
  /\ interpolate ss x <= nth (Z.to_nat (Qceiling x)) ss 0.
Proof.
  intros Hs X0 Xn.
  destruct (floor_ceiling_range x _ X0 Xn) as [R1 [R2 R3]].
  destruct (weight_range x) as [W0 W1].
  pose proof (Hs (Z.to_nat (Qfloor x)) (Z.to_nat (Qceiling x)) ltac:(lia)) as A.
  unfold interpolate.
  set (a := nth (Z.to_nat (Qfloor x)) ss 0) in *.
  set (b := nth (Z.to_nat (Qceiling x)) ss 0) in *.
  set (w := x - inject_Z (Qfloor x)) in *.
  split; nra.
Qed.

(** Interpolation in an ascending array is monotone in the position. *)
Lemma interpolate_mono (ss : list Q) (x y : Q) :
  (forall i j, (i <= j < List.length ss)%nat -> nth i ss 0 <= nth j ss 0) ->
  0 <= x -> x <= y -> y <= inject_Z (Z.of_nat (List.length ss) - 1) ->
  interpolate ss x <= interpolate ss y.
Proof.
  intros Hs X0 XY Yn.
  assert (Xn : x <= inject_Z (Z.of_nat (List.length ss) - 1)) by lra.
  assert (Y0 : 0 <= y) by lra.
  destruct (floor_ceiling_range x _ X0 Xn) as [Rx1 [Rx2 Rx3]].
  destruct (floor_ceiling_range y _ Y0 Yn) as [Ry1 [Ry2 Ry3]].
  destruct (interpolate_between ss x Hs X0 Xn) as [Bx1 Bx2].
  destruct (interpolate_between ss y Hs Y0 Yn) as [By1 By2].
  pose proof (Qfloor_resp_le _ _ XY) as FF.
  pose proof (Qceiling_resp_le _ _ XY) as CC.
  destruct (Z.eq_dec (Qfloor x) (Qfloor y)) as [E|D].
  - destruct (Z.eq_dec (Qfloor x) (Qceiling x)) as [Ex|Dx].
    + (* x is an integer position *)
      apply Qle_trans with (nth (Z.to_nat (Qfloor y)) ss 0); [|exact By1].
      rewrite <- E. rewrite Ex at 1. exact Bx2.
    + assert (Cx : Qceiling x = (Qfloor x + 1)%Z) by lia.
      assert (Cy : Qceiling y = (Qfloor x + 1)%Z) by lia.
      pose proof (Hs (Z.to_nat (Qfloor x)) (Z.to_nat (Qfloor x + 1)) ltac:(lia)) as A.
      unfold interpolate. rewrite Cx, Cy, <- E.
      set (a := nth (Z.to_nat (Qfloor x)) ss 0) in *.
      set (b := nth (Z.to_nat (Qfloor x + 1)) ss 0) in *.
      nra.
  - apply Qle_trans with (1 := Bx2).
    apply Qle_trans with (2 := By1).
    apply Hs. lia.
Qed.

Lemma position_range (p : Q) (n : nat) :
  (0 < n)%nat -> 0 <= p -> p <= 100 ->
  0 <= position p n /\ position p n <= inject_Z (Z.of_nat n - 1).
Proof.
  intros N P0 P1. unfold position.
  assert (M : inject_Z 0 <= inject_Z (Z.of_nat n - 1)) by (rewrite <- Zle_Qle; lia).
  change (inject_Z 0) with 0 in M.
  set (m := inject_Z (Z.of_nat n - 1)) in *.
  assert (E : p / 100 == p * (1 # 100)) by reflexivity.
  rewrite E. split; nra.
Qed.

Lemma position_mono (p r : Q) (n : nat) :
  (0 < n)%nat -> p <= r -> position p n <= position r n.
Proof.
  intros N PR. unfold position.
  assert (M : inject_Z 0 <= inject_Z (Z.of_nat n - 1)) by (rewrite <- Zle_Qle; lia).
  change (inject_Z 0) with 0 in M.
  set (m := inject_Z (Z.of_nat n - 1)) in *.
  assert (E : forall t, t / 100 == t * (1 # 100)) by reflexivity.
  rewrite !E. nra.
Qed.

(** [percentile] on finite values: the interpolated value at the position
    of the percentile. *)
Lemma percentile_finite (ss : list Q) (p : Q) :
  ss <> [] -> 0 <= p -> p <= 100 ->
  exists v, percentile (map (fun q => Num (Fin q)) ss) (Fin p) = Num (Fin v)
            /\ v == interpolate ss (position p (List.length ss)).
Proof.
  intros NE P0 P1.
  assert (N : (0 < List.length ss)%nat)
    by (destruct ss; [contradiction | simpl; lia]).
  destruct (position_range p _ N P0 P1) as [X0 Xn].
  unfold percentile.
  destruct (map (fun q => Num (Fin q)) ss) eqn:Em;
    [destruct ss; [contradiction | discriminate]|].
  rewrite <- Em. clear Em. rewrite length_map.
  set (x' := Qred (Qred (p / 100) * inject_Z (Z.of_nat (List.length ss) - 1))).
  assert (Ei : mul (div (Fin p) (Fin 100)) (ofZ (Z.of_nat (List.length ss) - 1))
               = Fin x') by reflexivity.
  rewrite Ei. clear Ei.
  assert (Ex : x' == position p (List.length ss)).
  { unfold x', position. now rewrite !Qred_correct. }
  cbn [Math_floor Math_ceil]. rewrite eqb_ofZ.
  rewrite (Qfloor_comp _ _ Ex), (Qceiling_comp _ _ Ex).
  set (x := position p (List.length ss)) in *.
  destruct (floor_ceiling_range x _ X0 Xn) as [R1 [R2 R3]].
  destruct (Qfloor x =? Qceiling x)%Z eqn:E.
  - apply Z.eqb_eq in E.
    rewrite index_finite by lia.
    eexists. split; [reflexivity|].
    unfold interpolate. rewrite <- E. ring.
  - rewrite !index_finite by lia. cbn [ToNumber].
    unfold sub, neg, ofZ, add, mul, fin.
    eexists. split; [reflexivity|].
    unfold interpolate. rewrite !Qred_correct. rewrite Ex. ring.
Qed.

(** The sorted copy that [computeStats] works on, when the valid values
    are finite. *)
Lemma computeStats_finite_sorted (pts : list Sample) :
  validValues pts <> [] ->
  Forall (fun v => isFiniteValue v = true) (validValues pts) ->
  exists qs ss,
    validValues pts = map (fun q => Num (Fin q)) qs
    /\ sortAscending (validValues pts) = map (fun q => Num (Fin q)) ss
    /\ qs <> [] /\ ss <> []
    /\ List.length ss = List.length qs
    /\ (forall i j, (i <= j < List.length ss)%nat -> nth i ss 0 <= nth j ss 0)
    /\ (forall q, In q qs ->
                  nth 0 ss 0 <= q /\ q <= nth (List.length ss - 1) ss 0).
Proof.
  intros NE F. destruct (finite_values _ F) as [qs E].
  rewrite E in *.
  destruct (sortAscending_finite qs) as [ss [Es [L [Hs Hq]]]].
  assert (Nq : qs <> []) by (intro Z0; now rewrite Z0 in NE).
  assert (Ns : ss <> [])
    by (intro Z0; rewrite Z0 in L; destruct qs; [contradiction | discriminate]).
  exists qs, ss. repeat split; try assumption.
  - destruct (Hq q H) as [k [Hk <-]]. apply Hs. lia.
  - destruct (Hq q H) as [k [Hk <-]]. apply Hs. lia.
Qed.





Example percentiles_1_to_5 :
  s_percentiles
    (computeStats exampleHost
       [sampleOf 2000 (Num (Fin 5)); sampleOf 2000 (Num (Fin 1));
        sampleOf 2001 (Num (Fin 4)); sampleOf 2001 (Num (Fin 2));
        sampleOf 2002 (Num (Fin 3))] Null)
  = Some {| p10 := Num (Fin (7 # 5)); p25 := Num (Fin 2); p50 := Num (Fin 3);
            p75 := Num (Fin 4); p90 := Num (Fin (23 # 5));
            p95 := Num (Fin (24 # 5)); p99 := Num (Fin (124 # 25)) |}.
Proof. reflexivity. Qed.

(** ** Exceedance against the threshold *)

Lemma length_filter_impl {A : Type} (p q : A -> bool) (l : list A) :
  (forall x, p x = true -> q x = true) ->
  (List.length (filter p l) <= List.length (filter q l))%nat.
Proof.
  intro I. induction l as [|x l IH]; [reflexivity|].
  cbn [filter]. destruct (p x) eqn:P.
  - rewrite (I x P). simpl. lia.
  - destruct (q x); simpl; lia.
Qed.

Lemma countAbove_antitone (t1 t2 : Q) (vs : list val) :
  t1 <= t2 -> (countAbove (Fin t2) vs <= countAbove (Fin t1) vs)%nat.
Proof.
  intro T. unfold countAbove. apply length_filter_impl.
  intros v. unfold gt.
  destruct (ToNumber v) as [| | |q]; try (intro; assumption).
  intro L. apply lt_Fin in L. apply lt_Fin. lra.
Qed.

Lemma probability_ratio (c n : nat) :
  (0 < n)%nat ->
  div (ofNat c) (ofNat n)
  = Fin (Qred (inject_Z (Z.of_nat c) / inject_Z (Z.of_nat n))).
Proof.
  intro N. unfold ofNat. rewrite div_ofZ by lia. reflexivity.
Qed.

Lemma ratio_le (a b n : nat) :
  (0 < n)%nat -> (a <= b)%nat ->
  inject_Z (Z.of_nat a) / inject_Z (Z.of_nat n)
  <= inject_Z (Z.of_nat b) / inject_Z (Z.of_nat n).
Proof.
  intros N AB.
  assert (P : 0 < inject_Z (Z.of_nat n))
    by (change 0 with (inject_Z 0); rewrite <- Zlt_Qlt; lia).
  apply Qle_shift_div_l; [exact P|].
  unfold Qdiv. rewrite <- Qmult_assoc, (Qmult_comm (/ _)), Qmult_inv_r, Qmult_1_r
    by lra.
  rewrite <- Zle_Qle. lia.
Qed.

(** X12.  The exceedance decreases as the threshold rises: for finite
    thresholds [t1 <= t2] over the same samples, the count and the
    probability for [t2] are at most those for [t1]; every count is at
    most the number of valid values and every probability lies between 0
    and 1. *)
Theorem computeStats_exceedance_antitone :
  forall (H : Host) (pts : list Sample) (t1 t2 : Q),
    validValues pts <> [] ->
    t1 <= t2 ->
    exists e1 e2 r1 r2,
      s_exceedance (computeStats H pts (Num (Fin t1))) = Some e1
      /\ s_exceedance (computeStats H pts (Num (Fin t2))) = Some e2
      /\ (ex_count e2 <= ex_count e1 <= List.length (validValues pts))%nat
      /\ ex_probability e1 = Fin r1 /\ ex_probability e2 = Fin r2
      /\ 0 <= r2 /\ r2 <= r1 /\ r1 <= 1.
Proof.
  intros H pts t1 t2 NE T.
  assert (N : (0 < List.length (validValues pts))%nat)
    by (destruct (validValues pts); [contradiction | simpl; lia]).
  pose proof (countAbove_antitone t1 t2 (validValues pts) T) as C.
  assert (B : (countAbove (Fin t1) (validValues pts)
               <= List.length (validValues pts))%nat)
    by apply length_filter_le.
  do 2 eexists. eexists. eexists.
  split; [apply computeStats_exceedance; exact NE|].
  split; [apply computeStats_exceedance; exact NE|].
  cbn [ex_count ex_probability].
  split; [lia|].
  split; [apply probability_ratio; exact N|].
  split; [apply probability_ratio; exact N|].
  rewrite !Qred_correct.
  split; [|split].
  - pose proof (ratio_le 0 _ _ N (Nat.le_0_l (countAbove (Fin t2) (validValues pts)))) as R.
    change (inject_Z (Z.of_nat 0)) with 0 in R. unfold Qdiv in R.
    rewrite Qmult_0_l in R. exact R.
  - now apply ratio_le.
  - pose proof (ratio_le _ _ _ N B) as R.
    apply Qle_trans with (1 := R).
    unfold Qdiv. rewrite Qmult_inv_r; [apply Qle_refl|].
    intro Z0. assert (X : 0 < inject_Z (Z.of_nat (List.length (validValues pts))))
      by (change 0 with (inject_Z 0); rewrite <- Zlt_Qlt; lia).
    lra.
Qed.

Lemma computeStats_exceedance_antitone_witness :
  validValues [sampleOf 2000 (Num (Fin 3)); sampleOf 2001 (Num (Fin 7))] <> []
  /\ 2 <= 5
  /\ exists e1 e2,
       s_exceedance (computeStats exampleHost
                       [sampleOf 2000 (Num (Fin 3)); sampleOf 2001 (Num (Fin 7))]
                       (Num (Fin 2))) = Some e1
       /\ s_exceedance (computeStats exampleHost
                          [sampleOf 2000 (Num (Fin 3)); sampleOf 2001 (Num (Fin 7))]
                          (Num (Fin 5))) = Some e2
       /\ (ex_count e2 <= ex_count e1)%nat.
Proof.
  split; [discriminate|]. split; [discriminate|].
  destruct (computeStats_exceedance_antitone exampleHost
              [sampleOf 2000 (Num (Fin 3)); sampleOf 2001 (Num (Fin 7))] 2 5
              ltac:(discriminate) ltac:(discriminate))
    as [e1 [e2 [r1 [r2 [E1 [E2 [[C _] _]]]]]]].
  exists e1, e2. repeat split; assumption.
Defined.

(** ** The sentence of the summary *)



(** ** The yearly groups of the trend *)

Lemma get_set_same {A : Type} (o : object A) (k : string) (a : A) :
  get (set o k a) k = Some a.
Proof.
  induction o as [|[k' a'] o IH]; cbn [set get].
  - now rewrite String.eqb_refl.
  - destruct (String.eqb k' k) eqn:E; cbn [get].
    + now rewrite String.eqb_refl.
    + now rewrite E.
Qed.

Lemma get_set_other {A : Type} (o : object A) (k k' : string) (a : A) :
  k <> k' -> get (set o k a) k' = get o k'.
Proof.
  intro D. induction o as [|[k0 a0] o IH]; cbn [set get].
  - destruct (String.eqb k k') eqn:E; [apply String.eqb_eq in E; contradiction|].
    reflexivity.
  - destruct (String.eqb k0 k) eqn:E; cbn [get].
    + apply String.eqb_eq in E. subst k0.
      destruct (String.eqb k k') eqn:E'; [apply String.eqb_eq in E'; contradiction|].
      reflexivity.
    + now rewrite IH.
Qed.

Lemma get_keys {A : Type} (o : object A) (k : string) :
  In k (map fst o) <-> get o k <> None.
Proof.
  induction o as [|[k' a'] o IH]; cbn [map fst get In].
  - split; [contradiction | intro X; now apply X].
  - destruct (String.eqb k' k) eqn:E.
    + apply String.eqb_eq in E. split; [discriminate | now left].
    + apply String.eqb_neq in E. rewrite <- IH. split; [|now right].
      intros [X|X]; [contradiction | exact X].
Qed.

Lemma set_keys_NoDup {A : Type} (o : object A) (k : string) (a : A) :
  NoDup (map fst o) -> NoDup (map fst (set o k a)).
Proof.
  induction o as [|[k' a'] o IH]; cbn [set map fst]; intro N.
  - constructor; [intros [] | constructor].
  - inversion N as [|x l Nx N']; subst.
    destruct (String.eqb k' k) eqn:E; cbn [map fst].
    + apply String.eqb_eq in E. subst k'. now constructor.
    + constructor; [|now apply IH].
      intro I. apply get_keys in I.
      rewrite get_set_other in I
        by (apply String.eqb_neq in E; congruence).
      apply get_keys in I. contradiction.
Qed.

(** What the grouping loop has built after a prefix of the samples: the
    keys are distinct and each holds the values of its samples. *)
Lemma groups_spec (H : Host) (pts : list Sample) :
  let o := fold_left (groupPoint H) pts [] in
  NoDup (map fst o)
  /\ forall k, get o k = match valuesOfYear H k pts with
                         | [] => None
                         | vs => Some vs
                         end.
Proof.
  induction pts as [|p pts IH] using rev_ind; [split; [constructor | reflexivity]|].
  rewrite fold_left_app. cbn [fold_left].
  destruct IH as [N G]. cbv zeta.
  set (o := fold_left (groupPoint H) pts []) in *.
  unfold groupPoint. split; [now apply set_keys_NoDup|].
  intro k. unfold valuesOfYear. rewrite filter_app, map_app. cbn [filter].
  destruct (String.eqb (yearKey H p) k) eqn:E.
  - apply String.eqb_eq in E. subst k. rewrite get_set_same, G.
    fold (valuesOfYear H (yearKey H p) pts). cbn [map].
    destruct (valuesOfYear H (yearKey H p) pts); reflexivity.
  - apply String.eqb_neq in E. rewrite get_set_other by exact E.
    cbn [map]. rewrite app_nil_r. apply G.
Qed.

Lemma sort_by_permutation {A : Type} (after : A -> A -> bool) (l : list A) :
  Permutation (sort_by after l) l.
Proof.
  unfold sort_by.
  assert (G : forall acc,
             Permutation (fold_left (fun acc x => insert_by after x acc) l acc)
                         (l ++ acc)).
  { induction l as [|x l IH]; intro acc; cbn [fold_left app];
      [apply Permutation_refl|].
    apply Permutation_trans with (1 := IH _).
    apply Permutation_trans with (l ++ x :: acc)%list.
    - apply Permutation_app_head, insert_permutation.
    - apply Permutation_sym, Permutation_middle. }
  specialize (G []). now rewrite app_nil_r in G.
Qed.

Lemma filter_partition {A : Type} (p q : A -> bool) (l : list A) :
  (forall x, q x = negb (p x)) ->
  Permutation (filter p l ++ filter q l) l.
Proof.
  intro E. induction l as [|x l IH]; [constructor|].
  cbn [filter]. rewrite E. destruct (p x); cbn [negb app].
  - now constructor.
  - apply Permutation_sym, Permutation_cons_app, Permutation_sym, IH.
Qed.

Lemma Object_keys_permutation {A : Type} (o : object A) :
  Permutation (Object_keys o) (map fst o).
Proof.
  unfold Object_keys.
  apply Permutation_trans
    with (filter (fun k => match array_index k with Some _ => true | None => false end)
                 (map fst o)
          ++ filter (fun k => match array_index k with Some _ => false | None => true end)
                    (map fst o))%list.
  - apply Permutation_app_tail, sort_by_permutation.
  - apply filter_partition. intro k. now destruct (array_index k).
Qed.

Lemma list_sum_cons (a : nat) (l : list nat) :
  list_sum (a :: l) = (a + list_sum l)%nat.
Proof. reflexivity. Qed.

(** Each sample is counted under exactly one of a list of distinct keys
    that holds its own. *)
Lemma count_one (k : string) (ks : list string) :
  NoDup ks -> In k ks ->
  list_sum (map (fun k' => if String.eqb k k' then 1 else 0)%nat ks) = 1%nat.
Proof.
  induction 1 as [|k0 ks Nk N IH]; [contradiction|].
  intros [->|I]; cbn [map]; rewrite ?list_sum_cons.
  - rewrite String.eqb_refl.
    assert (Z0 : list_sum (map (fun k' => if String.eqb k k' then 1 else 0)%nat ks)
                 = 0%nat).
    { clear -Nk. induction ks as [|k1 ks IH]; [reflexivity|].
      cbn [map]; rewrite ?list_sum_cons.
      destruct (String.eqb k k1) eqn:E;
        [apply String.eqb_eq in E; subst; exfalso; apply Nk; now left|].
      rewrite IH; [reflexivity|]. intro X. apply Nk. now right. }
    rewrite Z0. reflexivity.
  - destruct (String.eqb k k0) eqn:E;
      [apply String.eqb_eq in E; subst; contradiction|].
    now rewrite IH.
Qed.

Lemma groups_cover (H : Host) (ks : list string) (pts : list Sample) :
  NoDup ks -> (forall p, In p pts -> In (yearKey H p) ks) ->
  list_sum (map (fun k => List.length (valuesOfYear H k pts)) ks)
  = List.length pts.
Proof.
  intros N C. induction pts as [|p pts IH].
  - clear. induction ks; [reflexivity | cbn; assumption].
  - assert (E : forall k,
               List.length (valuesOfYear H k (p :: pts))
               = ((if String.eqb (yearKey H p) k then 1 else 0)
                  + List.length (valuesOfYear H k pts))%nat).
    { intro k. unfold valuesOfYear. cbn [filter].
      destruct (String.eqb (yearKey H p) k); reflexivity. }
    rewrite (map_ext _ _ E).
    assert (S : forall (f g : string -> nat) l,
               list_sum (map (fun k => (f k + g k)%nat) l)
               = (list_sum (map f l) + list_sum (map g l))%nat).
    { clear. intros f g l. induction l; cbn [map]; rewrite ?list_sum_cons; [reflexivity | lia]. }
    rewrite S, IH by (intros q I; apply C; now right).
    rewrite (count_one _ ks N (C p (or_introl eq_refl))). reflexivity.
Qed.

(** The entries of [analyzeTrend], by year key. *)
Lemma yearlyMeans_groups :
  forall (H : Host) (pts : list Sample),
    exists keys,
      NoDup keys
      /\ (forall k, In k keys <-> exists p, In p pts /\ yearKey H p = k)
      /\ yearlyMeans (analyzeTrend H pts)
         = map (fun k => {| ym_year := parseInt k;
                            ym_mean := mean (valuesOfYear H k pts);
                            ym_count := List.length (valuesOfYear H k pts) |})
               keys
      /\ list_sum (map ym_count (yearlyMeans (analyzeTrend H pts)))
         = List.length pts.
Proof.
  intros H pts.
  destruct (groups_spec H pts) as [N G]. cbv zeta in N, G.
  set (o := fold_left (groupPoint H) pts []) in *.
  assert (P : Permutation (sort_strings (Object_keys o)) (map fst o)).
  { apply Permutation_trans with (Object_keys o);
      [apply sort_by_permutation | apply Object_keys_permutation]. }
  set (keys := sort_strings (Object_keys o)) in *.
  assert (Nk : NoDup keys)
    by (apply (Permutation_NoDup (Permutation_sym P)); exact N).
  assert (K : forall k, In k keys <-> exists p, In p pts /\ yearKey H p = k).
  { intro k. split.
    - intro I. apply (Permutation_in _ P), get_keys in I. rewrite G in I.
      unfold valuesOfYear in I.
      destruct (filter (fun p => String.eqb (yearKey H p) k) pts) as [|p l] eqn:F;
        [now contradiction I|].
      assert (Ip : In p (filter (fun p => String.eqb (yearKey H p) k) pts))
        by (rewrite F; now left).
      apply filter_In in Ip. destruct Ip as [Ip E]. apply String.eqb_eq in E.
      now exists p.
    - intros [p [Ip E]]. apply (Permutation_in _ (Permutation_sym P)), get_keys.
      rewrite G. unfold valuesOfYear.
      assert (I' : In p (filter (fun p => String.eqb (yearKey H p) k) pts))
        by (apply filter_In; split; [exact Ip | now apply String.eqb_eq]).
      destruct (filter (fun p => String.eqb (yearKey H p) k) pts);
        [contradiction | discriminate]. }
  assert (Y : yearlyMeans (analyzeTrend H pts)
              = map (fun k => {| ym_year := parseInt k;
                                 ym_mean := mean (valuesOfYear H k pts);
                                 ym_count := List.length (valuesOfYear H k pts) |})
                    keys).
  { unfold analyzeTrend. cbn [yearlyMeans]. fold o. fold keys.
    apply map_ext. intro k. rewrite G.
    destruct (valuesOfYear H k pts) eqn:V; [|reflexivity].
    reflexivity. }
  exists keys. split; [exact Nk|]. split; [exact K|]. split; [exact Y|].
  rewrite Y, map_map. cbn [ym_count].
  apply groups_cover; [exact Nk|].
  intros p Ip. apply K. now exists p.
Qed.

(** X14.  [analyzeTrend] reports one entry for each distinct year key of
    the samples.  The entry of a key has the year read from the key, the
    mean of the values of all samples of that key, whatever they are, and
    their number; the numbers add up to the number of samples. *)
Theorem analyzeTrend_groups :
  forall (H : Host) (pts : list Sample),
    exists keys,
      NoDup keys
      /\ (forall k, In k keys <-> exists p, In p pts /\ yearKey H p = k)
      /\ yearlyMeans (analyzeTrend H pts)
         = map (fun k => {| ym_year := parseInt k;
                            ym_mean := mean (valuesOfYear H k pts);
                            ym_count := List.length (valuesOfYear H k pts) |})
               keys
      /\ list_sum (map ym_count (yearlyMeans (analyzeTrend H pts)))
         = List.length pts.
Proof.
  exact yearlyMeans_groups.
Qed.

Lemma NoDup_all_equal {A : Type} (l : list A) :
  NoDup l -> (forall a b, In a l -> In b l -> a = b) -> (List.length l <= 1)%nat.
Proof.
  intros N E. destruct l as [|a [|b l]]; cbn [List.length]; try lia.
  exfalso. inversion N as [|x l' Na _]; subst. apply Na.
  rewrite (E a b); [now left | now left | right; now left].
Qed.

(** X3.  Samples of a single year: when all samples have the same year
    key (or there is none), [analyzeTrend] reports at most one yearly
    mean, and the trend has slope "0.0000", direction 'stable' and change
    per decade "0.00". *)
Theorem analyzeTrend_single_year :
  forall (H : Host) (pts : list Sample),
    (forall p q, In p pts -> In q pts -> yearKey H p = yearKey H q) ->
    (List.length (yearlyMeans (analyzeTrend H pts)) <= 1)%nat
    /\ trend (analyzeTrend H pts)
       = {| slope := "0.0000"; direction := "stable"; changePerDecade := "0.00" |}.
Proof.
  intros H pts S.
  destruct (yearlyMeans_groups H pts) as [keys [N [K [Y _]]]].
  assert (L : (List.length (yearlyMeans (analyzeTrend H pts)) <= 1)%nat).
  { rewrite Y, length_map. apply NoDup_all_equal; [exact N|].
    intros a b Ia Ib. apply K in Ia, Ib.
    destruct Ia as [p [Ip <-]], Ib as [q [Iq <-]]. now apply S. }
  split; [exact L|].
  apply analyzeTrend_insufficient_years. lia.
Qed.

Lemma analyzeTrend_single_year_witness :
  (forall p q,
      In p [sampleOf 2000 (Num (Fin 10)); sampleOf 2000 (Num (Fin 12))] ->
      In q [sampleOf 2000 (Num (Fin 10)); sampleOf 2000 (Num (Fin 12))] ->
      yearKey exampleHost p = yearKey exampleHost q)
  /\ direction (trend (analyzeTrend exampleHost
                         [sampleOf 2000 (Num (Fin 10)); sampleOf 2000 (Num (Fin 12))]))
     = "stable".
Proof.
  assert (S : forall p q,
             In p [sampleOf 2000 (Num (Fin 10)); sampleOf 2000 (Num (Fin 12))] ->
             In q [sampleOf 2000 (Num (Fin 10)); sampleOf 2000 (Num (Fin 12))] ->
             yearKey exampleHost p = yearKey exampleHost q).
  { intros p q [<-|[<-|[]]] [<-|[<-|[]]]; reflexivity. }
  split; [exact S|].
  exact (f_equal direction
           (proj2 (analyzeTrend_single_year exampleHost
                     [sampleOf 2000 (Num (Fin 10)); sampleOf 2000 (Num (Fin 12))] S))).
Defined.

(** ** The window of a validated request *)

Lemma generated_year_and_day (H : Host) (lat lon : num) (variable : string)
  (targetDay windowDays : Z) (yearRange : DataFetcher.YearRange) :
  map yearAndDay
      (DataFetcher.generateMockData H lat lon variable targetDay windowDays yearRange)
  = map expected
        (list_prod (range (DataFetcher.start yearRange) (DataFetcher.end_ yearRange))
                   (range (targetDay - windowDays) (targetDay + windowDays))).
Proof.
  unfold DataFetcher.generateMockData.
  now rewrite outer_loop_yearAndDay.
Qed.

Lemma Num_ofZ_inj (a b : Z) : Num (ofZ a) = Num (ofZ b) -> a = b.
Proof.
  unfold ofZ, inject_Z. intro E. now injection E.
Qed.

(** X15.  For a request that passed validation (day of year 1 to 366,
    window 0 to 30), every generated sample has a day of year between 1
    and 365 and a year between [start - 1] and [end + 1], and no two
    samples have the same year and day.  Day 366 itself is never
    generated: it wraps to day 1 of the following year. *)
Theorem generateMockData_validated_window :
  forall (H : Host) (lat lon : num) (variable : string)
         (targetDay windowDays : Z) (yearRange : DataFetcher.YearRange),
    (1 <= targetDay <= 366)%Z ->
    (0 <= windowDays <= 30)%Z ->
    let samples := DataFetcher.generateMockData H lat lon variable
                     targetDay windowDays yearRange in
    Forall (fun s => exists y d,
                year s = Num (ofZ y) /\ dayOfYear s = Num (ofZ d)
                /\ (1 <= d <= 365)%Z
                /\ (DataFetcher.start yearRange - 1 <= y
                    <= DataFetcher.end_ yearRange + 1)%Z)
           samples
    /\ NoDup (map yearAndDay samples).
Proof.
  intros H lat lon variable targetDay windowDays yearRange Hd Hw samples.
  pose proof (generated_year_and_day H lat lon variable targetDay windowDays yearRange)
    as G.
  fold samples in G.
  split.
  - apply Forall_forall. intros s Is.
    assert (I : In (yearAndDay s) (map yearAndDay samples)) by now apply in_map.
    rewrite G in I. apply in_map_iff in I. destruct I as [[y o] [E I]].
    apply in_prod_iff in I. destruct I as [Iy Io].
    apply range_spec in Iy. apply range_spec in Io.
    unfold expected, windowSample in E. cbn [fst snd] in E.
    unfold yearAndDay in E.
    destruct (o <? 1)%Z eqn:O1; [|destruct (365 <? o)%Z eqn:O2];
      apply pair_equal_spec in E; destruct E as [Ey Ed];
      [exists (y - 1)%Z, (365 + o)%Z | exists (y + 1)%Z, (o - 365)%Z | exists y, o];
      (split; [now symmetry|]); (split; [now symmetry|]); lia.
  - rewrite G. apply NoDup_map_NoDup_ForallPairs.
    + intros [y1 o1] [y2 o2] I1 I2 E.
      apply in_prod_iff in I1, I2. destruct I1 as [_ I1], I2 as [_ I2].
      apply range_spec in I1, I2.
      unfold expected, windowSample in E. cbn [fst snd] in E.
      destruct (o1 <? 1)%Z eqn:A1; [|destruct (365 <? o1)%Z eqn:A2];
        (destruct (o2 <? 1)%Z eqn:B1; [|destruct (365 <? o2)%Z eqn:B2]);
        apply pair_equal_spec in E; destruct E as [Ey Ed];
        apply Num_ofZ_inj in Ey, Ed; f_equal; lia.
    + apply list_prod_NoDup; apply range_NoDup.
Qed.

Lemma generateMockData_validated_window_witness :
  (1 <= 366 <= 366)%Z /\ (0 <= 0 <= 30)%Z
  /\ map yearAndDay
       (DataFetcher.generateMockData exampleHost (Fin 0) (Fin 0) "humidity" 366 0
          {| DataFetcher.start := 2000; DataFetcher.end_ := 2000 |})
     = [(Num (Fin 2001), Num (Fin 1))]
  /\ NoDup (map yearAndDay
              (DataFetcher.generateMockData exampleHost (Fin 0) (Fin 0) "humidity" 366 0
                 {| DataFetcher.start := 2000; DataFetcher.end_ := 2000 |})).
Proof.
  split; [lia|]. split; [lia|]. split; [reflexivity|].
  exact (proj2 (generateMockData_validated_window exampleHost (Fin 0) (Fin 0)
                  "humidity" 366 0
                  {| DataFetcher.start := 2000; DataFetcher.end_ := 2000 |}
                  ltac:(lia) ltac:(lia))).
Defined.

(** ** Two decimal places *)

Lemma starts_with_digit (a : string) :
  all_digits a = true -> a <> "" ->
  exists c a' d, a = String c a' /\ digit_of c = Some d.
Proof.
  intros D NE. destruct a as [|c a']; [contradiction|].
  cbn [all_digits] in D. destruct (digit_of c) as [d|] eqn:E; [|discriminate].
  now exists c, a', d.
Qed.

(** On a text that begins with a digit, [parseFloat] reads what
    [ToNumber] reads, when that is a number. *)
Lemma parseFloat_StringToNumber (c : ascii) (r : string) (d : N) (v : Q) :
  digit_of c = Some d ->
  StringToNumber (String c r) = Fin v -> parseFloat (String c r) = Fin v.
Proof.
  intros Dc. destruct (digit_is_plain c d Dc) as [W _].
  unfold StringToNumber, parseFloat. cbn [skip_ws]. rewrite W.
  destruct (parse_signed (String c r)) as [[x r']|]; [|discriminate].
  destruct (all_ws r'); [trivial | discriminate].
Qed.

Lemma parseFloat_minus (c : ascii) (r : string) (d : N) :
  digit_of c = Some d ->
  parseFloat (String "-" (String c r)) = neg (parseFloat (String c r)).
Proof.
  intros Dc. destruct (digit_is_plain c d Dc) as [W [M [P _]]].
  unfold parseFloat. cbn [skip_ws]. rewrite W.
  change (is_ws "-") with false. cbv iota.
  unfold parse_signed. cbn [parse_sign].
  change (Ascii.eqb "-" "-") with true. cbv iota. rewrite M, P.
  destruct (parse_unsigned (String c r)) as [[x r']|]; reflexivity.
Qed.

Lemma Qabs_Qabs (q : Q) : Qabs (Qabs q) = Qabs q.
Proof.
  destruct q as [n d]. unfold Qabs. now rewrite Z.abs_idemp.
Qed.

Lemma Qltb_neg (q : Q) : q < 0 -> Qltb q 0 = true.
Proof.
  intro N. unfold Qltb.
  assert (E : Qcompare q 0 = Lt) by now apply Qlt_alt.
  now rewrite E.
Qed.

Lemma toFixed_negative (H : Host) (q : Q) (f : nat) :
  q < 0 -> Qabs q < inject_Z (10 ^ 21) ->
  toFixed H (Fin q) f = "-" ++ toFixed H (Fin (Qabs q)) f.
Proof.
  intros N B. unfold toFixed.
  rewrite (Qltb_neg q N), (Qltb_nonneg (Qabs q) (Qabs_nonneg q)), Qabs_Qabs.
  assert (L : Qle_bool (inject_Z (10 ^ 21)) (Qabs q) = false).
  { destruct (Qle_bool _ _) eqn:E; [|reflexivity].
    apply Qle_bool_iff in E. exfalso. exact (Qlt_not_le _ _ B E). }
  rewrite L. reflexivity.
Qed.

(** [parseFloat(x.toFixed(f))] is [x] rounded to [f] decimal places. *)
Lemma parseFloat_toFixed (H : Host) (q : Q) (f : nat) :
  Qabs q < inject_Z (10 ^ 21) ->
  exists v, parseFloat (toFixed H (Fin q) (S f)) = Fin v
            /\ v == roundTo (S f) q.
Proof.
  intro B.
  assert (R : forall a, 0 <= a -> a < inject_Z (10 ^ 21) ->
              exists c r d,
                toFixed H (Fin a) (S f) = String c r /\ digit_of c = Some d
                /\ parseFloat (String c r)
                   = fin (inject_Z (roundHalfUp (a * inject_Z (10 ^ Z.of_nat (S f))))
                          / inject_Z (10 ^ Z.of_nat (S f)))).
  { intros a P Ba.
    destruct (toFixed_nonneg H a f P Ba) as [x [y [E [Dx [_ [NE _]]]]]].
    destruct (starts_with_digit x Dx NE) as [c [x' [d [-> Dc]]]].
    pose proof (StringToNumber_toFixed H a f P Ba) as S.
    rewrite E in *. cbn [append] in *.
    exists c, (x' ++ "." ++ y), d. split; [reflexivity|]. split; [exact Dc|].
    now apply (parseFloat_StringToNumber c _ d). }
  destruct (Qlt_le_dec q 0) as [N|P].
  - rewrite (toFixed_negative H q (S f) N B).
    destruct (R (Qabs q) (Qabs_nonneg q) B) as [c [r [d [E [Dc V]]]]].
    rewrite E. cbn [append]. rewrite (parseFloat_minus c r d Dc), V.
    eexists. split; [reflexivity|].
    unfold roundTo. rewrite (Qltb_neg q N), !Qred_correct. ring.
  - assert (A : Qabs q == q) by now apply Qabs_pos.
    rewrite A in B.
    destruct (R q P B) as [c [r [d [E [Dc V]]]]].
    rewrite E, V. eexists. split; [reflexivity|].
    unfold roundTo, fin. rewrite (Qltb_nonneg q P), Qred_correct.
    unfold roundHalfUp.
    rewrite (Qfloor_comp (Qabs q * inject_Z (10 ^ Z.of_nat (S f)) + (1 # 2))
                         (q * inject_Z (10 ^ Z.of_nat (S f)) + (1 # 2)))
      by now rewrite A.
    ring.
Qed.

Lemma roundHalfUp_between (x : Q) (a b : Z) :
  inject_Z a <= x -> x <= inject_Z b -> (a <= roundHalfUp x <= b)%Z.
Proof.
  intros A B. unfold roundHalfUp.
  pose proof (Qfloor_le (x + (1 # 2))) as F1.
  pose proof (Qlt_floor (x + (1 # 2))) as F2.
  assert (X1 : inject_Z (Qfloor (x + (1 # 2))) < inject_Z (b + 1)).
  { rewrite inject_Z_plus. change (inject_Z 1) with 1. lra. }
  assert (X2 : inject_Z a < inject_Z (Qfloor (x + (1 # 2)) + 1)) by lra.
  rewrite <- Zlt_Qlt in X1, X2. lia.
Qed.

Lemma pow10_pos (f : nat) : 0 < inject_Z (10 ^ Z.of_nat f).
Proof.
  change 0 with (inject_Z 0). rewrite <- Zlt_Qlt.
  apply Z.pow_pos_nonneg; lia.
Qed.

(** Rounding keeps a number between two bounds that have no more decimal
    places than are kept. *)
Lemma roundTo_bounds (f : nat) (q : Q) (a b : Z) :
  inject_Z a / inject_Z (10 ^ Z.of_nat f) <= q ->
  q <= inject_Z b / inject_Z (10 ^ Z.of_nat f) ->
  inject_Z a / inject_Z (10 ^ Z.of_nat f) <= roundTo f q
  /\ roundTo f q <= inject_Z b / inject_Z (10 ^ Z.of_nat f).
Proof.
  intros A B. pose proof (pow10_pos f) as P.
  set (N := inject_Z (10 ^ Z.of_nat f)) in *.
  assert (A' : inject_Z a <= q * N).
  { assert (X : inject_Z a == inject_Z a / N * N) by (field; lra).
    rewrite X. apply Qmult_le_compat_r; [exact A | lra]. }
  assert (B' : q * N <= inject_Z b).
  { assert (X : inject_Z b == inject_Z b / N * N) by (field; lra).
    rewrite X. apply Qmult_le_compat_r; [exact B | lra]. }
  unfold roundTo. fold N.
  destruct (Qlt_le_dec q 0) as [Ng|Ps].
  - rewrite (Qltb_neg q Ng).
    assert (E : Qabs q == - q) by (apply Qabs_neg; lra).
    destruct (roundHalfUp_between (Qabs q * N) (- b) (- a)) as [R1 R2].
    + rewrite E, inject_Z_opp. nra.
    + rewrite E, inject_Z_opp. nra.
    + set (R := roundHalfUp (Qabs q * N)) in *.
      assert (Ra : inject_Z a <= - inject_Z R)
        by (rewrite <- inject_Z_opp, <- Zle_Qle; lia).
      assert (Rb : - inject_Z R <= inject_Z b)
        by (rewrite <- inject_Z_opp, <- Zle_Qle; lia).
      split.
      * apply Qle_shift_div_r; [exact P|].
        assert (X : - (1) * (inject_Z R / N) * N == - inject_Z R)
          by (field; lra).
        now rewrite X.
      * apply Qle_shift_div_l; [exact P|].
        assert (X : - (1) * (inject_Z R / N) * N == - inject_Z R)
          by (field; lra).
        now rewrite X.
  - rewrite (Qltb_nonneg q Ps).
    assert (E : Qabs q == q) by now apply Qabs_pos.
    destruct (roundHalfUp_between (Qabs q * N) a b) as [R1 R2].
    + now rewrite E.
    + now rewrite E.
    + set (R := roundHalfUp (Qabs q * N)) in *.
      rewrite Zle_Qle in R1, R2.
      split.
      * apply Qle_shift_div_r; [exact P|].
        assert (X : 1 * (inject_Z R / N) * N == inject_Z R)
          by (field; lra).
        now rewrite X.
      * apply Qle_shift_div_l; [exact P|].
        assert (X : 1 * (inject_Z R / N) * N == inject_Z R)
          by (field; lra).
        now rewrite X.
Qed.

(** ** The values of the mock series *)

Lemma rounded_in_range (H : Host) (x : Q) (a b : Z) :
  (- 10 ^ 21 < a)%Z -> (b < 10 ^ 21)%Z ->
  inject_Z a / inject_Z (10 ^ Z.of_nat 2) <= x ->
  x <= inject_Z b / inject_Z (10 ^ Z.of_nat 2) ->
  exists v, parseFloat (toFixed H (Fin x) 2) = Fin v
            /\ inject_Z a / inject_Z (10 ^ Z.of_nat 2) <= v
            /\ v <= inject_Z b / inject_Z (10 ^ Z.of_nat 2).
Proof.
  intros Ha Hb A B.
  assert (X : Qabs x < inject_Z (10 ^ 21)).
  { apply Qabs_Qlt_condition.
    assert (A1 : - inject_Z (10 ^ 21) < inject_Z a / inject_Z (10 ^ Z.of_nat 2)).
    { apply Qlt_shift_div_l; [reflexivity|].
      change (inject_Z (10 ^ Z.of_nat 2)) with (inject_Z 100).
      rewrite <- inject_Z_opp, <- inject_Z_mult, <- Zlt_Qlt. lia. }
    assert (B1 : inject_Z b / inject_Z (10 ^ Z.of_nat 2) < inject_Z (10 ^ 21)).
    { apply Qlt_shift_div_r; [reflexivity|].
      change (inject_Z (10 ^ Z.of_nat 2)) with (inject_Z 100).
      rewrite <- inject_Z_mult, <- Zlt_Qlt. lia. }
    split; lra. }
  destruct (parseFloat_toFixed H x 1 X) as [v [E V]].
  exists v. split; [exact E|]. rewrite V.
  now apply roundTo_bounds.
Qed.

(** The bounds of [mockRange] have at most two decimal places. *)
Lemma mockRange_hundredths (variable : string) :
  exists a b,
    (- 10 ^ 21 < a)%Z /\ (b < 10 ^ 21)%Z
    /\ fst (mockRange variable) == inject_Z a / inject_Z (10 ^ Z.of_nat 2)
    /\ snd (mockRange variable) == inject_Z b / inject_Z (10 ^ Z.of_nat 2).
Proof.
  unfold mockRange.
  destruct (String.eqb variable "temperature");
    [exists (-27815)%Z, (-23815)%Z; repeat split; try lia; reflexivity|].
  destruct (String.eqb variable "precipitation");
    [exists 0%Z, 5000%Z; repeat split; try lia; reflexivity|].
  destruct (String.eqb variable "windspeed");
    [exists 0%Z, 1000%Z; repeat split; try lia; reflexivity|].
  destruct (String.eqb variable "humidity");
    [exists 4000%Z, 9000%Z; repeat split; try lia; reflexivity|].
  destruct (String.eqb variable "dust");
    [exists 0%Z, 50%Z; repeat split; try lia; reflexivity|].
  exists 0%Z, 10000%Z; repeat split; try lia; reflexivity.
Qed.

(** The value that the [switch] and the unit conversion produce, before
    it is rounded. *)
Lemma mock_value_range (H : Host) (variable : string) (actualDay : Z) (k : nat) :
  conforming H ->
  exists x,
    match DataFetcher.conversion variable with
    | Some f => f (fst (DataFetcher.mockValue H variable actualDay k))
    | None => fst (DataFetcher.mockValue H variable actualDay k)
    end = Fin x
    /\ fst (mockRange variable) <= x /\ x <= snd (mockRange variable).
Proof.
  intros [Hr [Hs [pi Hp]]].
  unfold DataFetcher.mockValue, DataFetcher.conversion, mockRange.
  destruct (Hr k) as [r [Er [R0 R1]]].
  destruct (Hr (S k)) as [r' [Er' [R0' R1']]].
  destruct (String.eqb variable "temperature") eqn:V1.
  { rewrite Hp. cbn [fst snd].
    unfold sub, neg, mul, div, add, ofZ, fin.
    change (Qeq_bool 365 0) with false. cbv iota.
    match goal with
    | |- context [Math_sin H (Fin ?q)] => destruct (Hs q) as [s [Es [S0 S1]]]
    end.
    rewrite Es, Er. eexists. split; [reflexivity|].
    rewrite !Qred_correct. split; lra. }
  destruct (String.eqb variable "precipitation") eqn:V2.
  { cbn [orb fst snd]. rewrite Er, Er'.
    destruct (lt (Fin r) (Fin (7 # 10))); cbn [fst].
    - exists 0. split; [reflexivity|]. split; lra.
    - unfold mul, fin. eexists. split; [reflexivity|].
      rewrite !Qred_correct. split; lra. }
  destruct (String.eqb variable "windspeed") eqn:V3.
  { cbn [orb fst snd]. rewrite Er.
    unfold sub, neg, mul, add, Math_abs, fin.
    eexists. split; [reflexivity|].
    rewrite !Qred_correct. split; [apply Qabs_nonneg|].
    apply Qabs_Qle_condition. split; lra. }
  destruct (String.eqb variable "humidity") eqn:V4.
  { cbn [orb fst snd]. rewrite Er.
    unfold mul, add, fin. eexists. split; [reflexivity|].
    rewrite !Qred_correct. split; lra. }
  destruct (String.eqb variable "dust") eqn:V5.
  { cbn [orb fst snd]. rewrite Er.
    unfold mul, fin. eexists. split; [reflexivity|].
    rewrite !Qred_correct. split; lra. }
  cbn [orb fst snd]. rewrite Er.
  unfold mul, fin. eexists. split; [reflexivity|].
  rewrite !Qred_correct. split; lra.
Qed.

(** The value of one generated sample. *)
Lemma mock_step_value (H : Host) (variable : string) (y : Z)
  (st : DataFetcher.State) (day : Z) :
  conforming H ->
  exists s v,
    DataFetcher.data (DataFetcher.step H variable y st day)
    = (DataFetcher.data st ++ [s])%list
    /\ value s = Num (Fin v)
    /\ fst (mockRange variable) <= v /\ v <= snd (mockRange variable).
Proof.
  intro C. unfold DataFetcher.step.
  destruct (DataFetcher.wrapDay y day) as [actualDay actualYear].
  destruct (mock_value_range H variable actualDay (DataFetcher.draws st) C)
    as [x [E [B1 B2]]].
  destruct (DataFetcher.mockValue H variable actualDay (DataFetcher.draws st))
    as [value0 k'].
  cbn [fst] in E. rewrite E.
  destruct (mockRange_hundredths variable) as [a [b [Ha [Hb [Ea Eb]]]]].
  destruct (rounded_in_range H x a b Ha Hb) as [v [Ev [V1 V2]]].
  - now rewrite <- Ea.
  - now rewrite <- Eb.
  - eexists. exists v. cbn [DataFetcher.data]. split; [reflexivity|].
    cbn [value]. rewrite Ev. split; [reflexivity|].
    rewrite Ea, Eb. split; assumption.
Qed.

Lemma mock_loop_values (H : Host) (variable : string) (ys os : list Z)
  (st : DataFetcher.State) (P : Sample -> Prop) :
  (forall y st day, exists s,
      DataFetcher.data (DataFetcher.step H variable y st day)
      = (DataFetcher.data st ++ [s])%list /\ P s) ->
  Forall P (DataFetcher.data st) ->
  Forall P
    (DataFetcher.data
       (fold_left (fun st y => fold_left (DataFetcher.step H variable y) os st)
                  ys st)).
Proof.
  intros S. revert st.
  assert (I : forall y os st,
             Forall P (DataFetcher.data st) ->
             Forall P (DataFetcher.data (fold_left (DataFetcher.step H variable y) os st))).
  { intros y os'. induction os' as [|o os' IH]; intros st F; cbn [fold_left];
      [exact F|].
    apply IH. destruct (S y st o) as [s [E Ps]]. rewrite E.
    apply Forall_app. split; [exact F | now constructor]. }
  induction ys as [|y ys IH]; intros st F; cbn [fold_left]; [exact F|].
  apply IH, I, F.
Qed.

(** Every generated value is in the interval of its variable. *)
Lemma mock_values_in_range (H : Host) (lat lon : num) (variable : string)
  (targetDay windowDays : Z) (yearRange : DataFetcher.YearRange) :
  conforming H ->
  Forall (fun s => exists v,
              value s = Num (Fin v)
              /\ fst (mockRange variable) <= v
              /\ v <= snd (mockRange variable))
         (DataFetcher.generateMockData H lat lon variable
            targetDay windowDays yearRange).
Proof.
  intro C. unfold DataFetcher.generateMockData.
  apply mock_loop_values; [|constructor].
  intros y st day.
  destruct (mock_step_value H variable y st day C) as [s [v [E [V B]]]].
  exists s. split; [exact E|]. now exists v.
Qed.

Lemma generateMockData_values_finite (H : Host) (lat lon : num) (variable : string)
  (targetDay windowDays : Z) (yearRange : DataFetcher.YearRange) :
  conforming H ->
  Forall (fun s => exists v, value s = Num (Fin v))
         (DataFetcher.generateMockData H lat lon variable
            targetDay windowDays yearRange).
Proof.
  intro C.
  apply (Forall_impl _ (P := fun s => exists v,
                                 value s = Num (Fin v)
                                 /\ fst (mockRange variable) <= v
                                 /\ v <= snd (mockRange variable))).
  - intros s [v [E _]]. now exists v.
  - now apply mock_values_in_range.
Qed.

(** X16.  On a host whose [Math.random()] lies in [0, 1) and whose
    [Math.sin] lies in [-1, 1], every value of the mock series is a finite
    number, rounded to two decimal places, in the interval of its
    variable: temperature [-278.15, -238.15] (the simulated 0 to 35
    degrees, less the 273.15 of the Kelvin conversion), precipitation
    [0, 50], wind speed [0, 10], humidity [40, 90], dust [0, 0.5], any
    other name [0, 100]. *)
Theorem generateMockData_values :
  forall (H : Host) (lat lon : num) (variable : string)
         (targetDay windowDays : Z) (yearRange : DataFetcher.YearRange),
    conforming H ->
    Forall (fun s => exists v,
                value s = Num (Fin v)
                /\ fst (mockRange variable) <= v
                /\ v <= snd (mockRange variable))
           (DataFetcher.generateMockData H lat lon variable
              targetDay windowDays yearRange).
Proof.
  intros H lat lon variable targetDay windowDays yearRange C.
  now apply mock_values_in_range.
Qed.

Lemma exampleHost_conforming : conforming exampleHost.
Proof.
  split; [|split].
  - intro n. exists (1 # 2). repeat split; discriminate.
  - intro q. exists 0. repeat split; discriminate.
  - now exists (355 # 113).
Qed.

Lemma generateMockData_values_witness :
  conforming exampleHost
  /\ map value
       (DataFetcher.generateMockData exampleHost (Fin 0) (Fin 0) "temperature" 1 0
          {| DataFetcher.start := 2000; DataFetcher.end_ := 2000 |})
     = [Num (fin (- (25815 # 100)))]
  /\ Forall (fun s => exists v,
                value s = Num (Fin v)
                /\ fst (mockRange "temperature") <= v
                /\ v <= snd (mockRange "temperature"))
       (DataFetcher.generateMockData exampleHost (Fin 0) (Fin 0) "temperature" 1 0
          {| DataFetcher.start := 2000; DataFetcher.end_ := 2000 |}).
Proof.
  split; [exact exampleHost_conforming|]. split; [reflexivity|].
  exact (generateMockData_values exampleHost (Fin 0) (Fin 0) "temperature" 1 0
           {| DataFetcher.start := 2000; DataFetcher.end_ := 2000 |}
           exampleHost_conforming).
Defined.

(** ** The mock series through the processor *)

Lemma values_all_valid (pts : list Sample) :
  Forall (fun s => exists v, value s = Num (Fin v)) pts ->
  validValues pts = map value pts
  /\ List.length (filter (fun d => isValid (value d)) pts) = List.length pts.
Proof.
  intro F. unfold validValues.
  induction F as [|s pts [v E] F [IH1 IH2]]; [split; reflexivity|].
  cbn [map filter List.length]. rewrite E.
  change (isValid (Num (Fin v))) with true. cbv iota.
  cbn [List.length]. rewrite <- E, IH1, IH2. split; reflexivity.
Qed.

Lemma mock_series_quality_all (H : Host) (lat lon : num) (variable : string)
  (targetDay windowDays : Z) (yearRange : DataFetcher.YearRange)
  (threshold : val) :
  conforming H ->
  let samples := DataFetcher.generateMockData H lat lon variable
                   targetDay windowDays yearRange in
  samples <> [] ->
  assessDataQuality H samples
  = {| total := List.length samples; valid := List.length samples;
       missing := 0; missingPercent := "0.0"; quality := "good";
       warning := None |}
  /\ s_count (computeStats H samples threshold) = List.length samples
  /\ exists sentence,
       generateSummary H (computeStats H samples threshold) variable threshold
       = Normal sentence.
Proof.
  intros C samples NE.
  assert (F : Forall (fun s => exists v, value s = Num (Fin v)) samples)
    by now apply generateMockData_values_finite.
  destruct (values_all_valid samples F) as [V L].
  assert (NV : validValues samples <> []).
  { rewrite V. destruct samples; [contradiction | discriminate]. }
  split; [|split].
  - unfold assessDataQuality. rewrite L, Z.sub_diag.
    change (ofZ 0) with (Fin 0). rewrite div_zero_ofNat.
    destruct (List.length samples) eqn:E;
      [destruct samples; [contradiction | discriminate]|].
    reflexivity.
  - rewrite computeStats_count, V. apply length_map.
  - now apply summary_returns.
Qed.

(** X17.  A non-empty mock series has no missing value: on a conforming
    host [assessDataQuality] reports every sample valid, 0 missing,
    [missingPercent] "0.0", quality 'good' and no warning; [computeStats]
    counts every sample, and [generateSummary] returns a sentence for
    every threshold. *)
Theorem mock_series_quality :
  forall (H : Host) (lat lon : num) (variable : string)
         (targetDay windowDays : Z) (yearRange : DataFetcher.YearRange)
         (threshold : val),
    conforming H ->
    let samples := DataFetcher.generateMockData H lat lon variable
                     targetDay windowDays yearRange in
    samples <> [] ->
    assessDataQuality H samples
    = {| total := List.length samples; valid := List.length samples;
         missing := 0; missingPercent := "0.0"; quality := "good";
         warning := None |}
    /\ s_count (computeStats H samples threshold) = List.length samples
    /\ exists sentence,
         generateSummary H (computeStats H samples threshold) variable threshold
         = Normal sentence.
Proof.
  intros H lat lon variable targetDay windowDays yearRange threshold C.
  now apply mock_series_quality_all.
Qed.

Lemma mock_series_quality_witness :
  conforming exampleHost
  /\ DataFetcher.generateMockData exampleHost (Fin 0) (Fin 0) "humidity" 1 1
       {| DataFetcher.start := 2000; DataFetcher.end_ := 2000 |} <> []
  /\ quality
       (assessDataQuality exampleHost
          (DataFetcher.generateMockData exampleHost (Fin 0) (Fin 0) "humidity" 1 1
             {| DataFetcher.start := 2000; DataFetcher.end_ := 2000 |}))
     = "good".
Proof.
  split; [exact exampleHost_conforming|]. split; [discriminate|].
  exact (f_equal quality
           (proj1 (mock_series_quality exampleHost (Fin 0) (Fin 0) "humidity" 1 1
                     {| DataFetcher.start := 2000; DataFetcher.end_ := 2000 |}
                     Null exampleHost_conforming ltac:(discriminate)))).
Defined.

(** ** Fetching a series *)

(** The conversions of the window loop are those of the configuration. *)
Lemma conversion_of_config (variable : string) :
  DataFetcher.conversion variable
  = option_map Config.conversion (get Config.variables variable).
Proof.
  unfold DataFetcher.conversion, Config.variables. cbn [get].
  rewrite !(String.eqb_sym _ variable).
  destruct (String.eqb variable "temperature"); [reflexivity|].
  destruct (String.eqb variable "precipitation"); [reflexivity|].
  destruct (String.eqb variable "windspeed"); [reflexivity|].
  destruct (String.eqb variable "humidity"); [reflexivity|].
  destruct (String.eqb variable "dust"); reflexivity.
Qed.

Lemma supported_configured (variable : string) :
  supported variable ->
  exists c, get Config.variables variable = Some c
            /\ In (Config.displayUnits c) ["°C"; "mm/day"; "m/s"; "%"; "kg/m²"].
Proof.
  intros [<-|[<-|[<-|[<-|[<-|[]]]]]]; eexists; (split; [reflexivity|]);
    cbn; auto 6.
Qed.

Lemma fetchPointTimeSeries_resolves (E : Node.Env) (H : Host) (lat lon : num)
  (variable : string) (targetDay windowDays : Z)
  (yearRange : DataFetcher.YearRange) :
  supported variable ->
  DataFetcher.fetchPointTimeSeries E H lat lon variable
    targetDay windowDays yearRange
  = Node.Resolved
      (DataFetcher.generateMockData H lat lon variable
         targetDay windowDays yearRange).
Proof.
  intro S.
  destruct (supported_configured variable S) as [c [G _]].
  unfold DataFetcher.fetchPointTimeSeries, DataFetcher.fetchRealNASAData,
    Node.property.
  rewrite G. now destruct (negb _).
Qed.

(** X18.  For each of the five supported variables and whatever the
    environment says, [fetchPointTimeSeries] resolves to the mock series:
    with [USE_MOCK_DATA] set to 'false' the path of the real data builds
    its parameters and falls back to [generateMockData]. *)
Theorem fetchPointTimeSeries_supported :
  forall (E : Node.Env) (H : Host) (lat lon : num) (variable : string)
         (targetDay windowDays : Z) (yearRange : DataFetcher.YearRange),
    supported variable ->
    DataFetcher.fetchPointTimeSeries E H lat lon variable
      targetDay windowDays yearRange
    = Node.Resolved
        (DataFetcher.generateMockData H lat lon variable
           targetDay windowDays yearRange).
Proof.
  intros E H lat lon variable targetDay windowDays yearRange S.
  now apply fetchPointTimeSeries_resolves.
Qed.

Lemma fetchPointTimeSeries_supported_witness :
  supported "dust"
  /\ DataFetcher.fetchPointTimeSeries exampleEnv exampleHost (Fin 0) (Fin 0) "dust"
       1 0 {| DataFetcher.start := 2000; DataFetcher.end_ := 2000 |}
     = Node.Resolved
         (DataFetcher.generateMockData exampleHost (Fin 0) (Fin 0) "dust"
            1 0 {| DataFetcher.start := 2000; DataFetcher.end_ := 2000 |}).
Proof.
  assert (S : supported "dust") by (unfold supported; cbn; auto 6).
  split; [exact S|].
  exact (fetchPointTimeSeries_supported exampleEnv exampleHost (Fin 0) (Fin 0)
           "dust" 1 0 {| DataFetcher.start := 2000; DataFetcher.end_ := 2000 |} S).
Defined.

(** ** The counters of the cache service *)

(** X19.  Over every sequence of calls on the cache service, whatever the
    library answers: each lookup counts as a hit or as a miss and nothing
    else does, so [hits + misses] grows by the number of lookups; [sets]
    grows by at most the number of stores; [flush] and [delete] leave the
    three counters as they are. *)
Theorem CacheService_counters :
  forall (V store libraryStats : Type)
         (nc : CacheService.NodeCache V store libraryStats)
         (cs : list (call V)) (st : CacheService.State store),
    let st' := fold_left (perform nc) cs st in
    (CacheService.hits st' + CacheService.misses st'
     = CacheService.hits st + CacheService.misses st + lookups cs)%nat
    /\ (CacheService.sets st <= CacheService.sets st'
        <= CacheService.sets st + stores cs)%nat
    /\ (CacheService.hits st <= CacheService.hits st')%nat
    /\ (CacheService.misses st <= CacheService.misses st')%nat.
Proof.
  intros V store libraryStats nc cs.
  induction cs as [|c cs IH]; intro st; cbn [fold_left].
  - unfold lookups, stores. cbn. lia.
  - specialize (IH (perform nc st c)). cbv zeta in IH.
    destruct IH as [I1 [I2 [I3 I4]]].
    assert (P : (CacheService.hits (perform nc st c)
                 + CacheService.misses (perform nc st c)
                 = CacheService.hits st + CacheService.misses st
                   + match c with CGet _ => 1 | _ => 0 end)%nat
                /\ (CacheService.sets st <= CacheService.sets (perform nc st c)
                    <= CacheService.sets st
                       + match c with CSet _ _ _ => 1 | _ => 0 end)%nat
                /\ (CacheService.hits st <= CacheService.hits (perform nc st c))%nat
                /\ (CacheService.misses st
                    <= CacheService.misses (perform nc st c))%nat).
    { destruct c as [key|key value ttl|key|]; unfold perform.
      - unfold CacheService.get.
        destruct (CacheService.nc_get nc (CacheService.cache st) key);
          cbn; lia.
      - unfold CacheService.set.
        destruct (if truthy match ttl with Undefined => Null | _ => ttl end
                  then _ else _) as [store' [|]]; cbn; lia.
      - unfold CacheService.delete.
        destruct (CacheService.nc_del nc (CacheService.cache st) key); cbn; lia.
      - cbn. lia. }
    destruct P as [P1 [P2 [P3 P4]]].
    unfold lookups, stores in *. cbn [filter].
    destruct c; cbn [List.length]; lia.
Qed.


Example getStats_one_hit_two_misses :
  CacheService.gs_hitRate
    (CacheService.getStats (exampleCache nat) exampleHost
       (fold_left (perform (exampleCache nat))
          [CGet "a"; CSet "a" 1%nat Null; CGet "a"; CFlush; CGet "a"]
          (emptyCache nat)))
  = "33.33%".
Proof. reflexivity. Qed.

(** ** The query of the controller *)

Lemma length_generateMockData (H : Host) (lat lon : num) (variable : string)
  (targetDay windowDays : Z) (yearRange : DataFetcher.YearRange) :
  List.length (DataFetcher.generateMockData H lat lon variable
                 targetDay windowDays yearRange)
  = (Z.to_nat (DataFetcher.end_ yearRange + 1 - DataFetcher.start yearRange)
     * Z.to_nat (2 * windowDays + 1))%nat.
Proof.
  rewrite <- (length_map yearAndDay), generated_year_and_day.
  rewrite length_map, length_prod, !length_range.
  f_equal. f_equal. lia.
Qed.

(** The state of the cache service after a lookup that missed or hit. *)
Lemma get_miss {V store libraryStats : Type}
  (nc : CacheService.NodeCache V store libraryStats)
  (st : CacheService.State store) (key : string) :
  CacheService.nc_get nc (CacheService.cache st) key = None ->
  CacheService.get nc st key
  = ({| CacheService.cache := CacheService.cache st;
        CacheService.hits := CacheService.hits st;
        CacheService.misses := S (CacheService.misses st);
        CacheService.sets := CacheService.sets st |}, None).
Proof.
  intro M. unfold CacheService.get. now rewrite M.
Qed.

Lemma get_hit {V store libraryStats : Type}
  (nc : CacheService.NodeCache V store libraryStats)
  (st : CacheService.State store) (key : string) (v : V) :
  CacheService.nc_get nc (CacheService.cache st) key = Some v ->
  CacheService.get nc st key
  = ({| CacheService.cache := CacheService.cache st;
        CacheService.hits := S (CacheService.hits st);
        CacheService.misses := CacheService.misses st;
        CacheService.sets := CacheService.sets st |}, Some v).
Proof.
  intro M. unfold CacheService.get. now rewrite M.
Qed.

(** X21.  A validated request whose year range is empty ([start] after
    [end], which the validation lets through) and that is not in the
    cache is answered with status 404 and the message of no data; the
    lookup counts as a miss and nothing is stored in the cache. *)
Theorem query_empty_range :
  forall (E : Node.Env) (H : Host) (store libraryStats : Type)
         (nc : CacheService.NodeCache (object WeatherController.json) store libraryStats)
         (st : CacheService.State store) (now : WeatherController.Moment)
         (params : Params),
    validated params ->
    (DataFetcher.end_ (p_yearRange params)
     < DataFetcher.start (p_yearRange params))%Z ->
    CacheService.nc_get nc (CacheService.cache st)
      (CacheService.generateKey H params) = None ->
    WeatherController.query E H store libraryStats nc st now params
    = ({| CacheService.cache := CacheService.cache st;
          CacheService.hits := CacheService.hits st;
          CacheService.misses := S (CacheService.misses st);
          CacheService.sets := CacheService.sets st |},
       WeatherController.Sent 404
         [("success", WeatherController.JBool false);
          ("message",
           WeatherController.JString
             "No data available for the specified location and time period")]).
Proof.
  intros E H store libraryStats nc st now params [S _] R M.
  unfold WeatherController.query.
  rewrite (get_miss nc st _ M).
  rewrite (fetchPointTimeSeries_resolves E H _ _ _ _ _ _ S).
  pose proof (length_generateMockData H (p_lat params) (p_lon params)
                (p_variable params) (p_dayOfYear params) (p_window params)
                (p_yearRange params)) as L.
  replace (Z.to_nat (DataFetcher.end_ (p_yearRange params) + 1
                     - DataFetcher.start (p_yearRange params))) with 0%nat in L
    by lia.
  destruct (DataFetcher.generateMockData H (p_lat params) (p_lon params)
              (p_variable params) (p_dayOfYear params) (p_window params)
              (p_yearRange params)); [reflexivity | discriminate].
Qed.

Lemma validated_example (first last : Z) (threshold : val) :
  (1980 <= first <= 2023)%Z -> (1980 <= last <= 2023)%Z ->
  validated (exampleParams first last threshold).
Proof.
  intros F L. unfold validated, supported. cbn.
  repeat split; try lia. auto 6.
Qed.

Lemma query_empty_range_witness :
  validated (exampleParams 2001 2000 Null)
  /\ (2000 < 2001)%Z
  /\ CacheService.nc_get (exampleCache (object WeatherController.json)) []
       (CacheService.generateKey exampleHost (exampleParams 2001 2000 Null)) = None
  /\ snd (WeatherController.query exampleEnv exampleHost _ _
            (exampleCache (object WeatherController.json))
            (emptyCache (object WeatherController.json))
            exampleMoment (exampleParams 2001 2000 Null))
     = WeatherController.Sent 404
         [("success", WeatherController.JBool false);
          ("message",
           WeatherController.JString
             "No data available for the specified location and time period")].
Proof.
  assert (V : validated (exampleParams 2001 2000 Null))
    by (apply validated_example; lia).
  split; [exact V|]. split; [lia|]. split; [reflexivity|].
  exact (f_equal snd
           (query_empty_range exampleEnv exampleHost _ _
              (exampleCache (object WeatherController.json))
              (emptyCache (object WeatherController.json))
              exampleMoment (exampleParams 2001 2000 Null)
              V ltac:(cbn; lia) eq_refl)).
Defined.

(** The answer to a request that is computed. *)
Lemma query_miss_succeeds_all :
  forall (E : Node.Env) (H : Host) (store libraryStats : Type)
         (nc : CacheService.NodeCache (object WeatherController.json) store libraryStats)
         (st : CacheService.State store) (now : WeatherController.Moment)
         (params : Params),
    conforming H ->
    validated params ->
    (DataFetcher.start (p_yearRange params)
     <= DataFetcher.end_ (p_yearRange params))%Z ->
    CacheService.nc_get nc (CacheService.cache st)
      (CacheService.generateKey H params) = None ->
    let series := DataFetcher.generateMockData H (p_lat params) (p_lon params)
                    (p_variable params) (p_dayOfYear params) (p_window params)
                    (p_yearRange params) in
    let stats := computeStats H series (p_threshold params) in
    exists result summary meta,
      WeatherController.query E H store libraryStats nc st now params
      = (fst (CacheService.set nc (missed st) (CacheService.generateKey H params)
                result Undefined),
         WeatherController.Sent 200 result)
      /\ result
         = [ ("success", WeatherController.JBool true);
             ("meta", WeatherController.JMeta meta);
             ("stats", WeatherController.JStats stats);
             ("trend", WeatherController.JTrend (analyzeTrend H series));
             ("summary", WeatherController.JString summary);
             ("distribution",
              WeatherController.JDistribution (s_distribution stats));
             ("timeseries", WeatherController.JSeries (firstn 100 series));
             ("downloadUrl",
              WeatherController.JString
                ("/api/v1/weather/download/weather_data_" ++ p_variable params
                 ++ "_" ++ ToString H (ofZ (WeatherController.timestamp now))
                 ++ ".csv"));
             ("cached", WeatherController.JBool false) ]
      /\ generateSummary H stats (p_variable params) (p_threshold params)
         = Normal summary
      /\ WeatherController.m_quality meta = assessDataQuality H series
      /\ quality (WeatherController.m_quality meta) = "good"
      /\ s_count stats = List.length series.
Proof.
  intros E H store libraryStats nc st now params C V R M series stats.
  destruct V as [S [_ [W _]]].
  assert (NE : series <> []).
  { intro Z0. apply (f_equal (@List.length _)) in Z0.
    unfold series in Z0. rewrite length_generateMockData in Z0.
    cbn [List.length] in Z0. nia. }
  destruct (mock_series_quality_all H (p_lat params) (p_lon params)
              (p_variable params) (p_dayOfYear params) (p_window params)
              (p_yearRange params) (p_threshold params) C NE)
    as [Q [Cn [summary Sm]]].
  fold series in Q, Cn, Sm.
  destruct (supported_configured _ S) as [c [G _]].
  unfold WeatherController.query.
  rewrite (get_miss nc st _ M).
  rewrite (fetchPointTimeSeries_resolves E H _ _ _ _ _ _ S).
  fold series. subst stats. clearbody series.
  destruct series as [|s0 series'] eqn:Es; [contradiction|].
  rewrite <- Es in *. rewrite Sm.
  unfold Node.property. rewrite G.
  fold (missed st).
  match goal with
  | |- context [CacheService.set ?a ?b ?k ?v ?t] =>
      destruct (CacheService.set a b k v t) as [st2 ok] eqn:St
  end.
  eexists. exists summary. eexists.
  split; [rewrite St; reflexivity|].
  split; [reflexivity|].
  split; [reflexivity|].
  cbn [WeatherController.m_quality].
  split; [reflexivity|]. split; [now rewrite Q | exact Cn].
Qed.



Example query_example_summary :
  exists body,
    snd (WeatherController.query exampleEnv exampleHost _ _
           (exampleCache (object WeatherController.json))
           (emptyCache (object WeatherController.json))
           exampleMoment (exampleParams 2000 2001 (Num (Fin 50))))
    = WeatherController.Sent 200 body
    /\ get body "summary"
       = Some (WeatherController.JString
                 "There is a 100.0% chance that humidity will exceed 50 based on historical data (2 observations). This is very likely.")
    /\ get body "downloadUrl"
       = Some (WeatherController.JString
                 "/api/v1/weather/download/weather_data_humidity_1704067200000.csv").
Proof. eexists. split; [reflexivity|]. split; reflexivity. Qed.

(** ** A repeated query *)

Lemma get_spread {A : Type} (base o : object A) (k : string) :
  NoDup (map fst o) ->
  get (WeatherController.spread base o) k
  = match get o k with
    | Some v => Some v
    | None => get base k
    end.
Proof.
  unfold WeatherController.spread. revert base.
  induction o as [|[k0 v0] o IH]; intros base N; cbn [fold_left get fst snd];
    [reflexivity|].
  inversion N as [|x l Nk N']; subst. rewrite (IH _ N').
  destruct (String.eqb k0 k) eqn:E.
  - apply String.eqb_eq in E. subst k0.
    destruct (get o k) eqn:G.
    + exfalso. apply Nk. apply get_keys. now rewrite G.
    + apply get_set_same.
  - apply String.eqb_neq in E.
    destruct (get o k); [reflexivity|]. now apply get_set_other.
Qed.

Lemma generateKey_sameSeries (H : Host) (p q : Params) :
  sameSeries p q -> CacheService.generateKey H p = CacheService.generateKey H q.
Proof.
  intros [A [B [C [D [F G]]]]]. unfold CacheService.generateKey.
  now rewrite A, B, C, D, F, G.
Qed.

Lemma set_default_ttl {V store libraryStats : Type}
  (nc : CacheService.NodeCache V store libraryStats)
  (st : CacheService.State store) (key : string) (value : V) :
  CacheService.cache (fst (CacheService.set nc st key value Undefined))
  = fst (CacheService.nc_set nc (CacheService.cache st) key value None)
  /\ CacheService.hits (fst (CacheService.set nc st key value Undefined))
     = CacheService.hits st
  /\ CacheService.misses (fst (CacheService.set nc st key value Undefined))
     = CacheService.misses st.
Proof.
  unfold CacheService.set. cbn [truthy].
  destruct (CacheService.nc_set nc (CacheService.cache st) key value None).
  repeat split.
Qed.

(** X23.  A query answered from the cache returns what was stored, not
    what is asked.  When a validated request was computed and stored, and
    the library still holds the entry, a second request for the same
    place, variable, day, window and years is answered with status 200 and
    a body with the same fields as the first answer, whatever its
    threshold and location name are: the statistics and the summary are
    those of the first threshold, and [cached] is false as in the stored
    body, although the answer came from the cache; the second lookup
    counts as a hit. *)
Theorem query_repeated :
  forall (E : Node.Env) (H : Host) (store libraryStats : Type)
         (nc : CacheService.NodeCache (object WeatherController.json) store libraryStats)
         (st : CacheService.State store) (now later : WeatherController.Moment)
         (p q : Params),
    conforming H ->
    validated p ->
    (DataFetcher.start (p_yearRange p) <= DataFetcher.end_ (p_yearRange p))%Z ->
    CacheService.nc_get nc (CacheService.cache st)
      (CacheService.generateKey H p) = None ->
    (forall s k v,
        CacheService.nc_get nc (fst (CacheService.nc_set nc s k v None)) k = Some v) ->
    sameSeries p q ->
    let first := WeatherController.query E H store libraryStats nc st now p in
    let second := WeatherController.query E H store libraryStats nc (fst first) later q in
    exists result body,
      snd first = WeatherController.Sent 200 result
      /\ snd second = WeatherController.Sent 200 body
      /\ (forall k, get body k = get result k)
      /\ get body "cached" = Some (WeatherController.JBool false)
      /\ get body "stats"
         = Some (WeatherController.JStats
                   (computeStats H
                      (DataFetcher.generateMockData H (p_lat p) (p_lon p)
                         (p_variable p) (p_dayOfYear p) (p_window p) (p_yearRange p))
                      (p_threshold p)))
      /\ CacheService.hits (fst second) = S (CacheService.hits st)
      /\ CacheService.misses (fst second) = S (CacheService.misses st).
Proof.
  intros E H store libraryStats nc st now later p q C V R M Law Sm first second.
  destruct (query_miss_succeeds_all E H store libraryStats nc st now p C V R M)
    as [result [summary [meta [Q [Er _]]]]].
  fold first in Q.
  destruct (set_default_ttl nc (missed st) (CacheService.generateKey H p) result)
    as [Sc [Sh Sms]].
  assert (Hit : CacheService.nc_get nc (CacheService.cache (fst first))
                  (CacheService.generateKey H q) = Some result).
  { rewrite Q. cbn [fst]. rewrite Sc, <- (generateKey_sameSeries H p q Sm).
    apply Law. }
  assert (Q2 : second
               = (hit (fst first),
                  WeatherController.Sent 200
                    (WeatherController.spread
                       [("success", WeatherController.JBool true);
                        ("cached", WeatherController.JBool true)] result))).
  { unfold second, WeatherController.query.
    rewrite (get_hit nc _ _ _ Hit). reflexivity. }
  assert (N : NoDup (map fst result)).
  { rewrite Er. cbn [map fst].
    repeat (constructor; [cbn; intuition discriminate|]). constructor. }
  assert (G : forall k,
             get (WeatherController.spread
                    [("success", WeatherController.JBool true);
                     ("cached", WeatherController.JBool true)] result) k
             = get result k).
  { intro k. rewrite (get_spread _ _ _ N).
    destruct (get result k) eqn:Gk; [reflexivity|].
    cbn [get].
    destruct (String.eqb "success" k) eqn:E1;
      [apply String.eqb_eq in E1; subst k; rewrite Er in Gk; discriminate|].
    destruct (String.eqb "cached" k) eqn:E2;
      [apply String.eqb_eq in E2; subst k; rewrite Er in Gk; discriminate|].
    reflexivity. }
  exists result. eexists.
  split; [now rewrite Q|]. split; [now rewrite Q2|].
  split; [exact G|].
  split; [rewrite G, Er; reflexivity|].
  split; [rewrite G, Er; reflexivity|].
  rewrite Q2. cbn [fst]. unfold hit. cbn [CacheService.hits CacheService.misses].
  rewrite Q. cbn [fst]. rewrite Sh, Sms. split; reflexivity.
Qed.

Lemma query_repeated_witness :
  conforming exampleHost
  /\ validated (exampleParams 2000 2001 (Num (Fin 50)))
  /\ (2000 <= 2001)%Z
  /\ CacheService.nc_get (exampleCache (object WeatherController.json)) []
       (CacheService.generateKey exampleHost (exampleParams 2000 2001 (Num (Fin 50))))
     = None
  /\ (forall s k v,
         CacheService.nc_get (exampleCache (object WeatherController.json))
           (fst (CacheService.nc_set (exampleCache (object WeatherController.json))
                   s k v None)) k = Some v)
  /\ sameSeries (exampleParams 2000 2001 (Num (Fin 50)))
                (exampleParams 2000 2001 (Num (Fin 80)))
  /\ exists body,
       snd (WeatherController.query exampleEnv exampleHost _ _
              (exampleCache (object WeatherController.json))
              (fst (WeatherController.query exampleEnv exampleHost _ _
                      (exampleCache (object WeatherController.json))
                      (emptyCache (object WeatherController.json))
                      exampleMoment (exampleParams 2000 2001 (Num (Fin 50)))))
              exampleMoment (exampleParams 2000 2001 (Num (Fin 80))))
       = WeatherController.Sent 200 body
       /\ get body "cached" = Some (WeatherController.JBool false).
Proof.
  assert (V : validated (exampleParams 2000 2001 (Num (Fin 50))))
    by (apply validated_example; lia).
  assert (L : forall s k v,
             CacheService.nc_get (exampleCache (object WeatherController.json))
               (fst (CacheService.nc_set (exampleCache (object WeatherController.json))
                       s k v None)) k = Some v)
    by (intros s k v; apply get_set_same).
  assert (S : sameSeries (exampleParams 2000 2001 (Num (Fin 50)))
                         (exampleParams 2000 2001 (Num (Fin 80))))
    by (repeat split).
  split; [exact exampleHost_conforming|]. split; [exact V|].
  split; [lia|]. split; [reflexivity|]. split; [exact L|]. split; [exact S|].
  destruct (query_repeated exampleEnv exampleHost _ _
              (exampleCache (object WeatherController.json))
              (emptyCache (object WeatherController.json))
              exampleMoment exampleMoment
              (exampleParams 2000 2001 (Num (Fin 50)))
              (exampleParams 2000 2001 (Num (Fin 80)))
              exampleHost_conforming V ltac:(cbn; lia) eq_refl L S)
    as [result [body [_ [B [_ [Cd _]]]]]].
  exists body. split; assumption.
Defined.

Example query_repeated_summary :
  exists body,
    snd (WeatherController.query exampleEnv exampleHost _ _
           (exampleCache (object WeatherController.json))
           (fst (WeatherController.query exampleEnv exampleHost _ _
                   (exampleCache (object WeatherController.json))
                   (emptyCache (object WeatherController.json))
                   exampleMoment (exampleParams 2000 2001 (Num (Fin 50)))))
           exampleMoment (exampleParams 2000 2001 (Num (Fin 80))))
    = WeatherController.Sent 200 body
    /\ get body "summary"
       = Some (WeatherController.JString
                 "There is a 100.0% chance that humidity will exceed 50 based on historical data (2 observations). This is very likely.").
Proof. eexists. split; reflexivity. Qed.

(** ** The link to the exported file *)

Lemma ToString_natural (H : Host) (z : Z) :
  (0 <= z < 10 ^ 21)%Z -> ToString H (ofZ z) = decimal (Z.to_N z).
Proof.
  intro R. unfold ToString, ofZ.
  rewrite is_integer_inject_Z, Qfloor_Z.
  assert (A : Qabs (inject_Z z) == inject_Z z).
  { apply Qabs_pos. change 0 with (inject_Z 0). rewrite <- Zle_Qle. lia. }
  assert (B : Qltb (Qabs (inject_Z z)) (inject_Z (10 ^ 21)) = true).
  { unfold Qltb.
    assert (X : Qcompare (Qabs (inject_Z z)) (inject_Z (10 ^ 21)) = Lt).
    { apply (proj1 (Qlt_alt _ _)). rewrite A. rewrite <- Zlt_Qlt. lia. }
    now rewrite X. }
  rewrite B. cbn [andb].
  rewrite Qltb_nonneg
    by (change 0 with (inject_Z 0); rewrite <- Zle_Qle; lia).
  rewrite Z.abs_eq by lia. reflexivity.
Qed.

Lemma includes_cons (c a : ascii) (s t : string) :
  Ascii.eqb a c = false ->
  Node.includes (String c s) (String a t) = Node.includes s (String a t).
Proof.
  intro D. cbn [Node.includes drop_prefix]. now rewrite D.
Qed.

Lemma includes_digits (d rest : string) (a : ascii) (t : string) :
  all_digits d = true -> digit_of a = None ->
  Node.includes (d ++ rest) (String a t) = Node.includes rest (String a t).
Proof.
  intros D Na. induction d as [|c d IH]; [reflexivity|].
  cbn [all_digits] in D. destruct (digit_of c) as [k|] eqn:Dc; [|discriminate].
  cbn [append]. rewrite includes_cons; [now apply IH|].
  destruct (Ascii.eqb a c) eqn:E; [|reflexivity].
  apply Ascii.eqb_eq in E. subst. congruence.
Qed.

(** X24.  The file name that [generateCSV] returns for a supported
    variable passes the check of [downloadCSV]: it contains no '..', '/'
    or backslash, so the download of the link in the answer of [query] is
    never refused as an invalid file name; it starts when the file
    exists and is answered with 404 otherwise. *)
Theorem download_link_accepted :
  forall (H : Host) (variable : string) (timestamp : Z) (existsSync : bool),
    supported variable ->
    (0 <= timestamp < 10 ^ 21)%Z ->
    let filename := CSVWriter.generateCSV H variable timestamp in
    WeatherController.downloadCSV filename existsSync
    = if existsSync then WeatherController.Download filename
      else WeatherController.Sent 404
             [("success", WeatherController.JBool false);
              ("message", WeatherController.JString "File not found or expired")].
Proof.
  intros H variable timestamp existsSync S R filename.
  assert (I : forall a t, digit_of a = None ->
              Node.includes ".csv" (String a t) = false ->
              Ascii.eqb a "w" = false -> Ascii.eqb a "e" = false ->
              Ascii.eqb a "a" = false -> Ascii.eqb a "t" = false ->
              Ascii.eqb a "h" = false -> Ascii.eqb a "r" = false ->
              Ascii.eqb a "_" = false -> Ascii.eqb a "d" = false ->
              Ascii.eqb a "m" = false -> Ascii.eqb a "p" = false ->
              Ascii.eqb a "u" = false -> Ascii.eqb a "c" = false ->
              Ascii.eqb a "i" = false -> Ascii.eqb a "o" = false ->
              Ascii.eqb a "n" = false -> Ascii.eqb a "s" = false ->
              Ascii.eqb a "y" = false ->
              Node.includes filename (String a t) = false).
  { intros a t Na Csv Hw He Ha Ht Hh Hr Hu Hd Hm Hp Huu Hc Hi Ho Hn Hs Hy.
    unfold filename, CSVWriter.generateCSV.
    rewrite (ToString_natural H timestamp R).
    destruct (decimal_spec (Z.to_N timestamp)) as [D _].
    destruct S as [<-|[<-|[<-|[<-|[<-|[]]]]]]; cbn [append];
      repeat (rewrite includes_cons by assumption);
      rewrite (includes_digits _ _ _ _ D Na); exact Csv. }
  unfold WeatherController.downloadCSV.
  rewrite (I "."%char "."), (I "/"%char ""), (I "\"%char "") by reflexivity.
  cbn [orb]. now destruct existsSync.
Qed.

Lemma download_link_accepted_witness :
  supported "humidity" /\ (0 <= 1704067200000 < 10 ^ 21)%Z
  /\ WeatherController.downloadCSV
       (CSVWriter.generateCSV exampleHost "humidity" 1704067200000) true
     = WeatherController.Download "weather_data_humidity_1704067200000.csv".
Proof.
  assert (S : supported "humidity") by (unfold supported; cbn; auto 6).
  split; [exact S|]. split; [lia|].
  exact (download_link_accepted exampleHost "humidity" 1704067200000 true S
           ltac:(lia)).
Defined.

(** ** Errors of a query *)

Lemma generateSummary_throws (H : Host) (stats : Stats) (variable : string)
  (threshold : val) (e : error) :
  generateSummary H stats variable threshold = Throw e ->
  e = TypeError "Cannot read properties of undefined (reading 'toFixed')"
  \/ e = TypeError "Cannot read properties of null (reading 'toFixed')".
Proof.
  unfold generateSummary.
  destruct (s_exceedance stats); [discriminate|].
  unfold bind, call_toFixed.
  destruct (s_mean stats); try (intro X; injection X as <-; auto).
  destruct (s_median stats); try (intro X; injection X as <-; auto).
  destruct (s_min stats); try (intro X; injection X as <-; auto).
  destruct (s_max stats); try (intro X; injection X as <-; auto).
  discriminate.
Qed.

(** The errors that [query] passes on. *)
Lemma query_errors (E : Node.Env) (H : Host) (store libraryStats : Type)
  (nc : CacheService.NodeCache (object WeatherController.json) store libraryStats)
  (st st' : CacheService.State store) (now : WeatherController.Moment)
  (params : Params) (e : Node.Error) :
  WeatherController.query E H store libraryStats nc st now params
  = (st', WeatherController.Next e) ->
  In e [ {| Node.e_name := "Error";
            Node.e_message :=
              "Failed to fetch data from NASA: Cannot read properties of undefined (reading 'code')" |};
         {| Node.e_name := "TypeError";
            Node.e_message :=
              "Cannot read properties of undefined (reading 'toFixed')" |};
         {| Node.e_name := "TypeError";
            Node.e_message :=
              "Cannot read properties of null (reading 'toFixed')" |};
         {| Node.e_name := "TypeError";
            Node.e_message :=
              "Cannot read properties of undefined (reading 'displayUnits')" |} ].
Proof.
  unfold WeatherController.query.
  destruct (CacheService.get nc st (CacheService.generateKey H params))
    as [st1 [r|]]; [discriminate|].
  destruct (DataFetcher.fetchPointTimeSeries E H (p_lat params) (p_lon params)
              (p_variable params) (p_dayOfYear params) (p_window params)
              (p_yearRange params)) as [series|e0] eqn:F.
  - destruct series as [|s0 series]; [discriminate|].
    destruct (generateSummary H _ (p_variable params) (p_threshold params))
      as [summary|e0] eqn:G.
    + destruct (Node.property E Config.variables (p_variable params)).
      * destruct (CacheService.set nc st1 _ _ Undefined). discriminate.
      * destruct (CacheService.set nc st1 _ _ Undefined). discriminate.
      * intro X. injection X as _ <-. cbn. auto.
    + intro X. injection X as _ <-.
      destruct (generateSummary_throws _ _ _ _ _ G) as [-> | ->]; cbn; auto.
  - intro X. injection X as _ <-.
    unfold DataFetcher.fetchPointTimeSeries, DataFetcher.fetchRealNASAData in F.
    destruct (negb _); [discriminate|].
    destruct (Node.property E Config.variables (p_variable params));
      try discriminate.
    injection F as <-. cbn. auto.
Qed.

(** X25.  Whatever error [query] passes on, the error handler answers it
    with status 500 and a body with [success] false and the message of
    the error; outside development the body has nothing else, in
    development it has the stack and the error as well.  The handler
    itself does not throw on these errors. *)
Theorem query_error_response :
  forall (E : Node.Env) (H : Host) (store libraryStats : Type)
         (nc : CacheService.NodeCache (object WeatherController.json) store libraryStats)
         (st st' : CacheService.State store) (now : WeatherController.Moment)
         (params : Params) (e : Node.Error),
    WeatherController.query E H store libraryStats nc st now params
    = (st', WeatherController.Next e) ->
    exists body,
      WeatherController.errorHandler E e
      = Normal (WeatherController.Sent 500 body)
      /\ get body "success" = Some (WeatherController.JBool false)
      /\ get body "message" = Some (WeatherController.JString (Node.e_message e))
      /\ (Node.NODE_ENV E <> Some "development" ->
          body = [("success", WeatherController.JBool false);
                  ("message", WeatherController.JString (Node.e_message e))])
      /\ (Node.NODE_ENV E = Some "development" ->
          get body "stack" = Some (WeatherController.JString (Node.stack E e))
          /\ get body "error" = Some (WeatherController.JError e)).
Proof.
  intros E H store libraryStats nc st st' now params e Q.
  apply query_errors in Q.
  assert (D : match Node.NODE_ENV E with
              | Some s => String.eqb s "development"
              | None => false
              end = true <-> Node.NODE_ENV E = Some "development").
  { destruct (Node.NODE_ENV E) as [s|]; [|split; discriminate].
    rewrite String.eqb_eq. split; [now intros -> | now intros [= ->]]. }
  unfold WeatherController.errorHandler.
  destruct (match Node.NODE_ENV E with
            | Some s => String.eqb s "development"
            | None => false
            end) eqn:Dev.
  - assert (Dv : Node.NODE_ENV E = Some "development") by now apply D.
    destruct Q as [<-|[<-|[<-|[<-|[]]]]]; cbn;
      (eexists; split; [reflexivity|]);
      (split; [reflexivity|]); (split; [reflexivity|]);
      (split; intro X; first [contradiction | reflexivity | split; reflexivity]).
  - assert (Dv : Node.NODE_ENV E <> Some "development")
      by (intro X; apply D in X; discriminate).
    destruct Q as [<-|[<-|[<-|[<-|[]]]]]; cbn;
      (eexists; split; [reflexivity|]);
      (split; [reflexivity|]); (split; [reflexivity|]);
      (split; intro X; first [contradiction | reflexivity | split; reflexivity]).
Qed.

Lemma query_error_response_witness :
  snd (WeatherController.query exampleEnv exampleHost _ _
         (exampleCache (object WeatherController.json))
         (emptyCache (object WeatherController.json))
         exampleMoment
         {| p_lat := Fin 10; p_lon := Fin 20; p_variable := "pressure";
            p_dayOfYear := 1; p_window := 0;
            p_yearRange := {| DataFetcher.start := 2000; DataFetcher.end_ := 2000 |};
            p_threshold := Null; p_locationName := None |})
  = WeatherController.Next
      {| Node.e_name := "Error";
         Node.e_message :=
           "Failed to fetch data from NASA: Cannot read properties of undefined (reading 'code')" |}
  /\ exists body,
       WeatherController.errorHandler exampleEnv
         {| Node.e_name := "Error";
            Node.e_message :=
              "Failed to fetch data from NASA: Cannot read properties of undefined (reading 'code')" |}
       = Normal (WeatherController.Sent 500 body).
Proof.
  split; [reflexivity|].
  destruct (query_error_response exampleEnv exampleHost _ _
              (exampleCache (object WeatherController.json))
              (emptyCache (object WeatherController.json)) _
              exampleMoment
              {| p_lat := Fin 10; p_lon := Fin 20; p_variable := "pressure";
                 p_dayOfYear := 1; p_window := 0;
                 p_yearRange := {| DataFetcher.start := 2000;
                                   DataFetcher.end_ := 2000 |};
                 p_threshold := Null; p_locationName := None |}
              _ eq_refl) as [body [B _]].
  now exists body.
Defined.

(** ** The pages of the history *)

Lemma parseInt_cases (s : string) :
  parseInt s = NaN \/ exists z, parseInt s = ofZ z.
Proof.
  unfold parseInt.
  destruct (parse_sign (skip_ws s)) as [sg r].
  destruct (match match drop_prefix "0x" r with
                  | Some r' => Some r'
                  | None => drop_prefix "0X" r
                  end with
            | Some r' => scan_hex r' 0 0
            | None => let '(n, cnt, _) := scan_digits r 0 0 in (n, cnt)
            end) as [n [|cnt]]; [now left|].
  right. eexists. reflexivity.
Qed.

Lemma truthy_ofZ (z : Z) : truthy (Num (ofZ z)) = negb (z =? 0)%Z.
Proof.
  unfold truthy, ofZ. f_equal.
  destruct (Qeq_bool (inject_Z z) 0) eqn:E.
  - apply Qeq_bool_eq in E. unfold Qeq in E. cbn in E.
    symmetry. apply Z.eqb_eq. lia.
  - destruct (z =? 0)%Z eqn:Z0; [|reflexivity].
    apply Z.eqb_eq in Z0. subst. discriminate.
Qed.

Lemma queryNumber_integer (param : option string) (d : Z) :
  d <> 0%Z ->
  exists z, WeatherController.queryNumber param (ofZ d) = ofZ z /\ z <> 0%Z
            /\ (param = None -> z = d).
Proof.
  intro D. unfold WeatherController.queryNumber.
  destruct param as [s|]; [|exists d; repeat split; trivial].
  destruct (parseInt_cases s) as [-> | [z ->]];
    [exists d; repeat split; trivial; discriminate|].
  rewrite truthy_ofZ. destruct (z =? 0)%Z eqn:Z0; cbn [negb].
  - exists d. repeat split; trivial; discriminate.
  - apply Z.eqb_neq in Z0. exists z. repeat split; trivial; discriminate.
Qed.

Lemma mul_ofZ (a b : Z) : mul (ofZ a) (ofZ b) = ofZ (a * b).
Proof.
  unfold mul, ofZ, fin. f_equal.
  rewrite <- inject_Z_mult. apply Qred_inject_Z.
Qed.

Lemma sub_ofZ (a b : Z) : sub (ofZ a) (ofZ b) = ofZ (a - b).
Proof.
  unfold sub, neg, ofZ, fin.
  rewrite <- inject_Z_opp, Qred_inject_Z.
  change (add (Fin (inject_Z a)) (Fin (inject_Z (- b))))
    with (add (ofZ a) (ofZ (- b))).
  now rewrite add_ofZ.
Qed.


Example pagination_default :
  WeatherController.pagination None (Some "abc") 45
  = {| WeatherController.pg_page := Fin 1;
       WeatherController.pg_limit := Fin 20;
       WeatherController.pg_skip := Fin 0;
       WeatherController.pg_pages := Fin 3 |}.
Proof. reflexivity. Qed.

(** ** The key of a cache entry *)

Lemma append_cancel_l (p a b : string) : p ++ a = p ++ b -> a = b.
Proof.
  induction p as [|c p IH]; cbn [append]; [trivial|].
  intro E. injection E as E. now apply IH.
Qed.

(** Two texts of digits, each followed by a colon, are told apart. *)
Lemma digits_split (d1 d2 r1 r2 : string) :
  all_digits d1 = true -> all_digits d2 = true ->
  d1 ++ ":" ++ r1 = d2 ++ ":" ++ r2 -> d1 = d2 /\ r1 = r2.
Proof.
  revert d2. induction d1 as [|c1 d1 IH]; intros [|c2 d2] D1 D2 E;
    cbn [append all_digits] in *.
  - injection E as E. now split.
  - injection E as <- _. discriminate.
  - injection E as -> _. discriminate.
  - injection E as -> E.
    destruct (digit_of c2); [|discriminate].
    destruct (IH d2 D1 D2 E) as [-> ->]. now split.
Qed.

Lemma decimal_inj (a b : N) : decimal a = decimal b -> a = b.
Proof.
  intro E. destruct (decimal_spec a) as [_ [Va _]].
  destruct (decimal_spec b) as [_ [Vb _]]. congruence.
Qed.

Lemma supported_split (v1 v2 r1 r2 : string) :
  supported v1 -> supported v2 ->
  v1 ++ ":" ++ r1 = v2 ++ ":" ++ r2 -> v1 = v2 /\ r1 = r2.
Proof.
  intros [<-|[<-|[<-|[<-|[<-|[]]]]]] [<-|[<-|[<-|[<-|[<-|[]]]]]] E;
    try discriminate; cbn [append] in E; inversion E; now split.
Qed.

(** X27.  The cache keeps the series apart: two validated requests for
    the same latitude and longitude have the same cache key only when
    they also agree on the variable, the day of the year, the window and
    both years. *)
Theorem generateKey_injective :
  forall (H : Host) (p q : Params),
    validated p -> validated q ->
    p_lat p = p_lat q -> p_lon p = p_lon q ->
    CacheService.generateKey H p = CacheService.generateKey H q ->
    sameSeries p q.
Proof.
  intros H p q [Sp [Dp [Wp [Fp Lp]]]] [Sq [Dq [Wq [Fq Lq]]]] Elat Elon K.
  unfold CacheService.generateKey in K. rewrite Elat, Elon in K.
  rewrite !(ToString_natural H) in K by lia.
  apply (append_cancel_l "query:") in K.
  apply append_cancel_l in K. apply (append_cancel_l ":") in K.
  apply append_cancel_l in K. apply (append_cancel_l ":") in K.
  destruct (supported_split _ _ _ _ Sp Sq K) as [Ev K1].
  destruct (digits_split _ _ _ _ (proj1 (decimal_spec _)) (proj1 (decimal_spec _)) K1)
    as [Ed K2].
  destruct (digits_split _ _ _ _ (proj1 (decimal_spec _)) (proj1 (decimal_spec _)) K2)
    as [Ew K3].
  destruct (digits_split _ _ _ _ (proj1 (decimal_spec _)) (proj1 (decimal_spec _)) K3)
    as [Es Ee].
  apply decimal_inj in Ed, Ew, Es, Ee.
  unfold sameSeries. repeat split; trivial; try lia.
  destruct (p_yearRange p) as [s1 e1], (p_yearRange q) as [s2 e2].
  cbn [DataFetcher.start DataFetcher.end_] in *. f_equal; lia.
Qed.

Lemma generateKey_injective_witness :
  validated (exampleParams 2000 2001 Null)
  /\ validated (exampleParams 2000 2001 (Num (Fin 3)))
  /\ sameSeries (exampleParams 2000 2001 Null) (exampleParams 2000 2001 (Num (Fin 3))).
Proof.
  assert (V1 : validated (exampleParams 2000 2001 Null))
    by (apply validated_example; lia).
  assert (V2 : validated (exampleParams 2000 2001 (Num (Fin 3))))
    by (apply validated_example; lia).
  split; [exact V1|]. split; [exact V2|].
  exact (generateKey_injective exampleHost _ _ V1 V2 eq_refl eq_refl eq_refl).
Defined.

(** ** Mean and standard deviation *)

Lemma Qsum_ext (f g : Q -> Q) (l : list Q) :
  (forall x, f x == g x) -> Qsum (map f l) == Qsum (map g l).
Proof.
  intro E. induction l as [|x l IH]; [reflexivity|].
  cbn [map Qsum fold_right]. fold (Qsum (map f l)) (Qsum (map g l)).
  now rewrite IH, E.
Qed.



(** ** The edges of the histogram *)

Lemma fold_min_within (qs : list Q) (a0 a lo hi : Q) :
  fold_left (fun m v => min2 m (ToNumber v)) (map (fun q => Num (Fin q)) qs) (Fin a0)
  = Fin a ->
  lo <= a0 -> a0 <= hi -> (forall q, In q qs -> lo <= q /\ q <= hi) ->
  lo <= a /\ a <= hi.
Proof.
  revert a0. induction qs as [|q qs IH]; intros a0; cbn [map fold_left ToNumber].
  - intros E L U _. injection E as <-. now split.
  - unfold min2 at 2. intros E L U B.
    destruct (B q (or_introl eq_refl)) as [Lq Uq].
    destruct (lt (Fin q) (Fin a0));
      [apply (IH q E Lq Uq) | apply (IH a0 E L U)];
      intros q' I; apply B; now right.
Qed.

Lemma fold_max_within (qs : list Q) (b0 b lo hi : Q) :
  fold_left (fun m v => max2 m (ToNumber v)) (map (fun q => Num (Fin q)) qs) (Fin b0)
  = Fin b ->
  lo <= b0 -> b0 <= hi -> (forall q, In q qs -> lo <= q /\ q <= hi) ->
  lo <= b /\ b <= hi.
Proof.
  revert b0. induction qs as [|q qs IH]; intros b0; cbn [map fold_left ToNumber].
  - intros E L U _. injection E as <-. now split.
  - unfold max2 at 2. intros E L U B.
    destruct (B q (or_introl eq_refl)) as [Lq Uq].
    destruct (lt (Fin b0) (Fin q));
      [apply (IH q E Lq Uq) | apply (IH b0 E L U)];
      intros q' I; apply B; now right.
Qed.

Lemma Qltb_comp (x y : Q) : x == y -> Qltb x 0 = Qltb y 0.
Proof.
  intro E. unfold Qltb. now rewrite (Qcompare_comp x y E 0 0 (Qeq_refl 0)).
Qed.

Lemma roundTo_comp (f : nat) (x y : Q) : x == y -> roundTo f x == roundTo f y.
Proof.
  intro E. unfold roundTo, roundHalfUp.
  rewrite (Qltb_comp x y E).
  rewrite (Qfloor_comp (Qabs x * inject_Z (10 ^ Z.of_nat f) + (1 # 2))
                       (Qabs y * inject_Z (10 ^ Z.of_nat f) + (1 # 2)))
    by now rewrite E.
  reflexivity.
Qed.


